(** * FileLogger: the concurrent directory scanner and its blocking rules

    A shallow embedding of [internal/models], [internal/scanner] and
    [internal/utils/jsonexport], with the properties of the scanner that
    the specification states.

    Go strings are byte strings ([string] of [ascii]); Go's [int] and
    [int64] are [Z] with the two's-complement wrap-around written out;
    an [error] is its message.  The functions of the Go standard library
    the scanner calls are modelled for single-byte (ASCII) text on a Unix
    system; [filepath.Match] and [http.DetectContentType] are parameters
    of the scanner. *)

From Stdlib Require Import ZArith List String Ascii Bool Lia Permutation.
Import ListNotations.
Local Open Scope string_scope.
Local Open Scope Z_scope.

(** ** Go integers *)

Module Int64.

Definition modulus : Z := 2 ^ 64.
Definition min_int : Z := - 2 ^ 63.
Definition max_int : Z := 2 ^ 63 - 1.

(** The value an [int64] holds after an arithmetic result [z]. *)
Definition wrap (z : Z) : Z := (z + 2 ^ 63) mod modulus - 2 ^ 63.

Definition add (a b : Z) : Z := wrap (a + b).
Definition mul (a b : Z) : Z := wrap (a * b).

Definition in_range (z : Z) : Prop := min_int <= z <= max_int.

End Int64.

(** ** Go errors *)

(** [err.Error()]: an error is represented by its message. *)
Definition error := string.

(** [fmt.Sprintf] and [fmt.Errorf] with [%s], [%v] verbs on strings. *)
Definition Sprintf2 (a b : string) : string := a ++ b.
Definition Sprintf4 (a b c d : string) : string := a ++ b ++ c ++ d.

(** ** package strings (bytes below 128; other bytes are compared as they are) *)

Module strings.

Definition is_upper (c : ascii) : bool :=
  let n := N_of_ascii c in (65 <=? n)%N && (n <=? 90)%N.

Definition lower (c : ascii) : ascii :=
  if is_upper c then ascii_of_N (N_of_ascii c + 32) else c.

Fixpoint ToLower (s : string) : string :=
  match s with
  | EmptyString => EmptyString
  | String c s' => String (lower c) (ToLower s')
  end.

(** Equality under simple case folding. *)
Fixpoint EqualFold (s t : string) : bool :=
  match s, t with
  | EmptyString, EmptyString => true
  | String a s', String b t' => Ascii.eqb (lower a) (lower b) && EqualFold s' t'
  | _, _ => false
  end.

Fixpoint HasPrefix (s prefix : string) : bool :=
  match prefix, s with
  | EmptyString, _ => true
  | String p prefix', String c s' => Ascii.eqb c p && HasPrefix s' prefix'
  | String _ _, EmptyString => false
  end.

Fixpoint drop (n : nat) (s : string) : string :=
  match n, s with
  | O, _ => s
  | S n', String _ s' => drop n' s'
  | S _, EmptyString => EmptyString
  end.

Definition TrimPrefix (s prefix : string) : string :=
  if HasPrefix s prefix then drop (String.length prefix) s else s.

Fixpoint ContainsByte (s : string) (c : ascii) : bool :=
  match s with
  | EmptyString => false
  | String a s' => Ascii.eqb a c || ContainsByte s' c
  end.

(** [strings.Split(s, sep)] for a separator of one byte. *)
Fixpoint SplitByte (s : string) (sep : ascii) : list string :=
  match s with
  | EmptyString => [EmptyString]
  | String c s' =>
      if Ascii.eqb c sep then EmptyString :: SplitByte s' sep
      else match SplitByte s' sep with
           | [] => [String c EmptyString]
           | x :: xs => String c x :: xs
           end
  end.

(** [strings.Join(elems, sep)]. *)
Fixpoint Join (elems : list string) (sep : string) : string :=
  match elems with
  | [] => EmptyString
  | [x] => x
  | x :: xs => x ++ sep ++ Join xs sep
  end.

(** Every byte is below 128 ([utf8.RuneSelf]): the text on which
    [ToLower] and [EqualFold] above are the functions of Go. *)
Fixpoint isASCII (s : string) : bool :=
  match s with
  | EmptyString => true
  | String c s' => (N_of_ascii c <? 128)%N && isASCII s'
  end.

End strings.

(** ** package path/filepath (Unix: the separator is the slash, no volume names) *)

Module filepath.

Definition Separator : ascii := "/"%char.

Definition isEmpty (s : string) : bool :=
  match s with EmptyString => true | String _ _ => false end.

(** [Ext]: the suffix that starts at the last dot of the last element. *)
Fixpoint Ext (path : string) : string :=
  match path with
  | EmptyString => EmptyString
  | String c rest =>
      match Ext rest with
      | EmptyString =>
          if Ascii.eqb c "."%char && negb (strings.ContainsByte rest Separator)
          then path else EmptyString
      | String _ _ as e => e
      end
  end.

(** The elements of a cleaned path, in reverse: [out] is the stack of
    elements written so far.  [".."] removes the element before it when
    there is one to remove, is dropped at the root, and is kept
    otherwise. *)
Fixpoint cleanElems (rooted : bool) (elems out : list string) : list string :=
  match elems with
  | [] => out
  | e :: rest =>
      if isEmpty e || String.eqb e "." then cleanElems rooted rest out
      else if String.eqb e ".." then
        match out with
        | top :: out' =>
            if String.eqb top ".." then cleanElems rooted rest (e :: out)
            else cleanElems rooted rest out'
        | [] =>
            if rooted then cleanElems rooted rest out
            else cleanElems rooted rest [e]
        end
      else cleanElems rooted rest (e :: out)
  end.

Definition Clean (path : string) : string :=
  match path with
  | EmptyString => "."
  | String c _ =>
      let rooted := Ascii.eqb c Separator in
      let out := rev (cleanElems rooted (strings.SplitByte path Separator) []) in
      let body := strings.Join out "/" in
      if rooted then String Separator body
      else if isEmpty body then "." else body
  end.

(** [Join] of two elements. *)
Definition Join (a b : string) : string :=
  if negb (isEmpty a) then Clean (a ++ "/" ++ b)
  else if negb (isEmpty b) then Clean b
  else EmptyString.

(** The path without its trailing separators. *)
Fixpoint stripTrailing (path : string) : string :=
  match path with
  | EmptyString => EmptyString
  | String c rest =>
      match stripTrailing rest with
      | EmptyString => if Ascii.eqb c Separator then EmptyString else String c EmptyString
      | String _ _ as r => String c r
      end
  end.

(** What follows the last separator (the whole path when there is none). *)
Fixpoint lastElem (path : string) : string :=
  match path with
  | EmptyString => EmptyString
  | String c rest =>
      if strings.ContainsByte rest Separator then lastElem rest
      else if Ascii.eqb c Separator then rest
      else path
  end.

Definition Base (path : string) : string :=
  if isEmpty path then "."
  else
    let p := lastElem (stripTrailing path) in
    if isEmpty p then String Separator EmptyString else p.

(** Up to and with the last separator. *)
Fixpoint dirPart (path : string) : string :=
  match path with
  | EmptyString => EmptyString
  | String c rest =>
      if strings.ContainsByte path Separator then String c (dirPart rest)
      else EmptyString
  end.

Definition Dir (path : string) : string := Clean (dirPart path).

(** *** [Match]: shell patterns *)

Definition ErrBadPattern : error := "syntax error in pattern".

Fixpoint skipStars (pattern : string) : bool * string :=
  match pattern with
  | String "*"%char rest => (true, snd (skipStars rest))
  | _ => (false, pattern)
  end.

(** The chunk up to the next star outside a character class. *)
Fixpoint splitChunk (inrange : bool) (pattern : string) : string * string :=
  match pattern with
  | EmptyString => (EmptyString, EmptyString)
  | String c rest =>
      if Ascii.eqb c "\"%char then
        match rest with
        | EmptyString => (pattern, EmptyString)
        | String d rest' =>
            let (chunk, r) := splitChunk inrange rest' in
            (String c (String d chunk), r)
        end
      else if Ascii.eqb c "["%char then
        let (chunk, r) := splitChunk true rest in (String c chunk, r)
      else if Ascii.eqb c "]"%char then
        let (chunk, r) := splitChunk false rest in (String c chunk, r)
      else if Ascii.eqb c "*"%char && negb inrange then
        (EmptyString, pattern)
      else
        let (chunk, r) := splitChunk inrange rest in (String c chunk, r)
  end.

Definition scanChunk (pattern : string) : bool * string * string :=
  let (star, p) := skipStars pattern in
  let (chunk, rest) := splitChunk false p in
  (star, chunk, rest).

(** A possibly escaped character of a character class. *)
Definition getEsc (chunk : string) : error + (ascii * string) :=
  match chunk with
  | EmptyString => inl ErrBadPattern
  | String c rest =>
      if Ascii.eqb c "-"%char || Ascii.eqb c "]"%char then inl ErrBadPattern
      else
        let chunk1 := if Ascii.eqb c "\"%char then rest else chunk in
        match chunk1 with
        | EmptyString => inl ErrBadPattern
        | String r nchunk =>
            if isEmpty nchunk then inl ErrBadPattern else inr (r, nchunk)
        end
  end.

Definition inRange (lo r hi : ascii) : bool :=
  (N_of_ascii lo <=? N_of_ascii r)%N && (N_of_ascii r <=? N_of_ascii hi)%N.

(** The ranges of a character class, up to its closing bracket. *)
Fixpoint parseRanges (fuel : nat) (r : ascii) (chunk : string)
    (matched : bool) (nrange : nat) : error + (bool * string) :=
  match fuel with
  | O => inl ErrBadPattern
  | S fuel' =>
      let more :=
        match getEsc chunk with
        | inl e => inl e
        | inr (lo, chunk1) =>
            match chunk1 with
            | String "-"%char chunk2 =>
                match getEsc chunk2 with
                | inl e => inl e
                | inr (hi, chunk3) =>
                    parseRanges fuel' r chunk3 (matched || inRange lo r hi) (S nrange)
                end
            | _ => parseRanges fuel' r chunk1 (matched || inRange lo r lo) (S nrange)
            end
        end in
      match chunk with
      | String "]"%char rest =>
          match nrange with
          | O => more
          | S _ => inr (matched, rest)
          end
      | _ => more
      end
  end.

(** [matchChunk]: does [chunk] match a prefix of [s]?  After the match
    has failed the chunk is still read to its end, to find a malformed
    pattern. *)
Fixpoint matchChunkLoop (fuel : nat) (failed : bool) (chunk s : string)
    : string * bool * option error :=
  match fuel with
  | O => (EmptyString, false, Some ErrBadPattern)
  | S fuel' =>
      match chunk with
      | EmptyString =>
          if failed then (EmptyString, false, None) else (s, true, None)
      | String c chunk' =>
          let failed := failed || isEmpty s in
          if Ascii.eqb c "["%char then
            let '(r, s1) :=
              match failed, s with
              | false, String r s1 => (r, s1)
              | _, _ => (zero, s)
              end in
            let '(negated, chunk1) :=
              match chunk' with
              | String "^"%char rest => (true, rest)
              | _ => (false, chunk')
              end in
            match parseRanges fuel' r chunk1 false 0 with
            | inl e => (EmptyString, false, Some e)
            | inr (matched, chunk2) =>
                matchChunkLoop fuel' (failed || Bool.eqb matched negated) chunk2 s1
            end
          else if Ascii.eqb c "?"%char then
            match failed, s with
            | false, String c0 s1 =>
                matchChunkLoop fuel' (Ascii.eqb c0 Separator) chunk' s1
            | _, _ => matchChunkLoop fuel' failed chunk' s
            end
          else
            let literal (lit : ascii) (chunk1 : string) :=
              match failed, s with
              | false, String c0 s1 =>
                  matchChunkLoop fuel' (negb (Ascii.eqb lit c0)) chunk1 s1
              | _, _ => matchChunkLoop fuel' failed chunk1 s
              end in
            if Ascii.eqb c "\"%char then
              match chunk' with
              | EmptyString => (EmptyString, false, Some ErrBadPattern)
              | String lit chunk1 => literal lit chunk1
              end
            else literal c chunk'
      end
  end.

Definition matchChunk (chunk s : string) : string * bool * option error :=
  matchChunkLoop (S (String.length chunk)) false chunk s.

(** The inner loop of [Match] after a star: the chunk is tried after
    skipping one more byte of the name, never a separator.  [next] goes
    on with the rest of the pattern, [last] says there is none. *)
Fixpoint skipLoop (next : string -> bool * option error) (chunk : string)
    (last : bool) (name : string) : bool * option error :=
  match name with
  | EmptyString => (false, None)
  | String c name' =>
      if Ascii.eqb c Separator then (false, None)
      else
        let '(t, ok, err) := matchChunk chunk name' in
        if ok then
          if last && negb (isEmpty t) then skipLoop next chunk last name'
          else next t
        else
          match err with
          | Some e => (false, Some e)
          | None => skipLoop next chunk last name'
          end
  end.

(** The loop of [Match] over the chunks of the pattern. *)
Fixpoint MatchLoop (fuel : nat) (pattern name : string) : bool * option error :=
  match fuel with
  | O => (false, Some ErrBadPattern)
  | S fuel' =>
      if isEmpty pattern then (isEmpty name, None)
      else
        let '(star, chunk, rest) := scanChunk pattern in
        if star && isEmpty chunk then
          (negb (strings.ContainsByte name Separator), None)
        else
          let '(t, ok, err) := matchChunk chunk name in
          if ok && (isEmpty t || negb (isEmpty rest)) then MatchLoop fuel' rest t
          else
            match err with
            | Some e => (false, Some e)
            | None =>
                if star
                then skipLoop (MatchLoop fuel' rest) chunk (isEmpty rest) name
                else (false, None)
            end
  end.

Definition Match (pattern name : string) : bool * option error :=
  MatchLoop (S (String.length pattern)) pattern name.

End filepath.

(** ** package models *)

Module FileInfo.
Record t : Type := mk {
  Path : string;
  Name : string;
  Size : Z;
  FileType : string;
  MimeType : string;
  Extension : string;
  ModTime : Z;
  IsDirectory : bool;
  IsBlocked : bool;
  BlockReason : string;
  AccessError : string
}.

(** The zero value of the struct with [Path], [Name] and [IsDirectory] given. *)
Definition init (path name : string) (isDirectory : bool) : t :=
  mk path name 0 "" "" "" 0 isDirectory false "" "".

Definition set_stat (f : t) (size modTime : Z) (isDirectory : bool) (ext : string) : t :=
  mk (Path f) (Name f) size (FileType f) (MimeType f) ext modTime isDirectory
     (IsBlocked f) (BlockReason f) (AccessError f).

Definition set_type (f : t) (mime fileType : string) : t :=
  mk (Path f) (Name f) (Size f) fileType mime (Extension f) (ModTime f)
     (IsDirectory f) (IsBlocked f) (BlockReason f) (AccessError f).

Definition set_AccessError (f : t) (e : string) : t :=
  mk (Path f) (Name f) (Size f) (FileType f) (MimeType f) (Extension f) (ModTime f)
     (IsDirectory f) (IsBlocked f) (BlockReason f) e.

Definition set_blocked (f : t) (reason : string) : t :=
  mk (Path f) (Name f) (Size f) (FileType f) (MimeType f) (Extension f) (ModTime f)
     (IsDirectory f) true reason (AccessError f).
End FileInfo.

Module ScanConfig.
Record t : Type := mk {
  MaxFileSizeMB : Z;
  AllowedTypes : list string;
  BlockedPatterns : list string;
  ScanRecursively : bool;
  ExportBlockedToJSON : bool;
  WorkerCount : Z;
  BufferSize : Z
}.

Definition set_BlockedPatterns (c : t) (ps : list string) : t :=
  mk (MaxFileSizeMB c) (AllowedTypes c) ps (ScanRecursively c)
     (ExportBlockedToJSON c) (WorkerCount c) (BufferSize c).
End ScanConfig.

Module ScanProgress.
Record t : Type := mk {
  TotalFiles : Z;
  ScannedFiles : Z;
  TotalSize : Z;
  ScannedSize : Z;
  BlockedFiles : Z;
  Errors : list string;
  StartTime : Z;
  LastUpdated : Z;
  CurrentDirectory : string
}.

Definition set_Errors (p : t) (errs : list string) : t :=
  mk (TotalFiles p) (ScannedFiles p) (TotalSize p) (ScannedSize p) (BlockedFiles p)
     errs (StartTime p) (LastUpdated p) (CurrentDirectory p).
End ScanProgress.

Module ScanResult.
Record t : Type := mk {
  Files : list FileInfo.t;
  Progress : ScanProgress.t;
  Duration : Z;
  Success : bool;
  Error : string
}.
End ScanResult.

Module ScanWork.
Record t : Type := mk {
  Path : string;
  IsDir : bool;
  Priority : Z
}.
End ScanWork.

Module ScanWorkResult.
Record t : Type := mk {
  FileInfo : FileInfo.t;
  Error : option error    (* [None] is [nil] *)
}.
End ScanWorkResult.

(** ** package jsonexport: the exported data *)

Module ExportData.
Record t : Type := mk {
  Timestamp : Z;
  TotalFiles : Z;
  BlockedFiles : list FileInfo.t;
  ScanDuration : Z;
  BlockedCount : Z;
  TotalSize : Z;
  BlockedSize : Z
}.
End ExportData.

(** ** package os: what the scanner sees of the file system *)

Module os.

(** [os.FileInfo] *)
Record FileInfo : Type := mkFileInfo {
  Name : string;
  Size : Z;
  ModTime : Z;
  IsDir : bool
}.

(** [os.DirEntry]: the entry's name and the outcome of [entry.Info()]. *)
Record DirEntry : Type := mkDirEntry {
  EntryName : string;
  Info : error + FileInfo
}.

(** An open file: the bytes [Read] puts into a buffer of 512 bytes,
    and its error. *)
Record File : Type := mkFile {
  Read : string * option error
}.

(** The system calls, each fallible. *)
Record FS : Type := mkFS {
  Stat : string -> error + FileInfo;
  ReadDir : string -> error + list DirEntry;
  Open : string -> error + File;
  MkdirAll : string -> option error;
  Create : string -> option error;
  Encode : string -> ExportData.t -> option error   (* [Encode] into the created file *)
}.

End os.

(** ** package scanner *)

(** The goroutines of a scan are run one after the other: a traversal
    that is spawned runs to its end where it is spawned, the workers take
    the work items in the order they were queued, and the collector
    receives the results in an order given from outside.  What a scan
    that returns has sent, counted and logged does not depend on how
    its goroutines were interleaved; only the order of the results does.

    The channels are kept as the sequence of everything sent on them;
    [workTaken] counts the work items the workers have received.  The
    mutex and the unused [doneChan] have no counterpart. *)
Record Scanner : Type := mkScanner {
  config : ScanConfig.t;
  progress : ScanProgress.t;
  workChan : list ScanWork.t;
  workTaken : nat;
  resultChan : list ScanWorkResult.t;
  errorChan : list error;
  dirWg : Z
}.

Definition set_progress (s : Scanner) (p : ScanProgress.t) : Scanner :=
  mkScanner (config s) p (workChan s) (workTaken s) (resultChan s) (errorChan s) (dirWg s).

Definition set_config (s : Scanner) (c : ScanConfig.t) : Scanner :=
  mkScanner c (progress s) (workChan s) (workTaken s) (resultChan s) (errorChan s) (dirWg s).

(** What running a piece of the scanner leads to: it returns, or one of
    its goroutines waits for ever so that [Scan] never returns, or the
    model's fuel is used up. *)
Inductive outcome (A : Type) : Type :=
| Done (a : A) (s : Scanner)
| Blocked
| OutOfFuel.
Arguments Done {A} a s.
Arguments Blocked {A}.
Arguments OutOfFuel {A}.

Definition M (A : Type) : Type := Scanner -> outcome A.

Definition ret {A : Type} (a : A) : M A := fun s => Done a s.

Definition bind {A B : Type} (m : M A) (k : A -> M B) : M B :=
  fun s =>
    match m s with
    | Done a s' => k a s'
    | Blocked => Blocked
    | OutOfFuel => OutOfFuel
    end.

Notation "m ;; k" := (bind m (fun _ => k)) (at level 61, right associativity).

(** [s.resultChan <- r]: the collector always receives, the send returns. *)
Definition sendResult (r : ScanWorkResult.t) : M unit :=
  fun s => Done tt (mkScanner (config s) (progress s) (workChan s) (workTaken s)
                              (resultChan s ++ [r]) (errorChan s) (dirWg s)).

(** [s.workChan <- w] *)
Definition sendWork (w : ScanWork.t) : M unit :=
  fun s => Done tt (mkScanner (config s) (progress s) (workChan s ++ [w]) (workTaken s)
                              (resultChan s) (errorChan s) (dirWg s)).

(** [s.errorChan <- e]: nothing ever receives from this channel, so the
    send returns only while its buffer has room. *)
Definition sendError (e : error) : M unit :=
  fun s =>
    if Z.of_nat (List.length (errorChan s)) <? ScanConfig.BufferSize (config s)
    then Done tt (mkScanner (config s) (progress s) (workChan s) (workTaken s)
                            (resultChan s) (errorChan s ++ [e]) (dirWg s))
    else Blocked.

(** [s.dirWg.Add(n)]; [Done()] is [Add(-1)]. *)
Definition dirWgAdd (n : Z) : M unit :=
  fun s => Done tt (mkScanner (config s) (progress s) (workChan s) (workTaken s)
                              (resultChan s) (errorChan s) (dirWg s + n)).

(** [atomic.AddInt64] on the counters of the progress. *)
Definition addTotalFiles (n : Z) : M unit :=
  fun s =>
    let p := progress s in
    Done tt (set_progress s
      (ScanProgress.mk (Int64.add (ScanProgress.TotalFiles p) n)
         (ScanProgress.ScannedFiles p) (ScanProgress.TotalSize p)
         (ScanProgress.ScannedSize p) (ScanProgress.BlockedFiles p)
         (ScanProgress.Errors p) (ScanProgress.StartTime p)
         (ScanProgress.LastUpdated p) (ScanProgress.CurrentDirectory p))).

Definition addScannedFiles (n : Z) : M unit :=
  fun s =>
    let p := progress s in
    Done tt (set_progress s
      (ScanProgress.mk (ScanProgress.TotalFiles p)
         (Int64.add (ScanProgress.ScannedFiles p) n) (ScanProgress.TotalSize p)
         (ScanProgress.ScannedSize p) (ScanProgress.BlockedFiles p)
         (ScanProgress.Errors p) (ScanProgress.StartTime p)
         (ScanProgress.LastUpdated p) (ScanProgress.CurrentDirectory p))).

Definition addScannedSize (n : Z) : M unit :=
  fun s =>
    let p := progress s in
    Done tt (set_progress s
      (ScanProgress.mk (ScanProgress.TotalFiles p)
         (ScanProgress.ScannedFiles p) (ScanProgress.TotalSize p)
         (Int64.add (ScanProgress.ScannedSize p) n) (ScanProgress.BlockedFiles p)
         (ScanProgress.Errors p) (ScanProgress.StartTime p)
         (ScanProgress.LastUpdated p) (ScanProgress.CurrentDirectory p))).

Definition addBlockedFiles (n : Z) : M unit :=
  fun s =>
    let p := progress s in
    Done tt (set_progress s
      (ScanProgress.mk (ScanProgress.TotalFiles p)
         (ScanProgress.ScannedFiles p) (ScanProgress.TotalSize p)
         (ScanProgress.ScannedSize p) (Int64.add (ScanProgress.BlockedFiles p) n)
         (ScanProgress.Errors p) (ScanProgress.StartTime p)
         (ScanProgress.LastUpdated p) (ScanProgress.CurrentDirectory p))).

Notation "x <- m ;; k" := (bind m (fun x => k))
  (at level 61, m at next level, right associativity).

Definition getConfig : M ScanConfig.t := fun s => Done (config s) s.
Definition getProgress : M ScanProgress.t := fun s => Done (progress s) s.

Section Scanner.

(** [filepath.Match] and [http.DetectContentType] of the Go library. *)
Variable Match : string -> string -> bool * option error.
Variable DetectContentType : string -> string.

(** The file system, the clock ([time.Now()], one reading for the whole
    scan) and the order in which the results of the concurrent
    producers reach the collector. *)
Variable fs : os.FS.
Variable now : Z.
Variable order : list ScanWorkResult.t -> list ScanWorkResult.t.

Definition New (config : ScanConfig.t) : Scanner :=
  let config :=
    if ScanConfig.WorkerCount config <=? 0 then
      ScanConfig.mk (ScanConfig.MaxFileSizeMB config) (ScanConfig.AllowedTypes config)
        (ScanConfig.BlockedPatterns config) (ScanConfig.ScanRecursively config)
        (ScanConfig.ExportBlockedToJSON config) 4 (ScanConfig.BufferSize config)
    else config in
  let config :=
    if ScanConfig.BufferSize config <=? 0 then
      ScanConfig.mk (ScanConfig.MaxFileSizeMB config) (ScanConfig.AllowedTypes config)
        (ScanConfig.BlockedPatterns config) (ScanConfig.ScanRecursively config)
        (ScanConfig.ExportBlockedToJSON config) (ScanConfig.WorkerCount config) 1000
    else config in
  mkScanner config (ScanProgress.mk 0 0 0 0 0 [] now 0 "") [] 0 [] [] 0.

(** *** The blocking rules *)

Definition isFileSizeAllowed (s : Scanner) (size : Z) : bool :=
  size <=? Int64.mul (Int64.mul (Int64.wrap (ScanConfig.MaxFileSizeMB (config s))) 1024) 1024.

(** The loop over [AllowedTypes] that sets [isAllowed]. *)
Fixpoint isAllowed (extension : string) (allowedTypes : list string) : bool :=
  match allowedTypes with
  | [] => false
  | allowedType :: rest =>
      if strings.EqualFold extension allowedType then true
      else isAllowed extension rest
  end.

(** The loop over [BlockedPatterns] of [shouldBlockFile]. *)
Fixpoint matchesBlockedPattern (patterns : list string) (name : string) : bool :=
  match patterns with
  | [] => false
  | pattern :: rest =>
      let (matched, err) := Match pattern name in
      match err with
      | None => if matched then true else matchesBlockedPattern rest name
      | Some _ => matchesBlockedPattern rest name
      end
  end.

Definition shouldBlockFile (s : Scanner) (file : FileInfo.t) : bool :=
  if negb (isFileSizeAllowed s (FileInfo.Size file)) then true
  else if (0 <? Z.of_nat (List.length (ScanConfig.AllowedTypes (config s))))
          && negb (isAllowed (FileInfo.Extension file) (ScanConfig.AllowedTypes (config s)))
  then true
  else matchesBlockedPattern (ScanConfig.BlockedPatterns (config s)) (FileInfo.Name file).

(** The loop over [BlockedPatterns] of [getBlockReason]: the error of
    [Match] is dropped. *)
Fixpoint firstMatchedPattern (patterns : list string) (name : string) : option string :=
  match patterns with
  | [] => None
  | pattern :: rest =>
      let (matched, _) := Match pattern name in
      if matched then Some pattern else firstMatchedPattern rest name
  end.

Definition getBlockReason (s : Scanner) (file : FileInfo.t) : string :=
  if negb (isFileSizeAllowed s (FileInfo.Size file)) then "File size exceeds limit"
  else if (0 <? Z.of_nat (List.length (ScanConfig.AllowedTypes (config s))))
          && negb (isAllowed (FileInfo.Extension file) (ScanConfig.AllowedTypes (config s)))
  then "File type not allowed"
  else
    match firstMatchedPattern (ScanConfig.BlockedPatterns (config s)) (FileInfo.Name file) with
    | Some pattern => Sprintf2 "File matches blocked pattern: " pattern
    | None => "Unknown reason"
    end.

(** *** The workers *)

(** [detectFileType] changes the record it is given only when it
    returns no error. *)
Definition detectFileType (file : FileInfo.t) : FileInfo.t * option error :=
  match os.Open fs (FileInfo.Path file) with
  | inl err => (file, Some err)
  | inr f =>
      let (buffer, err) := os.Read f in
      match err, String.length buffer with
      | Some e, O => (file, Some e)
      | _, _ =>
          let mime := DetectContentType buffer in
          let fileType :=
            if negb (filepath.isEmpty (FileInfo.Extension file))
            then strings.TrimPrefix (FileInfo.Extension file) "."
            else hd "" (strings.SplitByte mime "/"%char) in
          (FileInfo.set_type file mime fileType, None)
      end
  end.

(** The part of [processWork] for a work item that is not a directory. *)
Definition processFile (work : ScanWork.t) : M unit :=
  let fileInfo :=
    FileInfo.init (ScanWork.Path work) (filepath.Base (ScanWork.Path work)) false in
  match os.Stat fs (ScanWork.Path work) with
  | inl err => sendResult (ScanWorkResult.mk fileInfo (Some err))
  | inr info =>
      let fileInfo :=
        FileInfo.set_stat fileInfo (os.Size info) (os.ModTime info) (os.IsDir info)
          (strings.ToLower (filepath.Ext (os.Name info))) in
      let (fileInfo, err) := detectFileType fileInfo in
      let fileInfo :=
        match err with
        | Some e => FileInfo.set_AccessError fileInfo e
        | None => fileInfo
        end in
      fun s =>
        let fileInfo :=
          if shouldBlockFile s fileInfo
          then FileInfo.set_blocked fileInfo (getBlockReason s fileInfo)
          else fileInfo in
        (addScannedFiles 1 ;;
         addScannedSize (FileInfo.Size fileInfo) ;;
         (if FileInfo.IsBlocked fileInfo then addBlockedFiles 1 else ret tt) ;;
         sendResult (ScanWorkResult.mk fileInfo None)) s
  end.

Definition processWork (scanDirectory : string -> string -> M unit)
    (work : ScanWork.t) : M unit :=
  if ScanWork.IsDir work
  then scanDirectory (ScanWork.Path work) (ScanWork.Path work)
  else processFile work.

(** *** The traversal *)

Definition dirRecord (path name : string) : ScanWorkResult.t :=
  ScanWorkResult.mk (FileInfo.init path name true) None.

(** The loop of [scanDirectory] over the entries.  The context is
    cancelled only when [Scan] returns, so its [Done] case is never
    taken.  [spawn] is [go s.scanDirectory(ctx, fullPath, root)]; the
    new goroutine is run to its end at once. *)
Fixpoint scanEntries (spawn : string -> M unit) (path root : string)
    (entries : list os.DirEntry) : M unit :=
  match entries with
  | [] => ret tt
  | entry :: rest =>
      let fullPath := filepath.Join path (os.EntryName entry) in
      match os.Info entry with
      | inl err =>
          sendError (Sprintf4 "error getting info for " fullPath ": " err) ;;
          scanEntries spawn path root rest
      | inr info =>
          cfg <- getConfig ;;
          (if os.IsDir info then
             if ScanConfig.ScanRecursively cfg then
               dirWgAdd 1 ;;
               sendResult (dirRecord fullPath (os.Name info)) ;;
               addTotalFiles 1 ;;
               spawn fullPath
             else if String.eqb path root then
               sendResult (dirRecord fullPath (os.Name info)) ;;
               addTotalFiles 1
             else ret tt
           else if ScanConfig.ExportBlockedToJSON cfg
                   && String.eqb (filepath.Base fullPath) "blocked_files.json"
           then ret tt
           else sendWork (ScanWork.mk fullPath false 1)) ;;
          scanEntries spawn path root rest
      end
  end.

Fixpoint scanDirectory (fuel : nat) (path root : string) : M unit :=
  match fuel with
  | O => fun _ => OutOfFuel
  | S fuel' =>
      (if String.eqb path root then
         sendResult (dirRecord path (filepath.Base path)) ;;
         addTotalFiles 1
       else ret tt) ;;
      match os.ReadDir fs path with
      | inl err => sendError (Sprintf4 "error reading directory " path ": " err)
      | inr entries =>
          scanEntries (fun fullPath => scanDirectory fuel' fullPath root) path root entries
      end ;;
      dirWgAdd (-1)
  end.

(** [worker]: receive from [workChan] until it is closed and empty.
    The channel is closed once [dirWg] is back at zero; a worker that
    finds the channel empty while [dirWg] is not zero, with every
    traversal over, waits for ever. *)
Fixpoint worker (fuel : nat) : M unit :=
  match fuel with
  | O => fun _ => OutOfFuel
  | S fuel' =>
      fun s =>
        match nth_error (workChan s) (workTaken s) with
        | None => if dirWg s =? 0 then Done tt s else Blocked
        | Some work =>
            (processWork (scanDirectory fuel') work ;; worker fuel')
              (mkScanner (config s) (progress s) (workChan s) (S (workTaken s))
                         (resultChan s) (errorChan s) (dirWg s))
        end
  end.

Definition startScan (root : string) : M (option error) :=
  match os.Stat fs root with
  | inl err => ret (Some err)
  | inr info => sendWork (ScanWork.mk root (os.IsDir info) 1) ;; ret None
  end.

(** *** The collector *)

Fixpoint collectLoop (arrivals : list ScanWorkResult.t) (files : list FileInfo.t)
    (p : ScanProgress.t) : list FileInfo.t * ScanProgress.t :=
  match arrivals with
  | [] => (files, p)
  | res :: rest =>
      match ScanWorkResult.Error res with
      | Some e =>
          collectLoop rest files
            (ScanProgress.set_Errors p (ScanProgress.Errors p ++ [e]))
      | None =>
          collectLoop rest (files ++ [ScanWorkResult.FileInfo res])
            (ScanProgress.mk (ScanProgress.TotalFiles p) (ScanProgress.ScannedFiles p)
               (ScanProgress.TotalSize p) (ScanProgress.ScannedSize p)
               (ScanProgress.BlockedFiles p) (ScanProgress.Errors p)
               (ScanProgress.StartTime p) now
               (filepath.Dir (FileInfo.Path (ScanWorkResult.FileInfo res))))
      end
  end.

(** [collectResults] receives what was sent on [resultChan], in the
    order of arrival; it gives the list that becomes [result.Files]. *)
Definition collectResults : M (list FileInfo.t) :=
  fun s =>
    let (files, p) := collectLoop (order (resultChan s)) [] (progress s) in
    Done files (set_progress s p).

(** *** package jsonexport *)

Fixpoint blockedSizeOf (files : list FileInfo.t) (acc : Z) : Z :=
  match files with
  | [] => acc
  | file :: rest =>
      if FileInfo.IsBlocked file
      then blockedSizeOf rest (Int64.add acc (FileInfo.Size file))
      else blockedSizeOf rest acc
  end.

Definition exportDataOf (result : ScanResult.t) : ExportData.t :=
  let blockedFiles := filter FileInfo.IsBlocked (ScanResult.Files result) in
  ExportData.mk now
    (ScanProgress.TotalFiles (ScanResult.Progress result))
    blockedFiles
    (ScanResult.Duration result)
    (Z.of_nat (List.length blockedFiles))
    (ScanProgress.TotalSize (ScanResult.Progress result))
    (blockedSizeOf (ScanResult.Files result) 0).

Definition ExportBlockedFiles (result : ScanResult.t) (outputPath : string)
    : option error :=
  let exportData := exportDataOf result in
  match os.MkdirAll fs (filepath.Dir outputPath) with
  | Some err => Some (Sprintf2 "failed to create output directory: " err)
  | None =>
      match os.Create fs outputPath with
      | Some err => Some (Sprintf2 "failed to create output file: " err)
      | None =>
          match os.Encode fs outputPath exportData with
          | Some err => Some (Sprintf2 "failed to encode JSON: " err)
          | None => None
          end
      end
  end.

(** *** [Scan] *)

(** The end of [Scan], once the collector is done: the result is put
    together from the progress, then the blocked files are exported. *)
Definition finish (cfg : ScanConfig.t) (root : string) (files : list FileInfo.t)
    (p : ScanProgress.t) : ScanResult.t :=
  let result :=
    ScanResult.mk files p (now - ScanProgress.StartTime p)
      (Nat.eqb (List.length (ScanProgress.Errors p)) 0) "" in
  if ScanConfig.ExportBlockedToJSON cfg then
    let exportPath := filepath.Join root "blocked_files.json" in
    match ExportBlockedFiles result exportPath with
    | Some err =>
        ScanResult.mk (ScanResult.Files result)
          (ScanProgress.set_Errors (ScanResult.Progress result)
             (ScanProgress.Errors (ScanResult.Progress result)
                ++ [Sprintf2 "Failed to export blocked files: " err]))
          (ScanResult.Duration result) (ScanResult.Success result)
          (ScanResult.Error result)
    | None => result
    end
  else result.

(** The scan up to the point where every worker has returned. *)
Definition runScan (fuel : nat) (root : string) : M (option error) :=
  dirWgAdd 1 ;;
  r <- startScan root ;;
  match r with
  | Some err => ret (Some (Sprintf2 "scan error: " err))
  | None => worker fuel ;; ret None
  end.

(** [Scan] returns an error ([inl]) or the result ([inr]). *)
Definition Scan (fuel : nat) (root : string) : M (error + ScanResult.t) :=
  if filepath.isEmpty root then ret (inl "empty path provided")
  else
    match os.Stat fs root with
    | inl err => ret (inl err)
    | inr _ =>
        r <- runScan fuel root ;;
        match r with
        | Some err => ret (inl err)
        | None =>
            files <- collectResults ;;
            cfg <- getConfig ;;
            p <- getProgress ;;
            ret (inr (finish cfg root files p))
        end
    end.

End Scanner.

(** ** The rules as the specification words them *)

Inductive Rule : Type :=
| SizeRule
| AllowListRule
| PatternRule (pattern : string).

(** The size limit in bytes, as [isFileSizeAllowed] computes it. *)
Definition sizeLimit (s : Scanner) : Z :=
  Int64.mul (Int64.mul (Int64.wrap (ScanConfig.MaxFileSizeMB (config s))) 1024) 1024.

Section Rules.

Variable Match : string -> string -> bool * option error.

(** The pattern matches the name: [Match] reports a match and no error. *)
Definition patternMatches (name pattern : string) : bool :=
  match Match pattern name with
  | (matched, None) => matched
  | (_, Some _) => false
  end.

(** The first rule, in the order size, allow-list, pattern, that the
    file violates. *)
Definition firstViolatedRule (s : Scanner) (file : FileInfo.t) : option Rule :=
  if FileInfo.Size file >? sizeLimit s then Some SizeRule
  else
    match ScanConfig.AllowedTypes (config s) with
    | (_ :: _) as allowed =>
        if existsb (strings.EqualFold (FileInfo.Extension file)) allowed
        then option_map PatternRule
               (find (patternMatches (FileInfo.Name file))
                     (ScanConfig.BlockedPatterns (config s)))
        else Some AllowListRule
    | [] =>
        option_map PatternRule
          (find (patternMatches (FileInfo.Name file))
                (ScanConfig.BlockedPatterns (config s)))
    end.

Definition reasonOfRule (r : Rule) : string :=
  match r with
  | SizeRule => "File size exceeds limit"
  | AllowListRule => "File type not allowed"
  | PatternRule pattern => "File matches blocked pattern: " ++ pattern
  end.

(** What the scanner relies on in [getBlockReason]: [Match] reports no
    match when it reports an error. *)
Definition error_means_no_match : Prop :=
  forall pattern name, snd (Match pattern name) <> None -> fst (Match pattern name) = false.

End Rules.

(** ** File systems and library functions to run the scanner on *)

Module Sample.

(** A reduced table for [http.DetectContentType]. *)
Definition sniff (data : string) : string :=
  if strings.HasPrefix data "%PDF-" then "application/pdf"
  else if strings.ContainsByte data zero then "application/octet-stream"
  else "text/plain; charset=utf-8".

Fixpoint lookup {A : Type} (table : list (string * A)) (path : string) : option A :=
  match table with
  | [] => None
  | (p, a) :: rest => if String.eqb p path then Some a else lookup rest path
  end.

Definition noEntry {A : Type} (op path : string) : error + A :=
  inl (op ++ " " ++ path ++ ": no such file or directory").

Definition denied {A : Type} (op path : string) : error + A :=
  inl (op ++ " " ++ path ++ ": permission denied").

Definition regular (name : string) (size : Z) : os.FileInfo :=
  os.mkFileInfo name size 1700000000 false.

Definition directory (name : string) : os.FileInfo :=
  os.mkFileInfo name 4096 1700000000 true.

Definition entryOf (info : os.FileInfo) : os.DirEntry :=
  os.mkDirEntry (os.Name info) (inr info).

Definition content (data : string) : error + os.File :=
  inr (os.mkFile (data, None)).

(** A file system given by the tables of what [Stat], [ReadDir] and
    [Open] return; [export] is what creating the export file returns. *)
Definition tableFS (stats : list (string * os.FileInfo))
    (dirs : list (string * (error + list os.DirEntry)))
    (files : list (string * (error + os.File)))
    (export : option error) : os.FS :=
  os.mkFS
    (fun path => match lookup stats path with
                 | Some info => inr info
                 | None => noEntry "stat" path
                 end)
    (fun path => match lookup dirs path with
                 | Some r => r
                 | None => noEntry "open" path
                 end)
    (fun path => match lookup files path with
                 | Some r => r
                 | None => noEntry "open" path
                 end)
    (fun _ => None)
    (fun _ => export)
    (fun _ _ => None).

Definition readOnly : option error :=
  Some "open /data/blocked_files.json: read-only file system".

(** The tree of the scanner's own test: [small.txt], [large.txt] of
    5 MiB and [subdir/test.txt]. *)
Definition testTree : os.FS :=
  tableFS
    [("/data", directory "data");
     ("/data/small.txt", regular "small.txt" 100);
     ("/data/large.txt", regular "large.txt" 5242880);
     ("/data/subdir", directory "subdir");
     ("/data/subdir/test.txt", regular "test.txt" 200)]
    [("/data", inr [entryOf (regular "large.txt" 5242880);
                    entryOf (regular "small.txt" 100);
                    entryOf (directory "subdir")]);
     ("/data/subdir", inr [entryOf (regular "test.txt" 200)])]
    [("/data/small.txt", content "hello");
     ("/data/large.txt", content "hello");
     ("/data/subdir/test.txt", content "hello")]
    None.

(** [/data] with a directory that cannot be read. *)
Definition lockedDirTree : os.FS :=
  tableFS
    [("/data", directory "data");
     ("/data/locked", directory "locked")]
    [("/data", inr [entryOf (directory "locked")]);
     ("/data/locked", denied "open" "/data/locked")]
    []
    None.

(** [/data] with a small file that cannot be opened. *)
Definition lockedFileTree : os.FS :=
  tableFS
    [("/data", directory "data");
     ("/data/secret.txt", regular "secret.txt" 10)]
    [("/data", inr [entryOf (regular "secret.txt" 10)])]
    [("/data/secret.txt", denied "open" "/data/secret.txt")]
    None.

(** [/data] with one small file, where the export file cannot be created. *)
Definition readOnlyTree : os.FS :=
  tableFS
    [("/data", directory "data");
     ("/data/small.txt", regular "small.txt" 100)]
    [("/data", inr [entryOf (regular "small.txt" 100)])]
    [("/data/small.txt", content "hello")]
    readOnly.

Definition testConfig (recursive : bool) : ScanConfig.t :=
  ScanConfig.mk 1 [] [] recursive true 0 0.

Definition scan (fs : os.FS) (cfg : ScanConfig.t) (root : string)
    : outcome (error + ScanResult.t) :=
  Scan filepath.Match sniff fs 1700000100 (fun l => l) 100 root (New 1700000000 cfg).

(** The scan of [testTree], the scanner it leaves and its result. *)
Definition treeScan : outcome (error + ScanResult.t) :=
  scan testTree (testConfig true) "/data".

Definition scannerOf (o : outcome (error + ScanResult.t)) : Scanner :=
  match o with
  | Done _ s => s
  | _ => New 0 (testConfig true)
  end.

Definition emptyResult : ScanResult.t :=
  ScanResult.mk [] (ScanProgress.mk 0 0 0 0 0 [] 0 0 "") 0 false "".

Definition resultOf (o : outcome (error + ScanResult.t)) : ScanResult.t :=
  match o with
  | Done (inr r) _ => r
  | _ => emptyResult
  end.

Definition filesOf (o : outcome (error + ScanResult.t)) : list FileInfo.t :=
  match o with
  | Done (inr r) _ => ScanResult.Files r
  | _ => []
  end.

End Sample.

(** ** What the proofs follow through a run *)

(** From [s] to [s'] the work queue only received items that are not
    directories, and the error log and the configuration are the same. *)
Definition queuedFiles (s s' : Scanner) : Prop :=
  (exists added : list ScanWork.t,
     workChan s' = (workChan s ++ added)%list
     /\ Forall (fun w => ScanWork.IsDir w = false) added)
  /\ ScanProgress.Errors (progress s') = ScanProgress.Errors (progress s)
  /\ config s' = config s.

(** The errors and the records among the results that reach the collector. *)
Definition errorsOf (arrivals : list ScanWorkResult.t) : list string :=
  flat_map (fun res => match ScanWorkResult.Error res with
                       | Some e => [e]
                       | None => []
                       end) arrivals.

Definition recordsOf (arrivals : list ScanWorkResult.t) : list FileInfo.t :=
  flat_map (fun res => match ScanWorkResult.Error res with
                       | Some _ => []
                       | None => [ScanWorkResult.FileInfo res]
                       end) arrivals.

(** [m] sends nothing but such items, whenever it returns. *)
Definition keeps {A : Type} (m : M A) : Prop :=
  forall s a s', m s = Done a s' -> queuedFiles s s'.

(** The record a worker starts from once [os.Stat] has answered. *)
Definition statRecord (work : ScanWork.t) (info : os.FileInfo) : FileInfo.t :=
  FileInfo.set_stat
    (FileInfo.init (ScanWork.Path work) (filepath.Base (ScanWork.Path work)) false)
    (os.Size info) (os.ModTime info) (os.IsDir info)
    (strings.ToLower (filepath.Ext (os.Name info))).

(** Reading the start of a file to find its type fails with [e]: the
    file cannot be opened, or [Read] gives no byte and the error. *)
Definition readFails (fs : os.FS) (path : string) (e : error) : Prop :=
  os.Open fs path = inl e
  \/ exists f, os.Open fs path = inr f /\ os.Read f = (EmptyString, Some e).

(** The directories a traversal that starts at [start] goes through: the
    start, and, in a scan that is recursive, every entry of such a
    directory that [ReadDir] lists with the info of a directory. *)
Inductive traversed (fs : os.FS) (recursive : bool) (start : string) : string -> Prop :=
| traversed_start : traversed fs recursive start start
| traversed_entry :
    forall (dir : string) (entries : list os.DirEntry) (entry : os.DirEntry)
           (info : os.FileInfo),
      recursive = true ->
      traversed fs recursive start dir ->
      os.ReadDir fs dir = inr entries ->
      In entry entries ->
      os.Info entry = inr info ->
      os.IsDir info = true ->
      traversed fs recursive start (filepath.Join dir (os.EntryName entry)).

(** [w] is the work item made of an entry of a traversed directory, the
    info of the entry says that it is not a directory, and it is not the
    export file of a scan that exports. *)
Definition queuedEntry (fs : os.FS) (recursive export : bool) (start : string)
    (w : ScanWork.t) : Prop :=
  exists (dir : string) (entries : list os.DirEntry) (entry : os.DirEntry)
         (info : os.FileInfo),
    traversed fs recursive start dir
    /\ os.ReadDir fs dir = inr entries
    /\ In entry entries
    /\ os.Info entry = inr info
    /\ os.IsDir info = false
    /\ export && String.eqb (filepath.Base (filepath.Join dir (os.EntryName entry)))
                            "blocked_files.json" = false
    /\ w = ScanWork.mk (filepath.Join dir (os.EntryName entry)) false 1.

(** What has become of [entry] of the directory [dir] in [s]: the record
    of an entry that is a directory has been sent on the result channel;
    an entry that is not a directory has been queued, unless it is the
    export file of a scan that exports.  Nothing is said of an entry
    whose info cannot be had. *)
Definition entryHandled (export : bool) (s : Scanner) (dir : string)
    (entry : os.DirEntry) : Prop :=
  let fullPath := filepath.Join dir (os.EntryName entry) in
  match os.Info entry with
  | inl _ => True
  | inr info =>
      if os.IsDir info
      then In (dirRecord fullPath (os.Name info)) (resultChan s)
      else export && String.eqb (filepath.Base fullPath) "blocked_files.json" = false ->
           In (ScanWork.mk fullPath false 1) (workChan s)
  end.

(** From [s] to [s'] the two channels have only received, and the
    configuration and the place of the workers in the queue are the same. *)
Definition grows (s s' : Scanner) : Prop :=
  config s' = config s
  /\ workTaken s' = workTaken s
  /\ (exists added, workChan s' = (workChan s ++ added)%list)
  /\ (exists added, resultChan s' = (resultChan s ++ added)%list).

(** What a traversal of [path] that went from [s] to [s'] has done: it
    has queued entries that are not directories only, it has sent the
    record of [path] when that is the root, and it has handled every
    entry of every directory it went through. *)
Definition traversal (fs : os.FS) (recursive export : bool) (path root : string)
    (s s' : Scanner) : Prop :=
  grows s s'
  /\ (exists added, workChan s' = (workChan s ++ added)%list
                    /\ Forall (queuedEntry fs recursive export path) added)
  /\ (path = root -> In (dirRecord path (filepath.Base path)) (resultChan s'))
  /\ (recursive = true \/ path = root ->
      forall dir entries entry,
        traversed fs recursive path dir ->
        os.ReadDir fs dir = inr entries ->
        In entry entries ->
        entryHandled export s' dir entry).

(** ** More of the scanner: what a run keeps *)

(** Whenever [m] returns, the scanner it started from and the one it
    returns with are related by [R]. *)
Definition preserves {A : Type} (R : Scanner -> Scanner -> Prop) (m : M A) : Prop :=
  forall s a s', m s = Done a s' -> R s s'.

(** The results sent from [s] to [s'] all satisfy [P]. *)
Definition sentResults (P : ScanWorkResult.t -> Prop) (s s' : Scanner) : Prop :=
  exists added : list ScanWorkResult.t,
    resultChan s' = (resultChan s ++ added)%list /\ Forall P added.

(** The work items queued from [s] to [s'] all satisfy [P] for the
    configuration, which stays the same. *)
Definition sentWork (P : ScanConfig.t -> ScanWork.t -> Prop) (s s' : Scanner) : Prop :=
  config s' = config s
  /\ exists added : list ScanWork.t,
       workChan s' = (workChan s ++ added)%list /\ Forall (P (config s)) added.

(** The export file of a scan that exports is not a work item. *)
Definition notTheExport (cfg : ScanConfig.t) (w : ScanWork.t) : Prop :=
  ScanConfig.ExportBlockedToJSON cfg = true ->
  filepath.Base (ScanWork.Path w) <> "blocked_files.json".

(** A record as the traversal makes them: a directory, with nothing but
    its path and name. *)
Definition plainDirectory (res : ScanWorkResult.t) : Prop :=
  ScanWorkResult.Error res = None
  /\ exists path name, ScanWorkResult.FileInfo res = FileInfo.init path name true.

(** A result with an error is the answer of a failed [os.Stat] on its path. *)
Definition statFailure (fs : os.FS) (res : ScanWorkResult.t) : Prop :=
  match ScanWorkResult.Error res with
  | Some e =>
      os.Stat fs (FileInfo.Path (ScanWorkResult.FileInfo res)) = inl e
      /\ ScanWorkResult.FileInfo res
         = FileInfo.init (FileInfo.Path (ScanWorkResult.FileInfo res))
             (filepath.Base (FileInfo.Path (ScanWorkResult.FileInfo res))) false
  | None => True
  end.

Definition sizeSum (files : list FileInfo.t) : Z :=
  fold_right (fun f acc => FileInfo.Size f + acc) 0 files.

Definition blockedCount (files : list FileInfo.t) : Z :=
  Z.of_nat (List.length (filter FileInfo.IsBlocked files)).

(** The four counters a scan moves hold values of an [int64]. *)
Definition countersInRange (p : ScanProgress.t) : Prop :=
  Int64.in_range (ScanProgress.TotalFiles p)
  /\ Int64.in_range (ScanProgress.ScannedFiles p)
  /\ Int64.in_range (ScanProgress.BlockedFiles p)
  /\ Int64.in_range (ScanProgress.ScannedSize p).

(** From [s] to [s'] the counters have moved, modulo 2^64, by what was
    sent: [nd] records counted in [TotalFiles] and [nf] in
    [ScannedFiles] make up the records sent; [BlockedFiles] has the
    blocked ones among them and [ScannedSize] their sizes; [TotalSize]
    has not moved. *)
Definition counted (s s' : Scanner) : Prop :=
  exists (added : list ScanWorkResult.t) (nd nf : nat),
    resultChan s' = (resultChan s ++ added)%list
    /\ List.length (recordsOf added) = (nd + nf)%nat
    /\ Int64.wrap (ScanProgress.TotalFiles (progress s'))
       = Int64.wrap (ScanProgress.TotalFiles (progress s) + Z.of_nat nd)
    /\ Int64.wrap (ScanProgress.ScannedFiles (progress s'))
       = Int64.wrap (ScanProgress.ScannedFiles (progress s) + Z.of_nat nf)
    /\ Int64.wrap (ScanProgress.BlockedFiles (progress s'))
       = Int64.wrap (ScanProgress.BlockedFiles (progress s) + blockedCount (recordsOf added))
    /\ Int64.wrap (ScanProgress.ScannedSize (progress s'))
       = Int64.wrap (ScanProgress.ScannedSize (progress s) + sizeSum (recordsOf added))
    /\ ScanProgress.TotalSize (progress s') = ScanProgress.TotalSize (progress s)
    /\ (countersInRange (progress s) -> countersInRange (progress s')).

(** The record a worker sends for a work item that [os.Stat] answers
    with [info], and the progress after the worker has counted it. *)
Definition workerRecord (Match : string -> string -> bool * option error)
    (DetectContentType : string -> string) (fs : os.FS) (s : Scanner)
    (work : ScanWork.t) (info : os.FileInfo) : FileInfo.t :=
  let (fileInfo, err) := detectFileType DetectContentType fs (statRecord work info) in
  let fileInfo :=
    match err with
    | Some e => FileInfo.set_AccessError fileInfo e
    | None => fileInfo
    end in
  if shouldBlockFile Match s fileInfo
  then FileInfo.set_blocked fileInfo (getBlockReason Match s fileInfo)
  else fileInfo.

Definition countFile (p : ScanProgress.t) (file : FileInfo.t) : ScanProgress.t :=
  ScanProgress.mk (ScanProgress.TotalFiles p)
    (Int64.add (ScanProgress.ScannedFiles p) 1) (ScanProgress.TotalSize p)
    (Int64.add (ScanProgress.ScannedSize p) (FileInfo.Size file))
    (if FileInfo.IsBlocked file
     then Int64.add (ScanProgress.BlockedFiles p) 1
     else ScanProgress.BlockedFiles p)
    (ScanProgress.Errors p) (ScanProgress.StartTime p)
    (ScanProgress.LastUpdated p) (ScanProgress.CurrentDirectory p).

(** The scanner a run has returned with (a new one when it has not). *)
Definition stateAfter {A : Type} (o : outcome A) : Scanner :=
  match o with
  | Done _ s => s
  | _ => New 0 (ScanConfig.mk 0 [] [] false false 0 0)
  end.

(** [/data] with a file that is listed and gone when the worker asks
    [os.Stat] for it, and the scan of it. *)
Definition vanishedTree : os.FS :=
  Sample.tableFS
    [("/data", Sample.directory "data")]
    [("/data", inr [Sample.entryOf (Sample.regular "gone.txt" 7)])]
    []
    None.

Definition vanishedScan : outcome (error + ScanResult.t) :=
  Sample.scan vanishedTree (Sample.testConfig true) "/data".

(** The wait group has moved by [d]. *)
Definition shifts {A : Type} (d : Z) (m : M A) : Prop :=
  forall s a s', m s = Done a s' -> dirWg s' = dirWg s + d.

(** [GetProgress]: the copy of the progress handed out; the error log is
    copied when it is not empty. *)
Definition GetProgress (s : Scanner) : ScanProgress.t :=
  let p := progress s in
  ScanProgress.mk (ScanProgress.TotalFiles p) (ScanProgress.ScannedFiles p)
    (ScanProgress.TotalSize p) (ScanProgress.ScannedSize p)
    (ScanProgress.BlockedFiles p)
    (if 0 <? Z.of_nat (List.length (ScanProgress.Errors p))
     then ScanProgress.Errors p else [])
    (ScanProgress.StartTime p) (ScanProgress.LastUpdated p)
    (ScanProgress.CurrentDirectory p).

(** The error channel has stayed within its buffer, and the
    configuration is the same. *)
Definition withinBuffer (s s' : Scanner) : Prop :=
  config s' = config s
  /\ (Z.of_nat (List.length (errorChan s)) <= ScanConfig.BufferSize (config s) ->
      Z.of_nat (List.length (errorChan s')) <= ScanConfig.BufferSize (config s')).

(** ** package api: the registry of the scans and its handlers *)

Module api.

(** The two maps of the package: [activeScans] holds pointers to
    scanners ([Some None] is a key with a nil pointer), [scanResults]
    the results.  A map is the function from its keys. *)
Record Registry : Type := mkRegistry {
  activeScans : string -> option (option Scanner);
  scanResults : string -> option ScanResult.t
}.

Definition empty : Registry := mkRegistry (fun _ => None) (fun _ => None).

(** [m[k] = v] *)
Definition put {V : Type} (m : string -> option V) (k : string) (v : V)
    : string -> option V :=
  fun k' => if String.eqb k' k then Some v else m k'.

(** The [status] struct that [GetStatus] encodes. *)
Record Status : Type := mkStatus {
  State : string;
  Progress : option ScanProgress.t;
  Result : option ScanResult.t
}.

(** What a handler writes: [http.Error] with its code and message, the
    status with the code of the header, or the answer of [StartScan]. *)
Inductive Response : Type :=
| HttpError (code : Z) (message : string)
| StatusJson (code : Z) (status : Status)
| Started (code : Z) (path : string).

Definition StatusOK : Z := 200.
Definition StatusBadRequest : Z := 400.
Definition StatusNotFound : Z := 404.

(** [GetStatus], for the value [id] of the query. *)
Definition GetStatus (id : string) (reg : Registry) : Response :=
  if filepath.isEmpty id then HttpError StatusBadRequest "path parameter required"
  else
    match activeScans reg id with
    | None =>
        match scanResults reg id with
        | Some result => StatusJson StatusOK (mkStatus "completed" None (Some result))
        | None => StatusJson StatusNotFound (mkStatus "not_found" None None)
        end
    | Some None => StatusJson StatusOK (mkStatus "error" None None)
    | Some (Some scanner) =>
        StatusJson StatusOK (mkStatus "running" (Some (GetProgress scanner)) None)
    end.

(** [StartScan], for the decoded body of the request (or the error of
    the decoder): the answer, and the scanner and path of the goroutine
    it starts.  The registry is not touched before the goroutine ends. *)
Definition StartScan (now : Z) (body : error + (string * ScanConfig.t))
    : Response * option (string * Scanner) :=
  match body with
  | inl err => (HttpError StatusBadRequest err, None)
  | inr (path, cfg) =>
      if filepath.isEmpty path
      then (HttpError StatusBadRequest "path cannot be empty", None)
      else (Started StatusOK path, Some (path, New now cfg))
  end.

(** The goroutine of [StartScan], from the outcome of its [Scan]: the
    registry it leaves ([None] when the scan never returns). *)
Definition scanGoroutine (path : string) (scanned : outcome (error + ScanResult.t))
    (reg : Registry) : option Registry :=
  match scanned with
  | Done (inl _) _ =>
      Some (mkRegistry (put (activeScans reg) path None) (scanResults reg))
  | Done (inr result) s' =>
      Some (mkRegistry (put (activeScans reg) path (Some s'))
                       (put (scanResults reg) path result))
  | _ => None
  end.

(** The registries the package can be in: the empty one, and the ones
    left by the goroutine of a scan that [StartScan] has started. *)
Inductive reachable (Match : string -> string -> bool * option error)
    (DetectContentType : string -> string) : Registry -> Prop :=
| reachable_empty : reachable Match DetectContentType empty
| reachable_scan :
    forall (reg reg' : Registry) (fs : os.FS) (started now : Z)
           (order : list ScanWorkResult.t -> list ScanWorkResult.t) (fuel : nat)
           (body : error + (string * ScanConfig.t)) (answer : Response)
           (path : string) (s : Scanner),
      reachable Match DetectContentType reg ->
      StartScan started body = (answer, Some (path, s)) ->
      scanGoroutine path (Scan Match DetectContentType fs now order fuel path s) reg
      = Some reg' ->
      reachable Match DetectContentType reg'.

End api.

(** [Scan] on a file system that changes between the two times the root
    is looked up: [before] answers the [os.Stat] of [Scan] itself, [fs]
    answers [startScan] and everything after it.  With one file system
    for both it is [Scan]. *)
Definition ScanAfter (Match : string -> string -> bool * option error)
    (DetectContentType : string -> string) (before fs : os.FS) (now : Z)
    (order : list ScanWorkResult.t -> list ScanWorkResult.t)
    (fuel : nat) (root : string) : M (error + ScanResult.t) :=
  if filepath.isEmpty root then ret (inl "empty path provided")
  else
    match os.Stat before root with
    | inl err => ret (inl err)
    | inr _ =>
        r <- runScan Match DetectContentType fs fuel root ;;
        match r with
        | Some err => ret (inl err)
        | None =>
            files <- collectResults now order ;;
            cfg <- getConfig ;;
            p <- getProgress ;;
            ret (inr (finish fs now cfg root files p))
        end
    end.

(** A file system on which nothing is left. *)
Definition removedTree : os.FS := Sample.tableFS [] [] [] None.

(** A scanner with an error channel for one error that holds one. *)
Definition fullErrorChannel : Scanner :=
  mkScanner (ScanConfig.mk 1 [] [] true true 4 1)
            (ScanProgress.mk 0 0 0 0 0 [] 1700000000 0 "")
            [] 0 [] ["error reading directory /data/other: permission denied"] 1.

(** A file system that has the listing of [/data] of [Sample.testTree]
    and nothing else: no path [os.Stat] answers, no other directory,
    no file to open. *)
Definition listingOnlyTree : os.FS :=
  Sample.tableFS []
    [("/data", inr [Sample.entryOf (Sample.regular "large.txt" 5242880);
                    Sample.entryOf (Sample.regular "small.txt" 100);
                    Sample.entryOf (Sample.directory "subdir")])]
    [] None.

(** The registry after the scan of [Sample.testTree] was started on an
    empty registry and has ended. *)
Definition registryAfterScan : api.Registry :=
  match api.scanGoroutine "/data" Sample.treeScan api.empty with
  | Some reg => reg
  | None => api.empty
  end.

(** ** The library functions and the scanner on examples *)

Example Ext_txt : filepath.Ext "/tmp/a.b/Notes.TXT" = ".TXT".
Proof. reflexivity. Qed.

Example Ext_none : filepath.Ext "/tmp/a.b/Makefile" = "".
Proof. reflexivity. Qed.

Example Base_file : filepath.Base "/tmp/scan/large.txt" = "large.txt".
Proof. reflexivity. Qed.

Example Base_slashes : filepath.Base "///" = "/".
Proof. reflexivity. Qed.

Example Join_clean : filepath.Join "/tmp//scan/./x/.." "large.txt" = "/tmp/scan/large.txt".
Proof. reflexivity. Qed.

Example Dir_file : filepath.Dir "/tmp/scan/large.txt" = "/tmp/scan".
Proof. reflexivity. Qed.

Example Match_tmp : filepath.Match "*.tmp" "temp.tmp" = (true, None).
Proof. reflexivity. Qed.

Example Match_hidden : filepath.Match ".*" "normal.txt" = (false, None).
Proof. reflexivity. Qed.

Example Match_class : filepath.Match "[a-c]?.lo[^x]" "bz.log" = (true, None).
Proof. reflexivity. Qed.

Example Match_bad : filepath.Match "[" "temp.tmp" = (false, Some filepath.ErrBadPattern).
Proof. reflexivity. Qed.

Example Match_bad_after_mismatch : filepath.Match "a[" "b" = (false, Some filepath.ErrBadPattern).
Proof. reflexivity. Qed.

Example Match_escape : filepath.Match "a\*b" "a*b" = (true, None).
Proof. reflexivity. Qed.

Example Match_star_stops_at_separator : filepath.Match "*" "a/b" = (false, None).
Proof. reflexivity. Qed.

Example Match_stars : filepath.Match "a*b*c" "aXXbYYc" = (true, None).
Proof. reflexivity. Qed.

Example Match_bad_class : filepath.Match "[]a]" "]" = (false, Some filepath.ErrBadPattern).
Proof. reflexivity. Qed.

Example Match_bad_escape : filepath.Match "\" "x" = (false, Some filepath.ErrBadPattern).
Proof. reflexivity. Qed.

(** The two scans of [TestScanner]: five records with one blocked, and
    four records with one blocked when the scan is not recursive. *)
Example scenario_A :
  let files := Sample.filesOf (Sample.scan Sample.testTree (Sample.testConfig true) "/data") in
  List.length files = 5%nat /\
  map FileInfo.Name (filter FileInfo.IsBlocked files) = ["large.txt"].
Proof. vm_compute. split; reflexivity. Qed.

Example scenario_B :
  let files := Sample.filesOf (Sample.scan Sample.testTree (Sample.testConfig false) "/data") in
  List.length files = 4%nat /\
  map FileInfo.Name (filter FileInfo.IsBlocked files) = ["large.txt"].
Proof. vm_compute. split; reflexivity. Qed.

(** ** Lemmas on the library functions *)

Lemma wrap_in_range (z : Z) :
  - 9223372036854775808 <= z < 9223372036854775808 -> Int64.wrap z = z.
Proof.
  intros H. unfold Int64.wrap, Int64.modulus.
  change (2 ^ 64) with 18446744073709551616.
  change (2 ^ 63) with 9223372036854775808.
  rewrite Z.mod_small; lia.
Qed.


Lemma lower_idempotent (c : ascii) : strings.lower (strings.lower c) = strings.lower c.
Proof. destruct c as [[] [] [] [] [] [] [] []]; reflexivity. Qed.

Lemma lower_dot (c : ascii) : strings.lower c = "."%char -> c = "."%char.
Proof. destruct c as [[] [] [] [] [] [] [] []]; vm_compute; congruence. Qed.

Lemma ToLower_idempotent (s : string) : strings.ToLower (strings.ToLower s) = strings.ToLower s.
Proof.
  induction s as [|c s IH]; simpl; [reflexivity|].
  now rewrite lower_idempotent, IH.
Qed.

Lemma EqualFold_ToLower_l (s t : string) :
  strings.EqualFold (strings.ToLower s) t = strings.EqualFold s t.
Proof.
  revert t. induction s as [|c s IH]; intros [|d t]; simpl; try reflexivity.
  now rewrite lower_idempotent, IH.
Qed.

Lemma EqualFold_sym (s t : string) : strings.EqualFold s t = strings.EqualFold t s.
Proof.
  revert t. induction s as [|c s IH]; intros [|d t]; simpl; try reflexivity.
  now rewrite IH, Ascii.eqb_sym.
Qed.

Lemma EqualFold_ToLower_r (s t : string) :
  strings.EqualFold s (strings.ToLower t) = strings.EqualFold s t.
Proof. now rewrite EqualFold_sym, EqualFold_ToLower_l, EqualFold_sym. Qed.

Lemma EqualFold_empty (t : string) : strings.EqualFold "" t = true <-> t = "".
Proof. destruct t; simpl; split; congruence. Qed.

(** [Ext] gives nothing, or a suffix that starts with the dot. *)
Lemma Ext_shape (path : string) :
  filepath.Ext path = "" \/ exists rest, filepath.Ext path = String "."%char rest.
Proof.
  induction path as [|c rest IH]; simpl; [now left|].
  destruct (filepath.Ext rest) as [|d e] eqn:E.
  - destruct (Ascii.eqb c ".") eqn:Ec; simpl; [|now left].
    destruct (strings.ContainsByte rest filepath.Separator); simpl; [now left|].
    right. apply Ascii.eqb_eq in Ec. subst c. now exists rest.
  - destruct IH as [IH | [r IH]]; [discriminate|]. right. now exists r.
Qed.

Lemma ToLower_Ext_shape (name : string) :
  strings.ToLower (filepath.Ext name) = ""
  \/ exists rest, strings.ToLower (filepath.Ext name) = String "."%char rest.
Proof.
  destruct (Ext_shape name) as [E | [r E]]; rewrite E; simpl; [now left|].
  right. now exists (strings.ToLower r).
Qed.

Lemma isAllowed_existsb (ext : string) (types : list string) :
  isAllowed ext types = existsb (strings.EqualFold ext) types.
Proof.
  induction types as [|t types IH]; simpl; [reflexivity|].
  destruct (strings.EqualFold ext t); simpl; [reflexivity | exact IH].
Qed.

Lemma isAllowed_empty_extension (types : list string) :
  ~ In "" types -> isAllowed "" types = false.
Proof.
  induction types as [|t types IH]; simpl; intros H; [reflexivity|].
  destruct t as [|c t]; [exfalso; apply H; now left|].
  apply IH. intros Hin. apply H. now right.
Qed.

Section RuleLemmas.

Variable Match : string -> string -> bool * option error.

Lemma isFileSizeAllowed_limit (s : Scanner) (size : Z) :
  isFileSizeAllowed s size = (size <=? sizeLimit s).
Proof. reflexivity. Qed.

Lemma matchesBlockedPattern_existsb (patterns : list string) (name : string) :
  matchesBlockedPattern Match patterns name = existsb (patternMatches Match name) patterns.
Proof.
  induction patterns as [|p ps IH]; simpl; [reflexivity|].
  unfold patternMatches at 1.
  destruct (Match p name) as [[] [e|]]; simpl; auto.
Qed.

Lemma firstMatchedPattern_find (patterns : list string) (name : string) :
  error_means_no_match Match ->
  firstMatchedPattern Match patterns name = find (patternMatches Match name) patterns.
Proof.
  intros HM. induction patterns as [|p ps IH]; simpl; [reflexivity|].
  unfold patternMatches at 1. specialize (HM p name).
  destruct (Match p name) as [m [e|]]; simpl in *.
  - rewrite HM by discriminate. exact IH.
  - destruct m; [reflexivity | exact IH].
Qed.

Lemma firstMatchedPattern_matched (patterns : list string) (name pattern : string) :
  firstMatchedPattern Match patterns name = Some pattern ->
  In pattern patterns /\ fst (Match pattern name) = true.
Proof.
  induction patterns as [|p ps IH]; simpl; [discriminate|].
  destruct (Match p name) as [m e] eqn:E. destruct m.
  - intros [= <-]. split; [now left | now rewrite E].
  - intros H. destruct (IH H) as [Hin Hm]. split; [now right | exact Hm].
Qed.

Lemma matchesBlockedPattern_skip (pre post : list string) (p name : string) :
  snd (Match p name) <> None ->
  matchesBlockedPattern Match (pre ++ p :: post) name
  = matchesBlockedPattern Match (pre ++ post) name.
Proof.
  intros He. induction pre as [|q pre IH]; simpl.
  - destruct (Match p name) as [m [e|]]; simpl in *; [reflexivity | congruence].
  - now rewrite IH.
Qed.

Lemma firstMatchedPattern_skip (pre post : list string) (p name : string) :
  error_means_no_match Match ->
  snd (Match p name) <> None ->
  firstMatchedPattern Match (pre ++ p :: post) name
  = firstMatchedPattern Match (pre ++ post) name.
Proof.
  intros HM He. induction pre as [|q pre IH]; simpl.
  - specialize (HM p name He). destruct (Match p name) as [m e]; simpl in *.
    now subst m.
  - now rewrite IH.
Qed.

(** Both functions go through the same three tests. *)
Lemma shouldBlockFile_cases (s : Scanner) (file : FileInfo.t) :
  shouldBlockFile Match s file =
    if FileInfo.Size file >? sizeLimit s then true
    else match ScanConfig.AllowedTypes (config s) with
         | (_ :: _) as allowed =>
             if existsb (strings.EqualFold (FileInfo.Extension file)) allowed
             then existsb (patternMatches Match (FileInfo.Name file))
                          (ScanConfig.BlockedPatterns (config s))
             else true
         | [] => existsb (patternMatches Match (FileInfo.Name file))
                         (ScanConfig.BlockedPatterns (config s))
         end.
Proof.
  unfold shouldBlockFile. rewrite isFileSizeAllowed_limit, isAllowed_existsb.
  rewrite matchesBlockedPattern_existsb.
  rewrite Z.gtb_ltb, (Z.ltb_antisym (FileInfo.Size file) (sizeLimit s)).
  destruct (FileInfo.Size file <=? sizeLimit s); simpl; [|reflexivity].
  destruct (ScanConfig.AllowedTypes (config s)) as [|t ts]; [reflexivity|].
  cbn [List.length]. rewrite Nat2Z.inj_succ.
  replace (0 <? Z.succ (Z.of_nat (List.length ts))) with true
    by (symmetry; apply Z.ltb_lt; lia).
  cbn [andb existsb].
  destruct (strings.EqualFold (FileInfo.Extension file) t
            || existsb (strings.EqualFold (FileInfo.Extension file)) ts); reflexivity.
Qed.

Lemma getBlockReason_cases (s : Scanner) (file : FileInfo.t) :
  getBlockReason Match s file =
    let byPattern :=
      match firstMatchedPattern Match (ScanConfig.BlockedPatterns (config s))
              (FileInfo.Name file) with
      | Some pattern => "File matches blocked pattern: " ++ pattern
      | None => "Unknown reason"
      end in
    if FileInfo.Size file >? sizeLimit s then "File size exceeds limit"
    else match ScanConfig.AllowedTypes (config s) with
         | (_ :: _) as allowed =>
             if existsb (strings.EqualFold (FileInfo.Extension file)) allowed
             then byPattern else "File type not allowed"
         | [] => byPattern
         end.
Proof.
  unfold getBlockReason. rewrite isFileSizeAllowed_limit, isAllowed_existsb.
  rewrite Z.gtb_ltb, (Z.ltb_antisym (FileInfo.Size file) (sizeLimit s)).
  destruct (FileInfo.Size file <=? sizeLimit s); simpl; [|reflexivity].
  destruct (ScanConfig.AllowedTypes (config s)) as [|t ts]; [reflexivity|].
  cbn [List.length]. rewrite Nat2Z.inj_succ.
  replace (0 <? Z.succ (Z.of_nat (List.length ts))) with true
    by (symmetry; apply Z.ltb_lt; lia).
  cbn [andb existsb].
  destruct (strings.EqualFold (FileInfo.Extension file) t
            || existsb (strings.EqualFold (FileInfo.Extension file)) ts); reflexivity.
Qed.

End RuleLemmas.


(** [filepath.Match] as modelled reports no match whenever it reports an error. *)
Lemma skipLoop_error (next : string -> bool * option error) (chunk : string)
    (last : bool) (name : string) :
  (forall t, snd (next t) <> None -> fst (next t) = false) ->
  snd (filepath.skipLoop next chunk last name) <> None ->
  fst (filepath.skipLoop next chunk last name) = false.
Proof.
  intros Hnext. induction name as [|c name IH]; simpl; [reflexivity|].
  destruct (Ascii.eqb c filepath.Separator); [reflexivity|].
  destruct (filepath.matchChunk chunk name) as [[t ok] err].
  destruct ok.
  - destruct (last && negb (filepath.isEmpty t)); [exact IH | apply Hnext].
  - destruct err; [reflexivity | exact IH].
Qed.

Lemma MatchLoop_error (fuel : nat) (pattern name : string) :
  snd (filepath.MatchLoop fuel pattern name) <> None ->
  fst (filepath.MatchLoop fuel pattern name) = false.
Proof.
  revert pattern name. induction fuel as [|fuel IH]; intros pattern name; simpl.
  - reflexivity.
  - destruct (filepath.isEmpty pattern); [simpl; congruence|].
    destruct (filepath.scanChunk pattern) as [[star chunk] rest].
    destruct (star && filepath.isEmpty chunk); [simpl; congruence|].
    destruct (filepath.matchChunk chunk name) as [[t ok] err].
    destruct (ok && (filepath.isEmpty t || negb (filepath.isEmpty rest))); [apply IH|].
    destruct err; [reflexivity|].
    destruct star; [|reflexivity].
    apply skipLoop_error. intros t0. apply IH.
Qed.

Lemma Match_error_means_no_match : error_means_no_match filepath.Match.
Proof. intros pattern name. apply MatchLoop_error. Qed.

Lemma append_inj_r (prefix a b : string) : prefix ++ a = prefix ++ b -> a = b.
Proof.
  induction prefix as [|c prefix IH]; simpl; intros H; [exact H|].
  injection H as H. now apply IH.
Qed.

(** ** The blocking rules *)

Section Classifier.

Variable Match : string -> string -> bool * option error.

Lemma size_rule_blocks (s : Scanner) (file : FileInfo.t) :
  FileInfo.Size file > sizeLimit s ->
  shouldBlockFile Match s file = true
  /\ getBlockReason Match s file = "File size exceeds limit".
Proof.
  intros H. rewrite shouldBlockFile_cases, getBlockReason_cases. cbv zeta.
  replace (FileInfo.Size file >? sizeLimit s) with true; [now split|].
  symmetry. apply Z.gtb_lt. lia.
Qed.



(** C3: the decision and the reason follow the same order of rules.  With
    a [Match] that reports no match when it reports an error, the file is
    blocked exactly when it violates a rule, the reason is the one of the
    first rule it violates, and "Unknown reason" is what [getBlockReason]
    gives exactly for the files that violate no rule (which the scanner
    does not block). *)
Theorem decision_and_reason_agree (s : Scanner) (file : FileInfo.t) :
  error_means_no_match Match ->
  (shouldBlockFile Match s file = true <-> firstViolatedRule Match s file <> None)
  /\ (forall rule, firstViolatedRule Match s file = Some rule ->
        shouldBlockFile Match s file = true
        /\ getBlockReason Match s file = reasonOfRule rule)
  /\ (getBlockReason Match s file = "Unknown reason" <->
      firstViolatedRule Match s file = None)
  /\ (getBlockReason Match s file = "Unknown reason" <->
      shouldBlockFile Match s file = false).
Proof.
  intros HM.
  rewrite shouldBlockFile_cases, getBlockReason_cases. cbv zeta.
  rewrite (firstMatchedPattern_find Match _ _ HM).
  unfold firstViolatedRule.
  set (patterns := ScanConfig.BlockedPatterns (config s)).
  assert (P : forall ps,
    existsb (patternMatches Match (FileInfo.Name file)) ps
    = match find (patternMatches Match (FileInfo.Name file)) ps with
      | Some _ => true | None => false end).
  { induction ps as [|p ps IH]; simpl; [reflexivity|].
    destruct (patternMatches Match (FileInfo.Name file) p); [reflexivity | exact IH]. }
  rewrite (P patterns).
  destruct (FileInfo.Size file >? sizeLimit s).
  { repeat split; intros; try congruence; try discriminate.
    match goal with H : Some _ = Some _ |- _ => now injection H as <- end. }
  destruct (ScanConfig.AllowedTypes (config s)) as [|t ts].
  - destruct (find _ patterns) as [p|]; simpl;
      repeat split; intros; try congruence; try discriminate.
    match goal with H : Some _ = Some _ |- _ => now injection H as <- end.
  - destruct (existsb _ (t :: ts)).
    + destruct (find _ patterns) as [p|]; simpl;
        repeat split; intros; try congruence; try discriminate.
      match goal with H : Some _ = Some _ |- _ => now injection H as <- end.
    + repeat split; intros; try congruence; try discriminate.
      match goal with H : Some _ = Some _ |- _ => now injection H as <- end.
Qed.

(** C10: a pattern whose matching reports an error for the file's name is
    ignored, given that [Match] reports no match with an error: the
    decision and the reason are what they are without that pattern in
    the list, and the reason never names it. *)
Theorem malformed_pattern_ignored (s : Scanner) (file : FileInfo.t)
    (before after : list string) (pattern : string) :
  error_means_no_match Match ->
  snd (Match pattern (FileInfo.Name file)) <> None ->
  let withPattern :=
    set_config s (ScanConfig.set_BlockedPatterns (config s) (before ++ pattern :: after)) in
  let without :=
    set_config s (ScanConfig.set_BlockedPatterns (config s) (before ++ after)) in
  shouldBlockFile Match withPattern file = shouldBlockFile Match without file
  /\ getBlockReason Match withPattern file = getBlockReason Match without file
  /\ getBlockReason Match withPattern file <> "File matches blocked pattern: " ++ pattern.
Proof.
  intros HM He withPattern without.
  assert (Hd : shouldBlockFile Match withPattern file = shouldBlockFile Match without file).
  { unfold shouldBlockFile, withPattern, without, isFileSizeAllowed. simpl.
    now rewrite matchesBlockedPattern_skip. }
  assert (Hr : getBlockReason Match withPattern file = getBlockReason Match without file).
  { unfold getBlockReason, withPattern, without, isFileSizeAllowed. simpl.
    now rewrite firstMatchedPattern_skip. }
  repeat split; [exact Hd | exact Hr |].
  rewrite getBlockReason_cases. cbv zeta. intros H.
  assert (Hp : forall ps,
    match firstMatchedPattern Match ps (FileInfo.Name file) with
    | Some p => "File matches blocked pattern: " ++ p
    | None => "Unknown reason"
    end <> "File matches blocked pattern: " ++ pattern).
  { intros ps Heq.
    destruct (firstMatchedPattern Match ps (FileInfo.Name file)) as [p|] eqn:E;
      [|discriminate].
    apply append_inj_r in Heq. subst p.
    apply firstMatchedPattern_matched in E. destruct E as [_ E].
    rewrite (HM _ _ He) in E. discriminate. }
  destruct (FileInfo.Size file >? sizeLimit withPattern); [discriminate|].
  destruct (ScanConfig.AllowedTypes (config withPattern)) as [|t ts].
  - exact (Hp _ H).
  - destruct (existsb _ (t :: ts)); [exact (Hp _ H) | discriminate].
Qed.

End Classifier.

(** ** The traversal and the work queue *)

Lemma queuedFiles_refl (s : Scanner) : queuedFiles s s.
Proof.
  repeat split. exists []. split; [now rewrite app_nil_r | constructor].
Qed.

Lemma queuedFiles_trans (s1 s2 s3 : Scanner) :
  queuedFiles s1 s2 -> queuedFiles s2 s3 -> queuedFiles s1 s3.
Proof.
  intros [[a [Ha Fa]] [Ea Ca]] [[b [Hb Fb]] [Eb Cb]]. repeat split.
  - exists (a ++ b)%list. split.
    + now rewrite Hb, Ha, app_assoc.
    + apply Forall_app. now split.
  - now rewrite Eb.
  - now rewrite Cb.
Qed.

Lemma queuedFiles_same (s s' : Scanner) :
  workChan s' = workChan s ->
  ScanProgress.Errors (progress s') = ScanProgress.Errors (progress s) ->
  config s' = config s ->
  queuedFiles s s'.
Proof.
  intros H E C. repeat split; try assumption.
  exists []. split; [now rewrite app_nil_r | constructor].
Qed.

Lemma keeps_ret {A : Type} (a : A) : keeps (ret a).
Proof. intros s b s' [= _ <-]. apply queuedFiles_refl. Qed.

Lemma keeps_bind {A B : Type} (m : M A) (k : A -> M B) :
  keeps m -> (forall a, keeps (k a)) -> keeps (bind m k).
Proof.
  intros Hm Hk s b s'. unfold bind. destruct (m s) as [a s1| |] eqn:E; try discriminate.
  intros H. eapply queuedFiles_trans; [eapply Hm; exact E | eapply Hk; exact H].
Qed.

Lemma keeps_sendResult (r : ScanWorkResult.t) : keeps (sendResult r).
Proof. intros s a s' [= _ <-]. now apply queuedFiles_same. Qed.

Lemma keeps_sendError (e : error) : keeps (sendError e).
Proof.
  intros s a s'. unfold sendError.
  destruct (_ <? _); [|discriminate]. intros [= _ <-]. now apply queuedFiles_same.
Qed.

Lemma keeps_sendWork (w : ScanWork.t) : ScanWork.IsDir w = false -> keeps (sendWork w).
Proof.
  intros Hw s a s' [= _ <-]. repeat split.
  exists [w]. split; [reflexivity | now constructor].
Qed.

Lemma keeps_dirWgAdd (n : Z) : keeps (dirWgAdd n).
Proof. intros s a s' [= _ <-]. now apply queuedFiles_same. Qed.

Lemma keeps_addTotalFiles (n : Z) : keeps (addTotalFiles n).
Proof. intros s a s' [= _ <-]. now apply queuedFiles_same. Qed.

Lemma keeps_addScannedFiles (n : Z) : keeps (addScannedFiles n).
Proof. intros s a s' [= _ <-]. now apply queuedFiles_same. Qed.

Lemma keeps_addScannedSize (n : Z) : keeps (addScannedSize n).
Proof. intros s a s' [= _ <-]. now apply queuedFiles_same. Qed.

Lemma keeps_addBlockedFiles (n : Z) : keeps (addBlockedFiles n).
Proof. intros s a s' [= _ <-]. now apply queuedFiles_same. Qed.

Lemma keeps_getConfig : keeps getConfig.
Proof. intros s a s' [= _ <-]. apply queuedFiles_refl. Qed.

Lemma keeps_getProgress : keeps getProgress.
Proof. intros s a s' [= _ <-]. apply queuedFiles_refl. Qed.

Create HintDb keeps.
#[local] Hint Resolve keeps_ret keeps_sendResult keeps_sendError keeps_dirWgAdd
  keeps_addTotalFiles keeps_addScannedFiles keeps_addScannedSize
  keeps_addBlockedFiles keeps_getConfig keeps_getProgress : keeps.

(** One step through a term of the monad. *)
Ltac keeps_step :=
  match goal with
  | |- keeps (bind _ _) => apply keeps_bind; [|intros ?]
  | |- keeps (if ?b then _ else _) => destruct b
  | |- keeps (sendWork _) => apply keeps_sendWork; reflexivity
  | |- keeps _ => solve [auto with keeps]
  end.

Section Traversal.

Variable Match : string -> string -> bool * option error.
Variable DetectContentType : string -> string.
Variable fs : os.FS.

Lemma keeps_scanEntries (spawn : string -> M unit) (path root : string)
    (entries : list os.DirEntry) :
  (forall fullPath, keeps (spawn fullPath)) ->
  keeps (scanEntries spawn path root entries).
Proof.
  intros Hspawn. induction entries as [|entry rest IH]; simpl.
  - apply keeps_ret.
  - destruct (os.Info entry) as [err|info]; repeat keeps_step; auto.
Qed.

Lemma keeps_scanDirectory (fuel : nat) (path root : string) :
  keeps (scanDirectory fs fuel path root).
Proof.
  revert path. induction fuel as [|fuel IH]; intros path; simpl.
  - intros s a s'. discriminate.
  - repeat keeps_step.
    destruct (os.ReadDir fs path) as [err|entries]; [auto with keeps|].
    apply keeps_scanEntries. intros fullPath. apply IH.
Qed.

(** A directory below the root that cannot be read: the traversal sends
    the error with the path on the error channel and returns; the
    progress, with its error log, and the results stay as they are. *)
Lemma scanDirectory_read_error (fuel : nat) (path root : string) (err : error)
    (s : Scanner) :
  os.ReadDir fs path = inl err ->
  String.eqb path root = false ->
  Z.of_nat (List.length (errorChan s)) < ScanConfig.BufferSize (config s) ->
  scanDirectory fs (S fuel) path root s
  = Done tt
      (mkScanner (config s) (progress s) (workChan s) (workTaken s) (resultChan s)
         (errorChan s ++ [Sprintf4 "error reading directory " path ": " err])
         (dirWg s + -1)).
Proof.
  intros HR HP HB. simpl. rewrite HP, HR.
  unfold bind, ret, sendError, dirWgAdd.
  apply Z.ltb_lt in HB. rewrite HB. reflexivity.
Qed.

Lemma keeps_processFile (work : ScanWork.t) :
  keeps (processFile Match DetectContentType fs work).
Proof.
  unfold processFile.
  destruct (os.Stat fs (ScanWork.Path work)) as [err|info]; [auto with keeps|].
  destruct (detectFileType _ _ _) as [fileInfo err].
  intros s a s'. cbv zeta.
  match goal with
  | |- ?m s = Done a s' -> _ => assert (K : keeps m) by (repeat keeps_step)
  end.
  apply K.
Qed.

End Traversal.

(** ** What a worker does with a file *)

Section Workers.

Variable Match : string -> string -> bool * option error.
Variable DetectContentType : string -> string.
Variable fs : os.FS.

Lemma detectFileType_readFails (file : FileInfo.t) (e : error) :
  readFails fs (FileInfo.Path file) e ->
  detectFileType DetectContentType fs file = (file, Some e).
Proof.
  unfold detectFileType. intros [H | [f [H R]]]; rewrite H; [reflexivity|].
  now rewrite R.
Qed.

Lemma shouldBlockFile_metadata (s : Scanner) (f g : FileInfo.t) :
  FileInfo.Size f = FileInfo.Size g ->
  FileInfo.Extension f = FileInfo.Extension g ->
  FileInfo.Name f = FileInfo.Name g ->
  shouldBlockFile Match s f = shouldBlockFile Match s g.
Proof. intros H1 H2 H3. unfold shouldBlockFile. now rewrite H1, H2, H3. Qed.

(** When [os.Stat] fails the worker sends the error and nothing else. *)
Lemma processFile_stat_error (work : ScanWork.t) (err : error) (s : Scanner) :
  os.Stat fs (ScanWork.Path work) = inl err ->
  processFile Match DetectContentType fs work s
  = Done tt
      (mkScanner (config s) (progress s) (workChan s) (workTaken s)
         (resultChan s ++
            [ScanWorkResult.mk
               (FileInfo.init (ScanWork.Path work) (filepath.Base (ScanWork.Path work)) false)
               (Some err)])
         (errorChan s) (dirWg s)).
Proof. intros H. unfold processFile. now rewrite H. Qed.

(** When [os.Stat] succeeds the worker sends one record, counts it as
    scanned and touches nothing else. *)
Lemma processFile_stat_ok (work : ScanWork.t) (info : os.FileInfo) (s : Scanner) :
  os.Stat fs (ScanWork.Path work) = inr info ->
  exists (file : FileInfo.t) (p : ScanProgress.t),
    processFile Match DetectContentType fs work s
    = Done tt
        (mkScanner (config s) p (workChan s) (workTaken s)
           (resultChan s ++ [ScanWorkResult.mk file None]) (errorChan s) (dirWg s))
    /\ ScanProgress.Errors p = ScanProgress.Errors (progress s)
    /\ ScanProgress.TotalFiles p = ScanProgress.TotalFiles (progress s)
    /\ ScanProgress.ScannedFiles p = Int64.add (ScanProgress.ScannedFiles (progress s)) 1
    /\ FileInfo.Path file = ScanWork.Path work
    /\ FileInfo.Name file = filepath.Base (ScanWork.Path work)
    /\ FileInfo.Size file = os.Size info
    /\ FileInfo.IsDirectory file = os.IsDir info
    /\ FileInfo.Extension file = strings.ToLower (filepath.Ext (os.Name info))
    /\ FileInfo.IsBlocked file = shouldBlockFile Match s (statRecord work info)
    /\ FileInfo.AccessError file
       = match snd (detectFileType DetectContentType fs (statRecord work info)) with
         | Some e => e
         | None => ""
         end.
Proof.
  intros H. unfold processFile. rewrite H. fold (statRecord work info).
  destruct (detectFileType DetectContentType fs (statRecord work info)) as [f0 err] eqn:D.
  assert (Hf0 : FileInfo.Path f0 = ScanWork.Path work
                /\ FileInfo.Name f0 = filepath.Base (ScanWork.Path work)
                /\ FileInfo.Size f0 = os.Size info
                /\ FileInfo.IsDirectory f0 = os.IsDir info
                /\ FileInfo.Extension f0 = strings.ToLower (filepath.Ext (os.Name info))
                /\ FileInfo.IsBlocked f0 = false
                /\ FileInfo.AccessError f0 = "").
  { unfold detectFileType in D.
    destruct (os.Open fs _) as [e|f]; [injection D as <- _; now repeat split|].
    destruct (os.Read f) as [buffer e]. 
    destruct e as [e|]; [destruct (String.length buffer)|];
      injection D as <- _; now repeat split. }
  destruct Hf0 as (P1 & P2 & P3 & P4 & P5 & P6 & P7).
  set (f1 := match err with Some e => FileInfo.set_AccessError f0 e | None => f0 end).
  assert (Hf1 : FileInfo.Path f1 = ScanWork.Path work
                /\ FileInfo.Name f1 = filepath.Base (ScanWork.Path work)
                /\ FileInfo.Size f1 = os.Size info
                /\ FileInfo.IsDirectory f1 = os.IsDir info
                /\ FileInfo.Extension f1 = strings.ToLower (filepath.Ext (os.Name info))
                /\ FileInfo.IsBlocked f1 = false
                /\ FileInfo.AccessError f1 = match err with Some e => e | None => "" end).
  { unfold f1. destruct err; simpl; now repeat split. }
  destruct Hf1 as (Q1 & Q2 & Q3 & Q4 & Q5 & Q6 & Q7).
  assert (HB : shouldBlockFile Match s f1 = shouldBlockFile Match s (statRecord work info)).
  { apply shouldBlockFile_metadata; [now rewrite Q3 | now rewrite Q5 | now rewrite Q2]. }
  cbv zeta. rewrite HB.
  destruct (shouldBlockFile Match s (statRecord work info)); [|rewrite Q6];
    unfold bind, addScannedFiles, addScannedSize, addBlockedFiles, sendResult, ret;
    simpl; eexists; eexists; (split; [reflexivity|]); simpl; now repeat split.
Qed.

End Workers.

(** ** The scan as a whole *)

Section WholeScan.

Variable Match : string -> string -> bool * option error.
Variable DetectContentType : string -> string.
Variable fs : os.FS.
Variable now : Z.
Variable order : list ScanWorkResult.t -> list ScanWorkResult.t.

Lemma processFile_frame (work : ScanWork.t) (s s' : Scanner) (a : unit) :
  processFile Match DetectContentType fs work s = Done a s' ->
  config s' = config s /\ workChan s' = workChan s /\ workTaken s' = workTaken s
  /\ errorChan s' = errorChan s /\ dirWg s' = dirWg s.
Proof.
  destruct (os.Stat fs (ScanWork.Path work)) as [err|info] eqn:E.
  - rewrite (processFile_stat_error _ _ _ _ _ _ E). intros [= _ <-]. now repeat split.
  - destruct (processFile_stat_ok Match DetectContentType fs _ _ s E)
      as (file & p & -> & _).
    intros [= _ <-]. now repeat split.
Qed.

Lemma keeps_worker (fuel : nat) : keeps (worker Match DetectContentType fs fuel).
Proof.
  induction fuel as [|fuel IH]; simpl; intros s a s'; [discriminate|].
  destruct (nth_error (workChan s) (workTaken s)) as [work|].
  - intros H.
    assert (K : keeps (bind (processWork Match DetectContentType fs
                               (scanDirectory fs fuel) work)
                            (fun _ => worker Match DetectContentType fs fuel))).
    { apply keeps_bind; [|intros _; exact IH].
      unfold processWork. destruct (ScanWork.IsDir work).
      - apply keeps_scanDirectory.
      - apply keeps_processFile. }
    apply K in H. destruct H as [[added [H1 H2]] [H3 H4]]. repeat split; try assumption.
    now exists added.
  - destruct (dirWg s =? 0); [|discriminate]. intros [= _ <-]. apply queuedFiles_refl.
Qed.

(** With the queue empty and a traversal still counted in [dirWg], the
    worker never returns. *)
Lemma worker_waits (fuel : nat) (s : Scanner) :
  workTaken s = List.length (workChan s) -> dirWg s <> 0 ->
  forall a s', worker Match DetectContentType fs fuel s <> Done a s'.
Proof.
  intros Ht Hd a s'. destruct fuel as [|fuel]; simpl; [discriminate|].
  replace (nth_error (workChan s) (workTaken s)) with (@None ScanWork.t)
    by (symmetry; apply nth_error_None; lia).
  apply Z.eqb_neq in Hd. rewrite Hd. discriminate.
Qed.

(** So it is when the only work item is a file while a traversal is
    counted. *)
Lemma worker_file_only (fuel : nat) (s : Scanner) (w : ScanWork.t) :
  workChan s = [w] -> workTaken s = 0%nat -> ScanWork.IsDir w = false -> dirWg s <> 0 ->
  forall a s', worker Match DetectContentType fs fuel s <> Done a s'.
Proof.
  intros Hq Ht Hw Hd a s'. destruct fuel as [|fuel]; simpl; [discriminate|].
  rewrite Hq, Ht. cbn [nth_error]. unfold processWork, bind. rewrite Hw.
  match goal with
  | |- match processFile _ _ _ w ?st with _ => _ end <> _ =>
      destruct (processFile Match DetectContentType fs w st) as [u2 s2| |] eqn:EP;
      try discriminate;
      apply processFile_frame in EP; destruct EP as (_ & P1 & P2 & _ & P3)
  end.
  apply worker_waits.
  - rewrite P2, P1. reflexivity.
  - now rewrite P3.
Qed.

(** A scan that gets past [startScan] and whose workers all return has
    queued its root as a directory, and after it only entries that are
    not directories. *)
Lemma runScan_queue (started : Z) (cfg : ScanConfig.t) (fuel : nat) (root : string)
    (s' : Scanner) :
  runScan Match DetectContentType fs fuel root (New started cfg) = Done None s' ->
  exists info rest,
    os.Stat fs root = inr info
    /\ os.IsDir info = true
    /\ workChan s' = ScanWork.mk root true 1 :: rest
    /\ Forall (fun w => ScanWork.IsDir w = false) rest.
Proof.
  unfold runScan, bind, dirWgAdd, startScan.
  destruct (os.Stat fs root) as [err|info] eqn:ES; [discriminate|].
  unfold bind, sendWork, ret.
  match goal with
  | |- match worker _ _ _ _ ?s1 with _ => _ end = _ -> _ => set (s0 := s1)
  end.
  destruct (worker Match DetectContentType fs fuel s0) as [u s1| |] eqn:EW; try discriminate.
  intros [= <-]. exists info.
  destruct (keeps_worker fuel s0 u s1 EW) as [[rest [H1 H2]] _].
  assert (Q : workChan s0 = [ScanWork.mk root (os.IsDir info) 1]) by reflexivity.
  rewrite Q in H1. exists rest.
  destruct (os.IsDir info) eqn:EI; [now repeat split|].
  exfalso. revert EW. apply (worker_file_only fuel s0 (ScanWork.mk root false 1)).
  - exact Q.
  - reflexivity.
  - reflexivity.
  - simpl. discriminate.
Qed.

(** What [Scan] is made of when it returns a result. *)
Lemma Scan_result (fuel : nat) (root : string) (s s' : Scanner) (result : ScanResult.t) :
  Scan Match DetectContentType fs now order fuel root s = Done (inr result) s' ->
  exists s1 files p,
    runScan Match DetectContentType fs fuel root s = Done None s1
    /\ collectLoop now (order (resultChan s1)) [] (progress s1) = (files, p)
    /\ s' = set_progress s1 p
    /\ result = finish fs now (config s1) root files p.
Proof.
  unfold Scan. destruct (filepath.isEmpty root); [discriminate|].
  destruct (os.Stat fs root) as [err|info]; [discriminate|].
  unfold bind at 1.
  destruct (runScan Match DetectContentType fs fuel root s) as [[e|] s1| |];
    try discriminate.
  unfold bind, collectResults, getConfig, getProgress, ret.
  destruct (collectLoop now (order (resultChan s1)) [] (progress s1)) as [files p] eqn:EC.
  intros [= <- <-]. exists s1, files, p. now repeat split.
Qed.

(** The collector keeps the records and logs the errors of what arrives. *)
Lemma collectLoop_spec (arrivals : list ScanWorkResult.t) (files files' : list FileInfo.t)
    (p p' : ScanProgress.t) :
  collectLoop now arrivals files p = (files', p') ->
  files' = (files ++ recordsOf arrivals)%list
  /\ ScanProgress.Errors p' = (ScanProgress.Errors p ++ errorsOf arrivals)%list
  /\ ScanProgress.TotalFiles p' = ScanProgress.TotalFiles p
  /\ ScanProgress.ScannedFiles p' = ScanProgress.ScannedFiles p.
Proof.
  revert files p. induction arrivals as [|res rest IH]; intros files p; simpl.
  - intros [= <- <-]. now rewrite !app_nil_r.
  - destruct (ScanWorkResult.Error res) as [e|]; intros H; apply IH in H;
      destruct H as (H1 & H2 & H3 & H4); simpl in *;
      rewrite <- ?app_assoc in *; now repeat split.
Qed.

(** The traversal and the workers leave the error log alone. *)
Lemma runScan_errors (fuel : nat) (root : string) (r : option error) (s s1 : Scanner) :
  runScan Match DetectContentType fs fuel root s = Done r s1 ->
  ScanProgress.Errors (progress s1) = ScanProgress.Errors (progress s)
  /\ config s1 = config s.
Proof.
  unfold runScan, bind, dirWgAdd, startScan.
  destruct (os.Stat fs root) as [err|info]; unfold ret; [now intros [= _ <-]|].
  unfold bind, sendWork.
  match goal with
  | |- match worker _ _ _ _ ?st with _ => _ end = _ -> _ => set (s0 := st)
  end.
  destruct (worker Match DetectContentType fs fuel s0) as [u s2| |] eqn:EW; try discriminate.
  intros [= _ <-]. destruct (keeps_worker fuel s0 u s2 EW) as (_ & E & C).
  split; [exact E | exact C].
Qed.

(** The records of the result are the results without error, in the
    order of their arrival, and the error log the scanner ends with is
    the one it started with followed by the errors of the results: what
    is sent on the error channel is in neither. *)
Lemma Scan_log (fuel : nat) (root : string) (s s' : Scanner) (result : ScanResult.t) :
  Scan Match DetectContentType fs now order fuel root s = Done (inr result) s' ->
  ScanResult.Files result = recordsOf (order (resultChan s'))
  /\ ScanProgress.Errors (progress s')
     = (ScanProgress.Errors (progress s) ++ errorsOf (order (resultChan s')))%list.
Proof.
  intros H. apply Scan_result in H. destruct H as (s1 & files & p & HR & HC & -> & ->).
  apply runScan_errors in HR. destruct HR as [HE _].
  apply collectLoop_spec in HC. destruct HC as (HF & HL & _).
  cbn [progress set_progress resultChan]. rewrite HL, HE. split; [|reflexivity].
  unfold finish. destruct (ScanConfig.ExportBlockedToJSON (config s1)); [|exact HF].
  destruct (ExportBlockedFiles fs now _ _); exact HF.
Qed.

End WholeScan.

(** ** What the traversal queues and what it handles itself *)

Lemma bind_Done {A B : Type} (m : M A) (k : A -> M B) (s s' : Scanner) (b : B) :
  bind m k s = Done b s' ->
  exists a s1, m s = Done a s1 /\ k a s1 = Done b s'.
Proof.
  unfold bind. destruct (m s) as [a s1| |]; try discriminate.
  intros H. now exists a, s1.
Qed.

Lemma bind_getConfig {B : Type} (k : ScanConfig.t -> M B) (s : Scanner) :
  bind getConfig k s = k (config s) s.
Proof. reflexivity. Qed.

Section QueuedEntries.

Variable fs : os.FS.
Variable recursive export : bool.

(** A directory that the traversal of an entry goes through is one that
    the traversal of its directory goes through. *)
Lemma traversed_below (path dir : string) (listing : list os.DirEntry)
    (entry : os.DirEntry) (info : os.FileInfo) :
  recursive = true ->
  os.ReadDir fs path = inr listing ->
  In entry listing ->
  os.Info entry = inr info ->
  os.IsDir info = true ->
  traversed fs recursive (filepath.Join path (os.EntryName entry)) dir ->
  traversed fs recursive path dir.
Proof.
  intros Hr HR Hin HI HD H.
  induction H as [|d es e i Hr' H IH HR' Hin' HI' HD'].
  - apply (traversed_entry fs recursive path path listing entry info); auto.
    apply traversed_start.
  - apply (traversed_entry fs recursive path d es e i); auto.
Qed.

(** And the other way round: it is the start or it is reached through an
    entry of the start. *)
Lemma traversed_first (path dir : string) :
  traversed fs recursive path dir ->
  dir = path
  \/ (recursive = true
      /\ exists listing entry info,
           os.ReadDir fs path = inr listing
           /\ In entry listing
           /\ os.Info entry = inr info
           /\ os.IsDir info = true
           /\ traversed fs recursive (filepath.Join path (os.EntryName entry)) dir).
Proof.
  induction 1 as [|d es e i Hr H IH HR Hin HI HD].
  - now left.
  - right. split; [exact Hr|].
    destruct IH as [-> | (_ & l1 & e1 & i1 & A & B & C & D & E)].
    + exists es, e, i. repeat split; auto. apply traversed_start.
    + exists l1, e1, i1. repeat split; auto.
      apply (traversed_entry fs recursive _ d es e i); auto.
Qed.

Lemma queuedEntry_below (path : string) (listing : list os.DirEntry)
    (entry : os.DirEntry) (info : os.FileInfo) (w : ScanWork.t) :
  recursive = true ->
  os.ReadDir fs path = inr listing ->
  In entry listing ->
  os.Info entry = inr info ->
  os.IsDir info = true ->
  queuedEntry fs recursive export (filepath.Join path (os.EntryName entry)) w ->
  queuedEntry fs recursive export path w.
Proof.
  intros Hr HR Hin HI HD (d & es & e & i & T & A & B & C & D & E & F).
  exists d, es, e, i. repeat split; auto.
  now apply (traversed_below path d listing entry info).
Qed.

Lemma grows_refl (s : Scanner) : grows s s.
Proof.
  repeat split; exists []; now rewrite app_nil_r.
Qed.

Lemma grows_trans (s1 s2 s3 : Scanner) : grows s1 s2 -> grows s2 s3 -> grows s1 s3.
Proof.
  intros (C1 & T1 & [w1 W1] & [r1 R1]) (C2 & T2 & [w2 W2] & [r2 R2]).
  repeat split; try congruence.
  - exists (w1 ++ w2)%list. now rewrite W2, W1, app_assoc.
  - exists (r1 ++ r2)%list. now rewrite R2, R1, app_assoc.
Qed.

Lemma grows_result (s s' : Scanner) (r : ScanWorkResult.t) :
  grows s s' -> In r (resultChan s) -> In r (resultChan s').
Proof.
  intros (_ & _ & _ & [added ->]) H. apply in_or_app. now left.
Qed.

Lemma grows_work (s s' : Scanner) (w : ScanWork.t) :
  grows s s' -> In w (workChan s) -> In w (workChan s').
Proof.
  intros (_ & _ & [added ->] & _) H. apply in_or_app. now left.
Qed.

Lemma entryHandled_grows (s s' : Scanner) (dir : string) (entry : os.DirEntry) :
  grows s s' -> entryHandled export s dir entry -> entryHandled export s' dir entry.
Proof.
  intros G. unfold entryHandled. destruct (os.Info entry) as [err|info]; [auto|].
  destruct (os.IsDir info).
  - now apply grows_result.
  - intros H E. apply (grows_work s s' _ G). now apply H.
Qed.


(** The sends and the counters leave the queue and the results as they
    are, or add to them. *)
Lemma grows_sendError (e : error) (s s' : Scanner) (a : unit) :
  sendError e s = Done a s' ->
  grows s s' /\ workChan s' = workChan s /\ resultChan s' = resultChan s.
Proof.
  unfold sendError. destruct (_ <? _); [|discriminate]. intros [= _ <-].
  split; [|now split].
  repeat split; exists []; cbn; now rewrite app_nil_r.
Qed.

(** The traversal of the entries [entries] of [path], when every
    traversal it starts does what [traversal] says. *)
Lemma scanEntries_traversal (spawn : string -> M unit) (path root : string)
    (listing : list os.DirEntry) :
  os.ReadDir fs path = inr listing ->
  (forall fullPath s a s',
      spawn fullPath s = Done a s' ->
      ScanConfig.ScanRecursively (config s) = recursive ->
      ScanConfig.ExportBlockedToJSON (config s) = export ->
      traversal fs recursive export fullPath root s s') ->
  forall entries s a s',
    incl entries listing ->
    ScanConfig.ScanRecursively (config s) = recursive ->
    ScanConfig.ExportBlockedToJSON (config s) = export ->
    scanEntries spawn path root entries s = Done a s' ->
    grows s s'
    /\ (exists added, workChan s' = (workChan s ++ added)%list
                      /\ Forall (queuedEntry fs recursive export path) added)
    /\ (recursive = true \/ path = root ->
        forall entry, In entry entries ->
          entryHandled export s' path entry
          /\ (forall info dir es e,
                os.Info entry = inr info -> os.IsDir info = true ->
                recursive = true ->
                traversed fs recursive (filepath.Join path (os.EntryName entry)) dir ->
                os.ReadDir fs dir = inr es -> In e es ->
                entryHandled export s' dir e)).
Proof.
  intros HR Hspawn. induction entries as [|entry rest IH]; intros s a s' Hincl Hrec Hexp H.
  - injection H as _ <-. split; [apply grows_refl|]. split.
    + exists []. split; [now rewrite app_nil_r | constructor].
    + intros _ entry [].
  - assert (Hin : In entry listing) by (apply Hincl; now left).
    assert (Hrest : incl rest listing) by (intros x Hx; apply Hincl; now right).
    cbn [scanEntries] in H.
    (* what the step for [entry] does, from [s] to [s1] *)
    assert (Step : exists s1,
               scanEntries spawn path root rest s1 = Done a s'
               /\ grows s s1
               /\ (exists added, workChan s1 = (workChan s ++ added)%list
                                 /\ Forall (queuedEntry fs recursive export path) added)
               /\ (recursive = true \/ path = root ->
                   entryHandled export s1 path entry
                   /\ (forall info dir es e,
                         os.Info entry = inr info -> os.IsDir info = true ->
                         recursive = true ->
                         traversed fs recursive
                           (filepath.Join path (os.EntryName entry)) dir ->
                         os.ReadDir fs dir = inr es -> In e es ->
                         entryHandled export s1 dir e))).
    { destruct (os.Info entry) as [err|info] eqn:EI.
      - apply bind_Done in H. destruct H as (u & s1 & H1 & H2).
        apply grows_sendError in H1. destruct H1 as (G & W & R).
        exists s1. split; [exact H2|]. split; [exact G|]. split.
        + exists []. split; [now rewrite app_nil_r | constructor].
        + intros _. split.
          * unfold entryHandled. now rewrite EI.
          * intros info dir es e HI. discriminate.
      - rewrite bind_getConfig in H. apply bind_Done in H.
        destruct H as (u & s1 & H1 & H2). exists s1. split; [exact H2|].
        rewrite Hrec, Hexp in H1.
        destruct (os.IsDir info) eqn:ED.
        + destruct (Bool.bool_dec recursive true) as [ER|ER].
          * (* the record is sent and the directory traversed *)
            rewrite ER in H1.
            unfold bind, dirWgAdd, sendResult, addTotalFiles in H1.
            cbv beta iota zeta in H1.
            match type of H1 with
            | spawn _ ?s0 = _ => set (s0' := s0) in *
            end.
            assert (G0 : grows s s0').
            { repeat split; [exists []; cbn; now rewrite app_nil_r|].
              now exists [dirRecord (filepath.Join path (os.EntryName entry)) (os.Name info)]. }
            apply Hspawn in H1; [|exact Hrec|exact Hexp].
            destruct H1 as (G1 & (added & W & Q) & _ & HH).
            split; [exact (grows_trans _ _ _ G0 G1)|]. split.
            -- exists added. split; [exact W|].
               eapply Forall_impl; [|exact Q]. intros w Hw.
               now apply (queuedEntry_below path listing entry info).
            -- intros _. split.
               ++ unfold entryHandled. rewrite EI, ED.
                  apply (grows_result s0' s1 _ G1). apply in_or_app. right. now left.
               ++ intros info' dir es e _ _ _ T HR' He.
                  apply (HH (or_introl ER) dir es e T HR' He).
          * apply not_true_is_false in ER. rewrite ER in H1.
            destruct (String.eqb path root) eqn:EP.
            -- unfold bind, sendResult, addTotalFiles in H1. injection H1 as _ <-.
               split.
               ++ repeat split; [exists []; cbn; now rewrite app_nil_r|].
                  now exists [dirRecord (filepath.Join path (os.EntryName entry))
                                        (os.Name info)].
               ++ split.
                  ** exists []. split; [cbn; now rewrite app_nil_r | constructor].
                  ** intros _. split.
                     --- unfold entryHandled. rewrite EI, ED. cbn [resultChan set_progress].
                         apply in_or_app. right. now left.
                     --- intros info' dir es e _ _ Hr. congruence.
            -- injection H1 as _ <-. split; [apply grows_refl|]. split.
               ++ exists []. split; [now rewrite app_nil_r | constructor].
               ++ intros [Hr | Hp]; [congruence|].
                  apply String.eqb_neq in EP. contradiction.
        + destruct (export && _) eqn:EX.
          * injection H1 as _ <-. split; [apply grows_refl|]. split.
            -- exists []. split; [now rewrite app_nil_r | constructor].
            -- intros _. split.
               ++ unfold entryHandled. rewrite EI, ED. cbv zeta. rewrite EX. discriminate.
               ++ intros info' dir es e HI HD. congruence.
          * unfold sendWork in H1. injection H1 as _ <-. split.
            -- repeat split; [|exists []; cbn; now rewrite app_nil_r].
               now exists [ScanWork.mk (filepath.Join path (os.EntryName entry)) false 1].
            -- split.
               ++ exists [ScanWork.mk (filepath.Join path (os.EntryName entry)) false 1].
                  split; [reflexivity|]. constructor; [|constructor].
                  exists path, listing, entry, info. repeat split; auto.
                  apply traversed_start.
               ++ intros _. split.
                  ** unfold entryHandled. rewrite EI, ED. intros _.
                     cbn [workChan]. apply in_or_app. right. now left.
                  ** intros info' dir es e HI HD. congruence. }
    destruct Step as (s1 & H2 & G1 & (added1 & W1 & Q1) & HH1).
    assert (C1 : config s1 = config s) by apply G1.
    apply IH in H2; [|exact Hrest|now rewrite C1|now rewrite C1].
    destruct H2 as (G2 & (added2 & W2 & Q2) & HH2).
    split; [exact (grows_trans _ _ _ G1 G2)|]. split.
    + exists (added1 ++ added2)%list. split.
      * now rewrite W2, W1, app_assoc.
      * apply Forall_app. now split.
    + intros Hcase entry' [<- | Hin'].
      * destruct (HH1 Hcase) as [E1 E2]. split.
        -- now apply (entryHandled_grows s1 s').
        -- intros info dir es e HI HD Hr T HR' He.
           apply (entryHandled_grows s1 s' _ _ G2).
           now apply (E2 info dir es e).
      * now apply HH2.
Qed.


(** The traversal of a directory does what [traversal] says. *)
Lemma scanDirectory_traversal (root : string) (fuel : nat) :
  forall (path : string) (s : Scanner) (a : unit) (s' : Scanner),
    scanDirectory fs fuel path root s = Done a s' ->
    ScanConfig.ScanRecursively (config s) = recursive ->
    ScanConfig.ExportBlockedToJSON (config s) = export ->
    traversal fs recursive export path root s s'.
Proof.
  induction fuel as [|fuel IH]; intros path s a s' H Hrec Hexp; [discriminate|].
  cbn [scanDirectory] in H.
  apply bind_Done in H. destruct H as (u1 & s1 & H1 & H).
  apply bind_Done in H. destruct H as (u2 & s2 & H2 & H3).
  assert (First : grows s s1 /\ workChan s1 = workChan s
                  /\ (path = root -> In (dirRecord path (filepath.Base path)) (resultChan s1))).
  { destruct (String.eqb path root) eqn:EP.
    - unfold bind, sendResult, addTotalFiles in H1. injection H1 as _ <-.
      split; [|split; [reflexivity|]].
      + repeat split; [exists []; cbn; now rewrite app_nil_r|].
        now exists [dirRecord path (filepath.Base path)].
      + intros _. cbn [resultChan set_progress]. apply in_or_app. right. now left.
    - injection H1 as _ <-. split; [apply grows_refl|]. split; [reflexivity|].
      intros Hp. apply String.eqb_neq in EP. contradiction. }
  destruct First as (G1 & W1 & R1).
  assert (Last : grows s2 s' /\ workChan s' = workChan s2 /\ resultChan s' = resultChan s2).
  { unfold dirWgAdd in H3. injection H3 as _ <-. split; [|now split].
    repeat split; exists []; cbn; now rewrite app_nil_r. }
  destruct Last as (G3 & W3 & R3).
  assert (C1 : config s1 = config s) by apply G1.
  destruct (os.ReadDir fs path) as [err|listing] eqn:HR.
  - apply grows_sendError in H2. destruct H2 as (G2 & W2 & R2).
    split; [exact (grows_trans _ _ _ G1 (grows_trans _ _ _ G2 G3))|]. split.
    + exists []. split; [|constructor]. rewrite app_nil_r. congruence.
    + split.
      * intros Hp. rewrite R3, R2. now apply R1.
      * intros _ dir entries entry T HR' Hin.
        apply traversed_first in T.
        destruct T as [-> | (_ & l & e & i & A & _)]; congruence.
  - apply (scanEntries_traversal _ path root listing HR) in H2.
    + destruct H2 as (G2 & (added & W2 & Q2) & HH).
      split; [exact (grows_trans _ _ _ G1 (grows_trans _ _ _ G2 G3))|]. split.
      * exists added. split; [congruence | exact Q2].
      * split.
        -- intros Hp. rewrite R3. apply (grows_result s1 s2 _ G2). now apply R1.
        -- intros Hcase dir entries entry T HR' Hin.
           apply (entryHandled_grows s2 s' _ _ G3).
           apply traversed_first in T.
           destruct T as [-> | (Hr & l & e & i & A & B & C & D & T)].
           ++ assert (entries = listing) by congruence. subst entries.
              now apply (HH Hcase entry Hin).
           ++ assert (l = listing) by congruence. subst l.
              destruct (HH Hcase e B) as [_ Sub].
              now apply (Sub i dir entries entry).
    + intros fullPath t b t' Ht Hr He. now apply (IH fullPath t b t').
    + apply incl_refl.
    + now rewrite C1.
    + now rewrite C1.
Qed.

Variable Match : string -> string -> bool * option error.
Variable DetectContentType : string -> string.

Lemma skipn_at_nth_error {A : Type} (l : list A) (n : nat) (x : A) :
  nth_error l n = Some x -> skipn n l = x :: skipn (S n) l.
Proof.
  revert l. induction n as [|n IH]; intros [|y l]; simpl; try discriminate.
  - now intros [= ->].
  - intros H. now apply IH.
Qed.

(** A worker that finds nothing but files on the queue adds nothing to it. *)
Lemma worker_files (fuel : nat) :
  forall (s : Scanner) (a : unit) (s' : Scanner),
    Forall (fun w => ScanWork.IsDir w = false) (skipn (workTaken s) (workChan s)) ->
    worker Match DetectContentType fs fuel s = Done a s' ->
    workChan s' = workChan s
    /\ exists added, resultChan s' = (resultChan s ++ added)%list.
Proof.
  induction fuel as [|fuel IH]; intros s a s' HF H; [discriminate|].
  cbn [worker] in H.
  destruct (nth_error (workChan s) (workTaken s)) as [work|] eqn:EN.
  - apply skipn_at_nth_error in EN. rewrite EN in HF. inversion HF as [|w l Hw Hl]; subst.
    apply bind_Done in H. destruct H as (u & s1 & H1 & H2).
    unfold processWork in H1. rewrite Hw in H1.
    assert (P : workChan s1 = workChan s /\ workTaken s1 = S (workTaken s)
                /\ exists added, resultChan s1 = (resultChan s ++ added)%list).
    { destruct (os.Stat fs (ScanWork.Path work)) as [err|info] eqn:ES.
      - rewrite (processFile_stat_error Match DetectContentType fs work err _ ES) in H1.
        injection H1 as E. subst s1. repeat split. eexists. reflexivity.
      - destruct (processFile_stat_ok Match DetectContentType fs work info
                    (mkScanner (config s) (progress s) (workChan s) (S (workTaken s))
                               (resultChan s) (errorChan s) (dirWg s)) ES)
          as (file & p & HP & _).
        rewrite HP in H1. injection H1 as E. subst s1. repeat split. eexists. reflexivity. }
    destruct P as (PW & PT & [added1 PR]).
    apply IH in H2.
    + destruct H2 as (W & [added2 R]). split; [congruence|].
      exists (added1 ++ added2)%list. now rewrite R, PR, app_assoc.
    + now rewrite PW, PT.
  - destruct (dirWg s =? 0); [|discriminate]. injection H as E. subst s'.
    split; [reflexivity|]. exists []. now rewrite app_nil_r.
Qed.

(** [New] leaves the two switches of the traversal as they are given. *)
Lemma New_flags (started : Z) (cfg : ScanConfig.t) :
  ScanConfig.ScanRecursively (config (New started cfg)) = ScanConfig.ScanRecursively cfg
  /\ ScanConfig.ExportBlockedToJSON (config (New started cfg))
     = ScanConfig.ExportBlockedToJSON cfg.
Proof.
  destruct cfg as [m allowed patterns r e w b]. unfold New. cbn.
  destruct (w <=? 0); cbn; destruct (b <=? 0); split; reflexivity.
Qed.

(** A scan whose workers all return: the root is queued as a directory,
    the items after it are entries that are not directories, and every
    entry of every directory the traversal went through has been handled,
    the directories by their record on the result channel. *)
Lemma runScan_traversal (started : Z) (cfg : ScanConfig.t) (fuel : nat) (root : string)
    (s' : Scanner) :
  ScanConfig.ScanRecursively cfg = recursive ->
  ScanConfig.ExportBlockedToJSON cfg = export ->
  runScan Match DetectContentType fs fuel root (New started cfg) = Done None s' ->
  exists rest,
    workChan s' = ScanWork.mk root true 1 :: rest
    /\ Forall (queuedEntry fs recursive export root) rest
    /\ In (dirRecord root (filepath.Base root)) (resultChan s')
    /\ (forall dir entries entry,
          traversed fs recursive root dir ->
          os.ReadDir fs dir = inr entries ->
          In entry entries ->
          entryHandled export s' dir entry).
Proof.
  intros Hrec Hexp H.
  destruct (runScan_queue Match DetectContentType fs started cfg fuel root s' H)
    as (info & rest0 & HS & HD & _).
  revert H. unfold runScan, bind, dirWgAdd, startScan. rewrite HS, HD.
  unfold bind, sendWork, ret.
  match goal with
  | |- match worker _ _ _ _ ?s1 with _ => _ end = _ -> _ => set (s0 := s1)
  end.
  destruct (worker Match DetectContentType fs fuel s0) as [u s1| |] eqn:EW; try discriminate.
  intros [= <-].
  destruct fuel as [|fuel]; [discriminate|].
  cbn [worker] in EW.
  change (nth_error (workChan s0) (workTaken s0)) with (Some (ScanWork.mk root true 1)) in EW.
  apply bind_Done in EW. destruct EW as (u1 & s2 & H1 & H2).
  unfold processWork in H1. cbn [ScanWork.IsDir ScanWork.Path] in H1.
  apply scanDirectory_traversal in H1.
  - destruct H1 as (G & (added & W & Q) & R & HH).
    assert (T : workTaken s2 = 1%nat) by (destruct G as (_ & T & _); exact T).
    assert (W' : workChan s2 = ScanWork.mk root true 1 :: added) by exact W.
    apply worker_files in H2.
    + destruct H2 as (W2 & [added2 R2]).
      exists added. split; [congruence|]. split; [exact Q|]. split.
      * rewrite R2. apply in_or_app. left. now apply R.
      * intros dir entries entry Tr HR Hin.
        specialize (HH (or_intror eq_refl) dir entries entry Tr HR Hin).
        revert HH. unfold entryHandled.
        destruct (os.Info entry) as [err|i]; [auto|].
        destruct (os.IsDir i).
        -- rewrite R2. intros HI. apply in_or_app. now left.
        -- now rewrite W2.
    + rewrite T, W'. cbn [skipn].
      eapply Forall_impl; [|exact Q].
      intros w (d & es & e & i & _ & _ & _ & _ & _ & _ & ->). reflexivity.
  - change (ScanConfig.ScanRecursively (config (New started cfg)) = recursive).
    now rewrite (proj1 (New_flags started cfg)).
  - change (ScanConfig.ExportBlockedToJSON (config (New started cfg)) = export).
    now rewrite (proj2 (New_flags started cfg)).
Qed.

End QueuedEntries.

(** ** Properties of the scan *)

(** C7, as the code has it: in a scan that returns, the work queue has
    received the root of the scan, which is a directory and is queued as
    one by [startScan], and after it only work items that are not
    directories: each is made of an entry, of the root or of a directory
    the traversal went through below it, whose info says that it is not a
    directory.  The directories the traversal handles itself: it has sent
    the record of the root on the result channel, and, for every
    directory it went through, the record of every entry that is a
    directory, while every entry that is not one has been queued (but for
    the export file). *)
Theorem only_the_root_is_queued_as_directory
    (Match : string -> string -> bool * option error)
    (DetectContentType : string -> string) (fs : os.FS) (started now : Z)
    (order : list ScanWorkResult.t -> list ScanWorkResult.t)
    (cfg : ScanConfig.t) (fuel : nat) (root : string)
    (result : ScanResult.t) (s' : Scanner) :
  Scan Match DetectContentType fs now order fuel root (New started cfg)
  = Done (inr result) s' ->
  exists info rest,
    os.Stat fs root = inr info
    /\ os.IsDir info = true
    /\ workChan s' = ScanWork.mk root true 1 :: rest
    /\ Forall (fun w => ScanWork.IsDir w = false) rest
    /\ Forall (queuedEntry fs (ScanConfig.ScanRecursively cfg)
                           (ScanConfig.ExportBlockedToJSON cfg) root) rest
    /\ In (dirRecord root (filepath.Base root)) (resultChan s')
    /\ (forall dir entries entry,
          traversed fs (ScanConfig.ScanRecursively cfg) root dir ->
          os.ReadDir fs dir = inr entries ->
          In entry entries ->
          entryHandled (ScanConfig.ExportBlockedToJSON cfg) s' dir entry).
Proof.
  intros H. apply Scan_result in H. destruct H as (s1 & files & p & HR & _ & -> & _).
  destruct (runScan_queue Match DetectContentType fs started cfg fuel root s1 HR)
    as (info & rest0 & HS & HD & W0 & F0).
  destruct (runScan_traversal fs (ScanConfig.ScanRecursively cfg)
              (ScanConfig.ExportBlockedToJSON cfg) Match DetectContentType
              started cfg fuel root s1 eq_refl eq_refl HR)
    as (rest & W & Q & R & HH).
  assert (E : rest0 = rest) by congruence. subst rest0.
  exists info, rest.
  refine (conj HS (conj HD (conj W (conj F0 (conj Q (conj R _)))))).
  intros dir entries entry T HR' Hin. exact (HH dir entries entry T HR' Hin).
Qed.

Lemma only_the_root_is_queued_as_directory_witness :
  exists info rest,
    os.Stat Sample.testTree "/data" = inr info
    /\ os.IsDir info = true
    /\ workChan (Sample.scannerOf Sample.treeScan) = ScanWork.mk "/data" true 1 :: rest
    /\ Forall (fun w => ScanWork.IsDir w = false) rest
    /\ Forall (queuedEntry Sample.testTree true true "/data") rest
    /\ In (dirRecord "/data" "data") (resultChan (Sample.scannerOf Sample.treeScan))
    /\ (forall dir entries entry,
          traversed Sample.testTree true "/data" dir ->
          os.ReadDir Sample.testTree dir = inr entries ->
          In entry entries ->
          entryHandled true (Sample.scannerOf Sample.treeScan) dir entry).
Proof.
  apply (only_the_root_is_queued_as_directory filepath.Match Sample.sniff
           Sample.testTree 1700000000 1700000100 (fun l => l) (Sample.testConfig true)
           100 "/data"
           (Sample.resultOf Sample.treeScan)).
  vm_compute. reflexivity.
Defined.

(** In the scan of the test tree the queue holds the root and the three
    files, [/data/subdir] is not on it, and its record is among the
    results sent. *)
Example subdirectory_is_not_queued :
  map ScanWork.Path (workChan (Sample.scannerOf Sample.treeScan))
  = ["/data"; "/data/large.txt"; "/data/small.txt"; "/data/subdir/test.txt"]
  /\ In (dirRecord "/data/subdir" "subdir")
        (resultChan (Sample.scannerOf Sample.treeScan)).
Proof. vm_compute. split; [reflexivity | auto]. Qed.

(** C7 as stated fails: the scan of the test tree has put a directory, its
    root, on the work queue. *)
Lemma root_directory_is_queued :
  hd_error (workChan (Sample.scannerOf Sample.treeScan)) = Some (ScanWork.mk "/data" true 1).
Proof. vm_compute. reflexivity. Qed.

(** C4, as the code has it: [Success] says whether the error log was empty
    when the progress was copied into the result, before the export.  The
    log of the result is that log, followed by one more string when the
    export has failed; the export leaves [Success] as it was. *)
Theorem success_is_set_before_export
    (Match : string -> string -> bool * option error)
    (DetectContentType : string -> string) (fs : os.FS) (now : Z)
    (order : list ScanWorkResult.t -> list ScanWorkResult.t)
    (fuel : nat) (root : string) (s s' : Scanner) (result : ScanResult.t) :
  Scan Match DetectContentType fs now order fuel root s = Done (inr result) s' ->
  let frozen := ScanProgress.Errors (progress s') in
  let beforeExport :=
    ScanResult.mk (ScanResult.Files result) (progress s')
      (ScanResult.Duration result) (ScanResult.Success result) "" in
  (ScanResult.Success result = true <-> frozen = [])
  /\ ScanProgress.Errors (ScanResult.Progress result)
     = (frozen ++
        if ScanConfig.ExportBlockedToJSON (config s') then
          match ExportBlockedFiles fs now beforeExport
                  (filepath.Join root "blocked_files.json") with
          | Some err => [("Failed to export blocked files: " ++ err)%string]
          | None => []
          end
        else [])%list.
Proof.
  intros H. apply Scan_result in H. destruct H as (s1 & files & p & _ & _ & -> & ->).
  cbv zeta. unfold finish. cbn [progress set_progress config].
  assert (E : Nat.eqb (List.length (ScanProgress.Errors p)) 0 = true
              <-> ScanProgress.Errors p = []).
  { destruct (ScanProgress.Errors p); simpl; split; congruence. }
  destruct (ScanConfig.ExportBlockedToJSON (config s1)).
  - destruct (ExportBlockedFiles fs now _ _) as [err|] eqn:EX;
      cbn [ScanResult.Files ScanResult.Progress ScanResult.Duration ScanResult.Success
           ScanResult.Error ScanProgress.Errors ScanProgress.set_Errors] in *;
      rewrite EX; (split; [exact E|]); [reflexivity | now rewrite app_nil_r].
  - cbn [ScanResult.Files ScanResult.Progress ScanResult.Duration ScanResult.Success].
    split; [exact E | now rewrite app_nil_r].
Qed.

Lemma success_is_set_before_export_witness :
  let s' := Sample.scannerOf Sample.treeScan in
  let result := Sample.resultOf Sample.treeScan in
  let frozen := ScanProgress.Errors (progress s') in
  let beforeExport :=
    ScanResult.mk (ScanResult.Files result) (progress s')
      (ScanResult.Duration result) (ScanResult.Success result) "" in
  (ScanResult.Success result = true <-> frozen = [])
  /\ ScanProgress.Errors (ScanResult.Progress result)
     = (frozen ++
        if ScanConfig.ExportBlockedToJSON (config s') then
          match ExportBlockedFiles Sample.testTree 1700000100 beforeExport
                  (filepath.Join "/data" "blocked_files.json") with
          | Some err => [("Failed to export blocked files: " ++ err)%string]
          | None => []
          end
        else [])%list.
Proof.
  apply (success_is_set_before_export filepath.Match Sample.sniff Sample.testTree
           1700000100 (fun l => l) 100 "/data" (New 1700000000 (Sample.testConfig true))).
  vm_compute. reflexivity.
Defined.

(** C4 as stated fails: where the export file cannot be created, the scan
    of a readable tree returns [Success = true] with an error in its log. *)
Lemma export_failure_keeps_success :
  let result :=
    Sample.resultOf (Sample.scan Sample.readOnlyTree (Sample.testConfig true) "/data") in
  ScanResult.Success result = true
  /\ ScanProgress.Errors (ScanResult.Progress result)
     = ["Failed to export blocked files: failed to create output file: open /data/blocked_files.json: read-only file system"].
Proof. vm_compute. split; reflexivity. Qed.

(** C6, as the code has it: when [os.Stat] answers and the start of the
    file cannot be read, the worker sends one record whose access error
    is the message of the read error; whether the record is blocked is
    decided by the three rules on the size, extension and name alone,
    and nothing is added to the error log. *)
Theorem unreadable_file_record
    (Match : string -> string -> bool * option error)
    (DetectContentType : string -> string) (fs : os.FS)
    (scanDirectory : string -> string -> M unit)
    (work : ScanWork.t) (info : os.FileInfo) (e : error) (s : Scanner) :
  ScanWork.IsDir work = false ->
  os.Stat fs (ScanWork.Path work) = inr info ->
  readFails fs (ScanWork.Path work) e ->
  exists (file : FileInfo.t) (p : ScanProgress.t),
    processWork Match DetectContentType fs scanDirectory work s
    = Done tt
        (mkScanner (config s) p (workChan s) (workTaken s)
           (resultChan s ++ [ScanWorkResult.mk file None]) (errorChan s) (dirWg s))
    /\ ScanProgress.Errors p = ScanProgress.Errors (progress s)
    /\ FileInfo.AccessError file = e
    /\ FileInfo.IsBlocked file = shouldBlockFile Match s (statRecord work info).
Proof.
  intros Hd Hs Hr. unfold processWork. rewrite Hd.
  destruct (processFile_stat_ok Match DetectContentType fs work info s Hs)
    as (file & p & HP & HE & _ & _ & _ & _ & _ & _ & _ & HB & HA).
  exists file, p. repeat split; try assumption.
  rewrite HA, (detectFileType_readFails DetectContentType fs (statRecord work info) e Hr).
  reflexivity.
Qed.

Lemma unreadable_file_record_witness :
  let s := New 1700000000 (Sample.testConfig true) in
  let work := ScanWork.mk "/data/secret.txt" false 1 in
  let info := Sample.regular "secret.txt" 10 in
  exists (file : FileInfo.t) (p : ScanProgress.t),
    processWork filepath.Match Sample.sniff Sample.lockedFileTree
      (scanDirectory Sample.lockedFileTree 100) work s
    = Done tt
        (mkScanner (config s) p (workChan s) (workTaken s)
           (resultChan s ++ [ScanWorkResult.mk file None]) (errorChan s) (dirWg s))
    /\ ScanProgress.Errors p = ScanProgress.Errors (progress s)
    /\ FileInfo.AccessError file = "open /data/secret.txt: permission denied"
    /\ FileInfo.IsBlocked file = shouldBlockFile filepath.Match s (statRecord work info).
Proof.
  apply (unreadable_file_record filepath.Match Sample.sniff Sample.lockedFileTree).
  - reflexivity.
  - reflexivity.
  - left. reflexivity.
Defined.

(** C6 as stated fails: a file of ten bytes that cannot be opened gets its
    access error and is not blocked. *)
Lemma unreadable_file_is_not_blocked :
  let files :=
    Sample.filesOf (Sample.scan Sample.lockedFileTree (Sample.testConfig true) "/data") in
  exists file,
    In file files
    /\ FileInfo.Path file = "/data/secret.txt"
    /\ FileInfo.IsDirectory file = false
    /\ FileInfo.AccessError file = "open /data/secret.txt: permission denied"
    /\ FileInfo.IsBlocked file = false.
Proof.
  vm_compute. eexists. split; [right; left; reflexivity|]. repeat split.
Qed.

(** C8: [New] gives defaults to the worker count and the buffer size and
    to nothing else; with [MaxFileSizeMB] left at 0 the limit is 0 bytes
    and every file with a size above 0 is blocked by the size rule. *)
Theorem max_size_has_no_default
    (Match : string -> string -> bool * option error)
    (started : Z) (cfg : ScanConfig.t) :
  let s := New started cfg in
  ScanConfig.MaxFileSizeMB (config s) = ScanConfig.MaxFileSizeMB cfg
  /\ ScanConfig.AllowedTypes (config s) = ScanConfig.AllowedTypes cfg
  /\ ScanConfig.BlockedPatterns (config s) = ScanConfig.BlockedPatterns cfg
  /\ ScanConfig.ScanRecursively (config s) = ScanConfig.ScanRecursively cfg
  /\ ScanConfig.ExportBlockedToJSON (config s) = ScanConfig.ExportBlockedToJSON cfg
  /\ ScanConfig.WorkerCount (config s)
     = (if ScanConfig.WorkerCount cfg <=? 0 then 4 else ScanConfig.WorkerCount cfg)
  /\ ScanConfig.BufferSize (config s)
     = (if ScanConfig.BufferSize cfg <=? 0 then 1000 else ScanConfig.BufferSize cfg)
  /\ (ScanConfig.MaxFileSizeMB cfg = 0 ->
      sizeLimit s = 0
      /\ forall file, FileInfo.Size file > 0 ->
           isFileSizeAllowed s (FileInfo.Size file) = false
           /\ shouldBlockFile Match s file = true
           /\ getBlockReason Match s file = "File size exceeds limit").
Proof.
  assert (C : let s := New started cfg in
              ScanConfig.MaxFileSizeMB (config s) = ScanConfig.MaxFileSizeMB cfg
              /\ ScanConfig.AllowedTypes (config s) = ScanConfig.AllowedTypes cfg
              /\ ScanConfig.BlockedPatterns (config s) = ScanConfig.BlockedPatterns cfg
              /\ ScanConfig.ScanRecursively (config s) = ScanConfig.ScanRecursively cfg
              /\ ScanConfig.ExportBlockedToJSON (config s) = ScanConfig.ExportBlockedToJSON cfg
              /\ ScanConfig.WorkerCount (config s)
                 = (if ScanConfig.WorkerCount cfg <=? 0 then 4 else ScanConfig.WorkerCount cfg)
              /\ ScanConfig.BufferSize (config s)
                 = (if ScanConfig.BufferSize cfg <=? 0 then 1000 else ScanConfig.BufferSize cfg)).
  { unfold New. cbn [config].
    destruct (ScanConfig.WorkerCount cfg <=? 0);
      cbn [ScanConfig.BufferSize]; destruct (ScanConfig.BufferSize cfg <=? 0);
      cbn; now repeat split. }
  cbv zeta in *. destruct C as (C1 & C2 & C3 & C4 & C5 & C6 & C7).
  repeat (split; [assumption|]).
  intros H0.
  assert (L : sizeLimit (New started cfg) = 0).
  { unfold sizeLimit. rewrite C1, H0. reflexivity. }
  split; [exact L|]. intros file Hsize.
  split.
  - rewrite isFileSizeAllowed_limit, L. apply Z.leb_gt. lia.
  - apply size_rule_blocks. rewrite L. exact Hsize.
Qed.

Lemma max_size_has_no_default_witness :
  let cfg := ScanConfig.mk 0 [] [] true false 0 0 in
  let s := New 1700000000 cfg in
  let file := statRecord (ScanWork.mk "/data/a.txt" false 1) (Sample.regular "a.txt" 1) in
  config s = ScanConfig.mk 0 [] [] true false 4 1000
  /\ sizeLimit s = 0
  /\ shouldBlockFile filepath.Match s file = true
  /\ getBlockReason filepath.Match s file = "File size exceeds limit".
Proof.
  cbv zeta.
  destruct (max_size_has_no_default filepath.Match 1700000000
              (ScanConfig.mk 0 [] [] true false 0 0))
    as (_ & _ & _ & _ & _ & _ & _ & H).
  destruct (H eq_refl) as [L B].
  destruct (B (statRecord (ScanWork.mk "/data/a.txt" false 1) (Sample.regular "a.txt" 1))
              eq_refl) as (_ & B1 & B2).
  repeat split; assumption.
Defined.

(** Under the folding of single bytes two strings are equal exactly when
    they are the same in lower case. *)
Lemma EqualFold_ToLower_eq (s t : string) :
  strings.EqualFold s t = true <-> strings.ToLower s = strings.ToLower t.
Proof.
  revert t. induction s as [|c s IH]; intros [|d t]; simpl; split;
    try congruence; try reflexivity.
  - intros H. apply andb_true_iff in H. destruct H as [H1 H2].
    apply Ascii.eqb_eq in H1. apply IH in H2. congruence.
  - intros [= H1 H2]. apply andb_true_iff. split.
    + now apply Ascii.eqb_eq.
    + now apply IH.
Qed.

(** A string that starts with the dot is not equal under folding to a
    string that is not empty and starts with something else. *)
Lemma EqualFold_dot (rest entry : string) :
  (forall r, entry <> String "."%char r) ->
  strings.EqualFold (String "."%char rest) entry = false.
Proof.
  intros Hdot. destruct entry as [|c entry]; [reflexivity|]. cbn [strings.EqualFold].
  change (strings.lower "."%char) with "."%char.
  destruct (Ascii.eqb "."%char (strings.lower c)) eqn:Ec; [|reflexivity].
  apply Ascii.eqb_eq in Ec. symmetry in Ec. apply lower_dot in Ec. subst c.
  exfalso. now apply (Hdot entry).
Qed.

(** C9, as the code has it, for a file a worker handles.  The extension
    it stores is [ToLower(Ext(name))], which is empty or starts with the
    dot.  With the size within the limit, an allow-list that is not empty
    and no pattern that matches, the record is let through exactly when
    [EqualFold] finds the stored extension equal to an entry of the
    list; for a name and entries in ASCII that is exactly when an entry,
    in lower case, is the stored extension.  So with an allow-list that
    is not empty and has no empty entry a file without extension is
    blocked; an entry that is not empty and does not start with a dot is
    not equal to the stored extension, whatever the file; and with an
    allow-list of such entries the file is blocked. *)
Theorem extension_matching
    (Match : string -> string -> bool * option error)
    (DetectContentType : string -> string) (fs : os.FS)
    (work : ScanWork.t) (info : os.FileInfo) (s : Scanner) :
  os.Stat fs (ScanWork.Path work) = inr info ->
  exists file p,
    processFile Match DetectContentType fs work s
    = Done tt
        (mkScanner (config s) p (workChan s) (workTaken s)
           (resultChan s ++ [ScanWorkResult.mk file None]) (errorChan s) (dirWg s))
    /\ FileInfo.Extension file = strings.ToLower (filepath.Ext (os.Name info))
    /\ (FileInfo.Extension file = ""
        \/ exists rest, FileInfo.Extension file = String "."%char rest)
    /\ (os.Size info <= sizeLimit s ->
        ScanConfig.AllowedTypes (config s) <> [] ->
        existsb (patternMatches Match (filepath.Base (ScanWork.Path work)))
                (ScanConfig.BlockedPatterns (config s)) = false ->
        (FileInfo.IsBlocked file = false
         <-> exists entry,
               In entry (ScanConfig.AllowedTypes (config s))
               /\ strings.EqualFold (FileInfo.Extension file) entry = true)
        /\ (strings.isASCII (os.Name info) = true ->
            forallb strings.isASCII (ScanConfig.AllowedTypes (config s)) = true ->
            (FileInfo.IsBlocked file = false
             <-> exists entry,
                   In entry (ScanConfig.AllowedTypes (config s))
                   /\ strings.ToLower entry = FileInfo.Extension file)))
    /\ (ScanConfig.AllowedTypes (config s) <> [] ->
        ~ In "" (ScanConfig.AllowedTypes (config s)) ->
        filepath.Ext (os.Name info) = "" ->
        FileInfo.IsBlocked file = true)
    /\ (forall entry,
          entry <> "" -> (forall rest, entry <> String "."%char rest) ->
          strings.EqualFold (FileInfo.Extension file) entry = false)
    /\ (ScanConfig.AllowedTypes (config s) <> [] ->
        (forall entry, In entry (ScanConfig.AllowedTypes (config s)) ->
                       entry <> "" /\ forall rest, entry <> String "."%char rest) ->
        FileInfo.IsBlocked file = true).
Proof.
  intros H.
  destruct (processFile_stat_ok Match DetectContentType fs work info s H)
    as (file & p & HP & _ & _ & _ & _ & _ & _ & _ & HX & HB & _).
  exists file, p.
  assert (Shape : FileInfo.Extension file = ""
                  \/ exists rest, FileInfo.Extension file = String "."%char rest)
    by (rewrite HX; apply ToLower_Ext_shape).
  assert (NoDot : forall entry,
             entry <> "" -> (forall rest, entry <> String "."%char rest) ->
             strings.EqualFold (FileInfo.Extension file) entry = false).
  { intros entry Hne Hdot. destruct Shape as [E | [r E]]; rewrite E.
    - destruct entry; [congruence | reflexivity].
    - now apply EqualFold_dot. }
  assert (Cases : FileInfo.IsBlocked file
                  = if os.Size info >? sizeLimit s then true
                    else match ScanConfig.AllowedTypes (config s) with
                         | (_ :: _) as allowed =>
                             if existsb (strings.EqualFold (FileInfo.Extension file)) allowed
                             then existsb (patternMatches Match
                                             (filepath.Base (ScanWork.Path work)))
                                          (ScanConfig.BlockedPatterns (config s))
                             else true
                         | [] => existsb (patternMatches Match
                                            (filepath.Base (ScanWork.Path work)))
                                         (ScanConfig.BlockedPatterns (config s))
                         end).
  { rewrite HB, shouldBlockFile_cases, HX. reflexivity. }
  refine (conj HP (conj HX (conj Shape (conj _ (conj _ (conj NoDot _)))))).
  - intros Hsize Hne Hpat.
    assert (Fold : FileInfo.IsBlocked file = false
                   <-> exists entry,
                         In entry (ScanConfig.AllowedTypes (config s))
                         /\ strings.EqualFold (FileInfo.Extension file) entry = true).
    { rewrite Cases.
      replace (os.Size info >? sizeLimit s) with false
        by (symmetry; rewrite Z.gtb_ltb; apply Z.ltb_ge; exact Hsize).
      destruct (ScanConfig.AllowedTypes (config s)) as [|t ts]; [congruence|].
      rewrite Hpat, <- existsb_exists.
      destruct (existsb _ (t :: ts)); split; congruence. }
    split; [exact Fold|].
    intros _ _. rewrite Fold. split; intros (entry & Hin & He); exists entry; split;
      try exact Hin.
    + apply EqualFold_ToLower_eq in He. rewrite <- He, HX. apply ToLower_idempotent.
    + apply EqualFold_ToLower_eq. rewrite He, HX. apply ToLower_idempotent.
  - intros Hne Hno Hext. rewrite Cases.
    destruct (os.Size info >? sizeLimit s); [reflexivity|].
    destruct (ScanConfig.AllowedTypes (config s)) as [|t ts] eqn:EA; [congruence|].
    rewrite <- isAllowed_existsb, HX, Hext.
    change (strings.ToLower "") with "".
    rewrite isAllowed_empty_extension; [reflexivity | exact Hno].
  - intros Hne Hall. rewrite Cases.
    destruct (os.Size info >? sizeLimit s); [reflexivity|].
    destruct (ScanConfig.AllowedTypes (config s)) as [|t ts] eqn:EA; [congruence|].
    destruct (existsb _ (t :: ts)) eqn:EX; [|reflexivity].
    apply existsb_exists in EX. destruct EX as (entry & Hin & He).
    destruct (Hall entry Hin) as [H1 H2]. rewrite (NoDot entry H1 H2) in He. discriminate.
Qed.

Lemma extension_matching_witness :
  exists file p,
    processFile filepath.Match Sample.sniff Sample.testTree
      (ScanWork.mk "/data/small.txt" false 1)
      (New 1700000000 (ScanConfig.mk 1 [".TXT"; "md"] [] true false 0 0))
    = Done tt
        (mkScanner (ScanConfig.mk 1 [".TXT"; "md"] [] true false 4 1000) p [] 0
           [ScanWorkResult.mk file None] [] 0)
    /\ FileInfo.Extension file = ".txt"
    /\ FileInfo.IsBlocked file = false.
Proof.
  destruct (extension_matching filepath.Match Sample.sniff Sample.testTree
              (ScanWork.mk "/data/small.txt" false 1) (Sample.regular "small.txt" 100)
              (New 1700000000 (ScanConfig.mk 1 [".TXT"; "md"] [] true false 0 0))
              eq_refl)
    as (file & p & HP & HX & _ & HC & _).
  exists file, p. split; [exact HP|]. split; [exact HX|].
  assert (Hsize : os.Size (Sample.regular "small.txt" 100)
                  <= sizeLimit (New 1700000000
                                  (ScanConfig.mk 1 [".TXT"; "md"] [] true false 0 0)))
    by (vm_compute; discriminate).
  destruct (HC Hsize) as [_ HA]; [discriminate | reflexivity |].
  apply HA; [reflexivity | reflexivity |].
  exists ".TXT". split; [now left | now rewrite HX].
Defined.

(** C9 as stated fails: with the allow-list made of the empty string, a
    file without extension is let through; the entry, which has no
    leading dot, matches it. *)
Lemma empty_entry_allows_no_extension :
  let s := New 1700000000 (ScanConfig.mk 1 [""] [] true false 0 0) in
  let makefile :=
    statRecord (ScanWork.mk "/data/Makefile" false 1) (Sample.regular "Makefile" 10) in
  ScanConfig.AllowedTypes (config s) <> []
  /\ FileInfo.Extension makefile = ""
  /\ strings.EqualFold (FileInfo.Extension makefile) "" = true
  /\ shouldBlockFile filepath.Match s makefile = false.
Proof. vm_compute. repeat split. discriminate. Qed.

(** C1 on the code: the scan of the test tree returns five records, two of
    directories and three of files, with [TotalFiles] at 2: the files are
    counted in [ScannedFiles] and never in [TotalFiles]. *)
Theorem total_files_counts_directories_only :
  let result := Sample.resultOf Sample.treeScan in
  let files := ScanResult.Files result in
  List.length files = 5%nat
  /\ List.length (filter FileInfo.IsDirectory files) = 2%nat
  /\ List.length (filter (fun f => negb (FileInfo.IsDirectory f)) files) = 3%nat
  /\ ScanProgress.TotalFiles (ScanResult.Progress result) = 2
  /\ ScanProgress.ScannedFiles (ScanResult.Progress result) = 3.
Proof. vm_compute. repeat split. Qed.

(** C5 on the code: the scan of a tree with a directory that cannot be read
    returns; the directory has its record and is not descended into; the
    error with its path is on the error channel, which nothing reads, and
    the error log of the result is empty, with [Success = true]. *)
Theorem unreadable_directory_is_not_logged :
  let o := Sample.scan Sample.lockedDirTree (Sample.testConfig true) "/data" in
  map FileInfo.Path (ScanResult.Files (Sample.resultOf o)) = ["/data"; "/data/locked"]
  /\ errorChan (Sample.scannerOf o)
     = ["error reading directory /data/locked: open /data/locked: permission denied"]
  /\ ScanProgress.Errors (ScanResult.Progress (Sample.resultOf o)) = []
  /\ ScanResult.Success (Sample.resultOf o) = true.
Proof. vm_compute. repeat split. Qed.

(** ** The rules on the modelled [filepath.Match] *)


Lemma decision_and_reason_agree_witness :
  let s := New 1700000000 (ScanConfig.mk 1 [".txt"] ["*.tmp"; ".*"] true false 0 0) in
  let file :=
    statRecord (ScanWork.mk "/data/temp.tmp" false 1) (Sample.regular "temp.tmp" 4) in
  (shouldBlockFile filepath.Match s file = true
   <-> firstViolatedRule filepath.Match s file <> None)
  /\ (forall rule, firstViolatedRule filepath.Match s file = Some rule ->
        shouldBlockFile filepath.Match s file = true
        /\ getBlockReason filepath.Match s file = reasonOfRule rule)
  /\ (getBlockReason filepath.Match s file = "Unknown reason" <->
      firstViolatedRule filepath.Match s file = None)
  /\ (getBlockReason filepath.Match s file = "Unknown reason" <->
      shouldBlockFile filepath.Match s file = false).
Proof.
  exact (decision_and_reason_agree filepath.Match
           (New 1700000000 (ScanConfig.mk 1 [".txt"] ["*.tmp"; ".*"] true false 0 0))
           (statRecord (ScanWork.mk "/data/temp.tmp" false 1) (Sample.regular "temp.tmp" 4))
           Match_error_means_no_match).
Defined.

Lemma malformed_pattern_ignored_witness :
  let s := New 1700000000 (Sample.testConfig true) in
  let file :=
    statRecord (ScanWork.mk "/data/temp.tmp" false 1) (Sample.regular "temp.tmp" 4) in
  let withPattern :=
    set_config s (ScanConfig.set_BlockedPatterns (config s) (["*.log"] ++ "[" :: ["*.tmp"])) in
  let without :=
    set_config s (ScanConfig.set_BlockedPatterns (config s) (["*.log"] ++ ["*.tmp"])) in
  shouldBlockFile filepath.Match withPattern file = shouldBlockFile filepath.Match without file
  /\ getBlockReason filepath.Match withPattern file = getBlockReason filepath.Match without file
  /\ getBlockReason filepath.Match withPattern file <> "File matches blocked pattern: " ++ "[".
Proof.
  apply (malformed_pattern_ignored filepath.Match
           (New 1700000000 (Sample.testConfig true))
           (statRecord (ScanWork.mk "/data/temp.tmp" false 1) (Sample.regular "temp.tmp" 4))
           ["*.log"] ["*.tmp"] "[" Match_error_means_no_match).
  vm_compute. discriminate.
Defined.

(** ** Relations that every step of a run keeps *)

Section Preserved.

Variable Match : string -> string -> bool * option error.
Variable DetectContentType : string -> string.
Variable fs : os.FS.

Variable R : Scanner -> Scanner -> Prop.
Hypothesis R_refl : forall s, R s s.
Hypothesis R_trans : forall s1 s2 s3, R s1 s2 -> R s2 s3 -> R s1 s3.

Lemma preserves_ret {A : Type} (a : A) : preserves R (ret a).
Proof. intros s b s' [= _ <-]. apply R_refl. Qed.

Lemma preserves_bind {A B : Type} (m : M A) (k : A -> M B) :
  preserves R m -> (forall a, preserves R (k a)) -> preserves R (bind m k).
Proof.
  intros Hm Hk s b s' H. apply bind_Done in H. destruct H as (a & s1 & H1 & H2).
  eapply R_trans; [eapply Hm; exact H1 | eapply Hk; exact H2].
Qed.

(** What the relation has to hold across: a directory record with its
    count, an error sent, the wait group moved, and a file queued where
    the traversal queues one. *)
Hypothesis R_directory :
  forall path name, preserves R (sendResult (dirRecord path name) ;; addTotalFiles 1).
Hypothesis R_error : forall e, preserves R (sendError e).
Hypothesis R_dirWg : forall n, preserves R (dirWgAdd n).
Hypothesis R_queue :
  forall s fullPath a s',
    ScanConfig.ExportBlockedToJSON (config s)
      && String.eqb (filepath.Base fullPath) "blocked_files.json" = false ->
    sendWork (ScanWork.mk fullPath false 1) s = Done a s' ->
    R s s'.

Lemma preserves_directory_then (path name : string) (k : M unit) :
  preserves R k ->
  preserves R (sendResult (dirRecord path name) ;; addTotalFiles 1 ;; k).
Proof.
  intros Hk s a s' H. unfold bind, sendResult, addTotalFiles in H.
  eapply R_trans; [|eapply Hk; exact H].
  eapply (R_directory path name s tt). reflexivity.
Qed.

Lemma preserves_scanEntries (spawn : string -> M unit) (path root : string)
    (entries : list os.DirEntry) :
  (forall fullPath, preserves R (spawn fullPath)) ->
  preserves R (scanEntries spawn path root entries).
Proof.
  intros Hspawn. induction entries as [|entry rest IH]; simpl.
  - apply preserves_ret.
  - destruct (os.Info entry) as [err|info].
    + apply preserves_bind; [apply R_error | intros _; exact IH].
    + intros s a s' H. unfold bind at 1 in H. unfold getConfig in H.
      apply bind_Done in H. destruct H as (u & s1 & H1 & H2).
      eapply R_trans; [|eapply IH; exact H2]. clear H2.
      destruct (os.IsDir info).
      * destruct (ScanConfig.ScanRecursively (config s)).
        -- revert H1. apply preserves_bind; [apply R_dirWg | intros _].
           apply preserves_directory_then. apply Hspawn.
        -- destruct (String.eqb path root).
           ++ revert H1. apply R_directory.
           ++ revert H1. apply preserves_ret.
      * destruct (ScanConfig.ExportBlockedToJSON (config s)
                  && String.eqb (filepath.Base (filepath.Join path (os.EntryName entry)))
                       "blocked_files.json") eqn:EX.
        -- revert H1. apply preserves_ret.
        -- eapply R_queue; [exact EX | exact H1].
Qed.

Lemma preserves_scanDirectory (fuel : nat) (path root : string) :
  preserves R (scanDirectory fs fuel path root).
Proof.
  revert path. induction fuel as [|fuel IH]; intros path; simpl.
  - intros s a s'. discriminate.
  - apply preserves_bind; [|intros _; apply preserves_bind; [|intros _; apply R_dirWg]].
    + destruct (String.eqb path root); [apply R_directory | apply preserves_ret].
    + destruct (os.ReadDir fs path) as [err|entries]; [apply R_error|].
      apply preserves_scanEntries. intros fullPath. apply IH.
Qed.

(** And across a file handled by a worker, and a work item taken. *)
Hypothesis R_file :
  forall work, preserves R (processFile Match DetectContentType fs work).
Hypothesis R_taken :
  forall s, R s (mkScanner (config s) (progress s) (workChan s) (S (workTaken s))
                           (resultChan s) (errorChan s) (dirWg s)).

Lemma preserves_worker (fuel : nat) :
  preserves R (worker Match DetectContentType fs fuel).
Proof.
  induction fuel as [|fuel IH]; simpl; intros s a s'; [discriminate|].
  destruct (nth_error (workChan s) (workTaken s)) as [work|].
  - intros H. eapply R_trans; [apply R_taken|]. revert H.
    apply preserves_bind; [|intros _; exact IH].
    unfold processWork. destruct (ScanWork.IsDir work).
    + apply preserves_scanDirectory.
    + apply R_file.
  - destruct (dirWg s =? 0); [|discriminate]. intros [= _ <-]. apply R_refl.
Qed.

End Preserved.

(** ** Arithmetic of the counters *)

Lemma wrap_range (z : Z) : Int64.in_range (Int64.wrap z).
Proof.
  unfold Int64.in_range, Int64.min_int, Int64.max_int, Int64.wrap, Int64.modulus.
  change (2 ^ 64) with 18446744073709551616.
  change (2 ^ 63) with 9223372036854775808.
  pose proof (Z.mod_pos_bound (z + 9223372036854775808) 18446744073709551616).
  lia.
Qed.

Lemma wrap_of_in_range (z : Z) : Int64.in_range z -> Int64.wrap z = z.
Proof.
  unfold Int64.in_range, Int64.min_int, Int64.max_int.
  change (2 ^ 63) with 9223372036854775808.
  intros H. apply wrap_in_range. lia.
Qed.

Lemma wrap_idempotent (z : Z) : Int64.wrap (Int64.wrap z) = Int64.wrap z.
Proof. apply wrap_of_in_range, wrap_range. Qed.

Lemma wrap_add_l (a b : Z) : Int64.wrap (Int64.wrap a + b) = Int64.wrap (a + b).
Proof.
  unfold Int64.wrap, Int64.modulus.
  replace ((a + 2 ^ 63) mod 2 ^ 64 - 2 ^ 63 + b + 2 ^ 63)
    with ((a + 2 ^ 63) mod 2 ^ 64 + b) by lia.
  rewrite Zplus_mod_idemp_l.
  replace (a + 2 ^ 63 + b) with (a + b + 2 ^ 63) by lia.
  reflexivity.
Qed.

(** Counters equal modulo 2^64 stay so when the same is added. *)
Lemma wrap_congr_add (a b c : Z) :
  Int64.wrap a = Int64.wrap b -> Int64.wrap (a + c) = Int64.wrap (b + c).
Proof. intros H. now rewrite <- (wrap_add_l a c), <- (wrap_add_l b c), H. Qed.

Lemma recordsOf_app (l1 l2 : list ScanWorkResult.t) :
  recordsOf (l1 ++ l2) = (recordsOf l1 ++ recordsOf l2)%list.
Proof. apply flat_map_app. Qed.

Lemma errorsOf_app (l1 l2 : list ScanWorkResult.t) :
  errorsOf (l1 ++ l2) = (errorsOf l1 ++ errorsOf l2)%list.
Proof. apply flat_map_app. Qed.

Lemma sizeSum_app (l1 l2 : list FileInfo.t) :
  sizeSum (l1 ++ l2) = sizeSum l1 + sizeSum l2.
Proof. induction l1 as [|f l1 IH]; simpl; [reflexivity|]. rewrite IH. lia. Qed.

Lemma blockedCount_app (l1 l2 : list FileInfo.t) :
  blockedCount (l1 ++ l2) = blockedCount l1 + blockedCount l2.
Proof.
  unfold blockedCount. rewrite filter_app, length_app. lia.
Qed.

Lemma recordsOf_Permutation (l1 l2 : list ScanWorkResult.t) :
  Permutation l1 l2 -> Permutation (recordsOf l1) (recordsOf l2).
Proof.
  induction 1 as [|x l1 l2 _ IH|x y l|l1 l2 l3 _ IH1 _ IH2]; simpl.
  - constructor.
  - now apply Permutation_app_head.
  - rewrite !app_assoc. apply Permutation_app_tail, Permutation_app_comm.
  - now transitivity (recordsOf l2).
Qed.

Lemma errorsOf_Permutation (l1 l2 : list ScanWorkResult.t) :
  Permutation l1 l2 -> Permutation (errorsOf l1) (errorsOf l2).
Proof.
  induction 1 as [|x l1 l2 _ IH|x y l|l1 l2 l3 _ IH1 _ IH2]; simpl.
  - constructor.
  - now apply Permutation_app_head.
  - rewrite !app_assoc. apply Permutation_app_tail, Permutation_app_comm.
  - now transitivity (errorsOf l2).
Qed.

Lemma sizeSum_Permutation (l1 l2 : list FileInfo.t) :
  Permutation l1 l2 -> sizeSum l1 = sizeSum l2.
Proof.
  induction 1 as [|x l1 l2 _ IH|x y l|l1 l2 l3 _ IH1 _ IH2]; simpl; lia.
Qed.

Lemma filter_Permutation {A : Type} (f : A -> bool) (l1 l2 : list A) :
  Permutation l1 l2 -> Permutation (filter f l1) (filter f l2).
Proof.
  induction 1 as [|x l1 l2 _ IH|x y l|l1 l2 l3 _ IH1 _ IH2]; simpl.
  - constructor.
  - destruct (f x); [now constructor | exact IH].
  - destruct (f x), (f y); try reflexivity. apply perm_swap.
  - now transitivity (filter f l2).
Qed.

Lemma blockedCount_Permutation (l1 l2 : list FileInfo.t) :
  Permutation l1 l2 -> blockedCount l1 = blockedCount l2.
Proof.
  intros H. unfold blockedCount. f_equal.
  apply Permutation_length, filter_Permutation, H.
Qed.

(** ** The worker's record and counts *)

Section WorkerRecord.

Variable Match : string -> string -> bool * option error.
Variable DetectContentType : string -> string.
Variable fs : os.FS.

(** [processFile] in one step, when [os.Stat] answers. *)
Lemma processFile_run (work : ScanWork.t) (info : os.FileInfo) (s : Scanner) :
  os.Stat fs (ScanWork.Path work) = inr info ->
  processFile Match DetectContentType fs work s
  = Done tt
      (mkScanner (config s)
         (countFile (progress s) (workerRecord Match DetectContentType fs s work info))
         (workChan s) (workTaken s)
         (resultChan s ++
            [ScanWorkResult.mk (workerRecord Match DetectContentType fs s work info) None])
         (errorChan s) (dirWg s)).
Proof.
  intros H. unfold processFile, workerRecord. rewrite H. fold (statRecord work info).
  destruct (detectFileType DetectContentType fs (statRecord work info)) as [f0 err].
  cbv zeta.
  set (f1 := match err with Some e => FileInfo.set_AccessError f0 e | None => f0 end).
  destruct (shouldBlockFile Match s f1).
  - reflexivity.
  - unfold bind, addScannedFiles, addScannedSize, addBlockedFiles, sendResult, ret, countFile.
    destruct (FileInfo.IsBlocked f1); reflexivity.
Qed.

(** [detectFileType] leaves the path, name, size, extension and flags of
    the record as they are. *)
Lemma detectFileType_keeps (file : FileInfo.t) :
  let file' := fst (detectFileType DetectContentType fs file) in
  FileInfo.Path file' = FileInfo.Path file
  /\ FileInfo.Name file' = FileInfo.Name file
  /\ FileInfo.Size file' = FileInfo.Size file
  /\ FileInfo.Extension file' = FileInfo.Extension file
  /\ FileInfo.ModTime file' = FileInfo.ModTime file
  /\ FileInfo.IsDirectory file' = FileInfo.IsDirectory file
  /\ FileInfo.IsBlocked file' = FileInfo.IsBlocked file
  /\ FileInfo.BlockReason file' = FileInfo.BlockReason file
  /\ FileInfo.AccessError file' = FileInfo.AccessError file.
Proof.
  unfold detectFileType. destruct (os.Open fs _) as [e|f]; [now repeat split|].
  destruct (os.Read f) as [buffer [e|]]; [destruct (String.length buffer)|];
    now repeat split.
Qed.

(** What the record of a worker takes from [os.Stat] and from the rules. *)
Lemma workerRecord_fields (s : Scanner) (work : ScanWork.t) (info : os.FileInfo) :
  let file := workerRecord Match DetectContentType fs s work info in
  FileInfo.Path file = ScanWork.Path work
  /\ FileInfo.Name file = filepath.Base (ScanWork.Path work)
  /\ FileInfo.Size file = os.Size info
  /\ FileInfo.ModTime file = os.ModTime info
  /\ FileInfo.IsDirectory file = os.IsDir info
  /\ FileInfo.Extension file = strings.ToLower (filepath.Ext (os.Name info))
  /\ FileInfo.IsBlocked file = shouldBlockFile Match s (statRecord work info)
  /\ FileInfo.BlockReason file
     = (if shouldBlockFile Match s (statRecord work info)
        then getBlockReason Match s (statRecord work info) else "").
Proof.
  cbv zeta. unfold workerRecord.
  pose proof (detectFileType_keeps (statRecord work info)) as K. cbv zeta in K.
  destruct (detectFileType DetectContentType fs (statRecord work info)) as [f0 err].
  cbn [fst] in K. destruct K as (K1 & K2 & K3 & K4 & K5 & K6 & K7 & K8 & K9).
  set (f1 := match err with Some e => FileInfo.set_AccessError f0 e | None => f0 end).
  assert (Q : FileInfo.Path f1 = FileInfo.Path f0 /\ FileInfo.Name f1 = FileInfo.Name f0
              /\ FileInfo.Size f1 = FileInfo.Size f0
              /\ FileInfo.Extension f1 = FileInfo.Extension f0
              /\ FileInfo.ModTime f1 = FileInfo.ModTime f0
              /\ FileInfo.IsDirectory f1 = FileInfo.IsDirectory f0
              /\ FileInfo.IsBlocked f1 = FileInfo.IsBlocked f0
              /\ FileInfo.BlockReason f1 = FileInfo.BlockReason f0).
  { unfold f1. destruct err; now repeat split. }
  destruct Q as (Q1 & Q2 & Q3 & Q4 & Q5 & Q6 & Q7 & Q8).
  assert (B : shouldBlockFile Match s f1 = shouldBlockFile Match s (statRecord work info)).
  { apply shouldBlockFile_metadata; congruence. }
  assert (G : getBlockReason Match s f1 = getBlockReason Match s (statRecord work info)).
  { unfold getBlockReason. now rewrite Q3, Q4, Q2, K3, K4, K2. }
  rewrite B. destruct (shouldBlockFile Match s (statRecord work info)); simpl;
    repeat split; try congruence.
  - now rewrite Q1, K1.
  - now rewrite Q2, K2.
  - now rewrite Q3, K3.
  - now rewrite Q5, K5.
  - now rewrite Q6, K6.
  - now rewrite Q4, K4.
  - now rewrite Q1, K1.
  - now rewrite Q2, K2.
  - now rewrite Q3, K3.
  - now rewrite Q5, K5.
  - now rewrite Q6, K6.
  - now rewrite Q4, K4.
  - now rewrite Q7, K7.
  - now rewrite Q8, K8.
Qed.

End WorkerRecord.

(** ** The counters of a run *)

Lemma counted_refl (s : Scanner) : counted s s.
Proof.
  exists [], 0%nat, 0%nat. simpl. rewrite app_nil_r, ?Z.add_0_r.
  unfold blockedCount. simpl. rewrite ?Z.add_0_r.
    repeat (split; [reflexivity|]). auto.
Qed.

Lemma counted_trans (s1 s2 s3 : Scanner) : counted s1 s2 -> counted s2 s3 -> counted s1 s3.
Proof.
  intros (a & nd & nf & Ha & La & Ta & Fa & Ba & Sa & Za & Ra)
         (b & md & mf & Hb & Lb & Tb & Fb & Bb & Sb & Zb & Rb).
  exists (a ++ b)%list, (nd + md)%nat, (nf + mf)%nat.
  rewrite recordsOf_app, length_app, blockedCount_app, sizeSum_app, !Nat2Z.inj_add.
  split; [now rewrite Hb, Ha, app_assoc|].
  split; [lia|].
  split; [rewrite Tb, (wrap_congr_add _ _ _ Ta); f_equal; lia|].
  split; [rewrite Fb, (wrap_congr_add _ _ _ Fa); f_equal; lia|].
  split; [rewrite Bb, (wrap_congr_add _ _ _ Ba); f_equal; lia|].
  split; [rewrite Sb, (wrap_congr_add _ _ _ Sa); f_equal; lia|].
  split; [now rewrite Zb|]. auto.
Qed.

Lemma counted_same (s s' : Scanner) :
  resultChan s' = resultChan s -> progress s' = progress s -> counted s s'.
Proof.
  intros H P. exists [], 0%nat, 0%nat. simpl. rewrite app_nil_r, P, ?Z.add_0_r.
  unfold blockedCount. simpl. rewrite ?Z.add_0_r.
  split; [exact H|]. repeat (split; [reflexivity|]). auto.
Qed.

Lemma counted_directory (path name : string) :
  preserves counted (sendResult (dirRecord path name) ;; addTotalFiles 1).
Proof.
  intros s a s' [= _ <-]. exists [dirRecord path name], 1%nat, 0%nat.
  simpl. unfold blockedCount, Int64.add. simpl.
  rewrite ?wrap_idempotent, ?Z.add_0_r. repeat (split; [reflexivity|]).
  intros (R1 & R2 & R3 & R4). unfold countersInRange. simpl.
  refine (conj _ (conj _ (conj _ _))); first [assumption | apply wrap_range].
Qed.

Lemma counted_file (Match : string -> string -> bool * option error)
    (DetectContentType : string -> string) (fs : os.FS) (work : ScanWork.t) :
  preserves counted (processFile Match DetectContentType fs work).
Proof.
  intros s a s'. destruct (os.Stat fs (ScanWork.Path work)) as [err|info] eqn:E.
  - rewrite (processFile_stat_error _ _ _ _ _ _ E). intros [= _ <-].
    exists [ScanWorkResult.mk
              (FileInfo.init (ScanWork.Path work) (filepath.Base (ScanWork.Path work)) false)
              (Some err)], 0%nat, 0%nat.
    simpl. rewrite ?Z.add_0_r.
    repeat (split; [reflexivity|]). auto.
  - rewrite (processFile_run Match DetectContentType fs work info s E). intros [= _ <-].
    set (file := workerRecord Match DetectContentType fs s work info).
    exists [ScanWorkResult.mk file None], 0%nat, 1%nat.
    simpl. unfold blockedCount, Int64.add. simpl.
    rewrite ?wrap_idempotent, ?Z.add_0_r.
    split; [reflexivity|]. split; [reflexivity|]. split; [reflexivity|].
    split; [reflexivity|].
    split; [destruct (FileInfo.IsBlocked file); simpl;
            [now rewrite wrap_idempotent | now rewrite Z.add_0_r]|].
    split; [reflexivity|]. split; [reflexivity|].
    intros (R1 & R2 & R3 & R4). unfold countersInRange. simpl.
    refine (conj _ (conj _ (conj _ _))); try first [assumption | apply wrap_range].
    destruct (FileInfo.IsBlocked file); [apply wrap_range | assumption].
Qed.

Lemma counted_worker (Match : string -> string -> bool * option error)
    (DetectContentType : string -> string) (fs : os.FS) (fuel : nat) :
  preserves counted (worker Match DetectContentType fs fuel).
Proof.
  apply preserves_worker.
  - exact counted_refl.
  - exact counted_trans.
  - exact counted_directory.
  - intros e s a s'. unfold sendError. destruct (_ <? _); [|discriminate].
    intros [= _ <-]. now apply counted_same.
  - intros n s a s' [= _ <-]. now apply counted_same.
  - intros s fullPath a s' _ [= _ <-]. now apply counted_same.
  - apply counted_file.
  - intros s. now apply counted_same.
Qed.

(** The collector moves none of the counters. *)
Lemma collectLoop_counters (now : Z) (arrivals : list ScanWorkResult.t)
    (files files' : list FileInfo.t) (p p' : ScanProgress.t) :
  collectLoop now arrivals files p = (files', p') ->
  ScanProgress.TotalFiles p' = ScanProgress.TotalFiles p
  /\ ScanProgress.ScannedFiles p' = ScanProgress.ScannedFiles p
  /\ ScanProgress.TotalSize p' = ScanProgress.TotalSize p
  /\ ScanProgress.ScannedSize p' = ScanProgress.ScannedSize p
  /\ ScanProgress.BlockedFiles p' = ScanProgress.BlockedFiles p
  /\ ScanProgress.StartTime p' = ScanProgress.StartTime p.
Proof.
  revert files p. induction arrivals as [|res rest IH]; intros files p; simpl.
  - intros [= _ <-]. now repeat split.
  - destruct (ScanWorkResult.Error res) as [e|]; intros H; apply IH in H;
      simpl in H; exact H.
Qed.

(** [finish] keeps the records, and each counter of the progress. *)
Lemma finish_counters (fs : os.FS) (now : Z) (cfg : ScanConfig.t) (root : string)
    (files : list FileInfo.t) (p : ScanProgress.t) :
  let result := finish fs now cfg root files p in
  ScanResult.Files result = files
  /\ ScanProgress.TotalFiles (ScanResult.Progress result) = ScanProgress.TotalFiles p
  /\ ScanProgress.ScannedFiles (ScanResult.Progress result) = ScanProgress.ScannedFiles p
  /\ ScanProgress.TotalSize (ScanResult.Progress result) = ScanProgress.TotalSize p
  /\ ScanProgress.ScannedSize (ScanResult.Progress result) = ScanProgress.ScannedSize p
  /\ ScanProgress.BlockedFiles (ScanResult.Progress result) = ScanProgress.BlockedFiles p
  /\ ScanResult.Success result = Nat.eqb (List.length (ScanProgress.Errors p)) 0
  /\ ScanResult.Duration result = now - ScanProgress.StartTime p
  /\ ScanResult.Error result = "".
Proof.
  cbv zeta. unfold finish. destruct (ScanConfig.ExportBlockedToJSON cfg).
  - destruct (ExportBlockedFiles fs now _ _); now repeat split.
  - now repeat split.
Qed.

Section RunPreserved.

Variable Match : string -> string -> bool * option error.
Variable DetectContentType : string -> string.
Variable fs : os.FS.

Variable R : Scanner -> Scanner -> Prop.
Hypothesis R_refl : forall s, R s s.
Hypothesis R_trans : forall s1 s2 s3, R s1 s2 -> R s2 s3 -> R s1 s3.
Hypothesis R_dirWg : forall n, preserves R (dirWgAdd n).
Hypothesis R_work : forall w, preserves R (sendWork w).
Hypothesis R_worker : forall fuel, preserves R (worker Match DetectContentType fs fuel).

(** A relation kept by the workers, by the wait group and by queueing is
    kept by the scan up to the return of its workers. *)
Lemma preserves_runScan (fuel : nat) (root : string) :
  preserves R (runScan Match DetectContentType fs fuel root).
Proof.
  unfold runScan.
  apply preserves_bind; [exact R_trans | apply R_dirWg | intros _].
  apply preserves_bind; [exact R_trans | |].
  - unfold startScan. destruct (os.Stat fs root) as [err|info].
    + now apply preserves_ret.
    + apply preserves_bind; [exact R_trans | apply R_work | intros _].
      now apply preserves_ret.
  - intros [err|]; [now apply preserves_ret|].
    apply preserves_bind; [exact R_trans | apply R_worker | intros _].
    now apply preserves_ret.
Qed.

End RunPreserved.

Lemma counted_runScan (Match : string -> string -> bool * option error)
    (DetectContentType : string -> string) (fs : os.FS) (fuel : nat) (root : string) :
  preserves counted (runScan Match DetectContentType fs fuel root).
Proof.
  apply preserves_runScan.
  - exact counted_refl.
  - exact counted_trans.
  - intros n s a s' [= _ <-]. now apply counted_same.
  - intros w s a s' [= _ <-]. now apply counted_same.
  - apply counted_worker.
Qed.

Lemma filter_length_le {A : Type} (f : A -> bool) (l : list A) :
  (List.length (filter f l) <= List.length l)%nat.
Proof.
  induction l as [|x l IH]; simpl; [lia|]. destruct (f x); simpl; lia.
Qed.

(** X1: in a scan that returns, from a new scanner and with every result
    received once, [TotalFiles] and [ScannedFiles] together count the
    records of the result, [BlockedFiles] is the number of blocked
    records, [ScannedSize] is the sum of the sizes of the records as an
    [int64], and [TotalSize] is 0 (for fewer than 2^63 records). *)
Theorem scan_counters
    (Match : string -> string -> bool * option error)
    (DetectContentType : string -> string) (fs : os.FS) (started now : Z)
    (order : list ScanWorkResult.t -> list ScanWorkResult.t)
    (cfg : ScanConfig.t) (fuel : nat) (root : string)
    (result : ScanResult.t) (s' : Scanner) :
  (forall l, Permutation (order l) l) ->
  Scan Match DetectContentType fs now order fuel root (New started cfg)
  = Done (inr result) s' ->
  Z.of_nat (List.length (ScanResult.Files result)) < 2 ^ 63 ->
  let p := ScanResult.Progress result in
  0 <= ScanProgress.TotalFiles p
  /\ 0 <= ScanProgress.ScannedFiles p
  /\ ScanProgress.TotalFiles p + ScanProgress.ScannedFiles p
     = Z.of_nat (List.length (ScanResult.Files result))
  /\ ScanProgress.BlockedFiles p = blockedCount (ScanResult.Files result)
  /\ ScanProgress.ScannedSize p = Int64.wrap (sizeSum (ScanResult.Files result))
  /\ ScanProgress.TotalSize p = 0.
Proof.
  intros Hperm H Hlen. cbv zeta.
  apply Scan_result in H. destruct H as (s1 & files & p0 & HR & HC & -> & ->).
  destruct (finish_counters fs now (config s1) root files p0)
    as (F0 & F1 & F2 & F3 & F4 & F5 & _).
  rewrite F0 in *. rewrite F1, F2, F3, F4, F5. clear F0 F1 F2 F3 F4 F5.
  destruct (collectLoop_counters _ _ _ _ _ _ HC) as (C1 & C2 & C3 & C4 & C5 & _).
  rewrite C1, C2, C3, C4, C5. clear C1 C2 C3 C4 C5.
  apply collectLoop_spec in HC. destruct HC as (HF & _). simpl in HF.
  apply counted_runScan in HR.
  destruct HR as (added & nd & nf & HA & HL & HT & HS & HB & HZ & HTS & HRange).
  simpl in HA, HT, HS, HB, HZ, HTS.
  assert (InR : countersInRange (progress s1)).
  { apply HRange. unfold countersInRange, Int64.in_range, Int64.min_int, Int64.max_int.
    simpl. change (2 ^ 63) with 9223372036854775808. lia. }
  destruct InR as (I1 & I2 & I3 & I4).
  assert (P : Permutation files (recordsOf added)).
  { rewrite HF, HA. apply recordsOf_Permutation, Hperm. }
  rewrite (Permutation_length P) in Hlen |- *.
  rewrite (blockedCount_Permutation _ _ P), (sizeSum_Permutation _ _ P).
  rewrite HL in Hlen |- *.
  change (2 ^ 63) with 9223372036854775808 in Hlen.
  rewrite <- (wrap_of_in_range _ I1), <- (wrap_of_in_range _ I2),
          <- (wrap_of_in_range _ I3), <- (wrap_of_in_range _ I4).
  rewrite HT, HS, HB, HZ, HTS.
  assert (HBC : 0 <= blockedCount (recordsOf added) <= Z.of_nat (nd + nf)).
  { unfold blockedCount. rewrite <- HL.
    pose proof (filter_length_le FileInfo.IsBlocked (recordsOf added)). lia. }
  rewrite (wrap_in_range (Z.of_nat nd)) by lia.
  rewrite (wrap_in_range (Z.of_nat nf)) by lia.
  rewrite (wrap_in_range (blockedCount (recordsOf added))) by lia.
  repeat split; try lia.
Qed.

Lemma scan_counters_witness :
  let result := Sample.resultOf Sample.treeScan in
  let p := ScanResult.Progress result in
  0 <= ScanProgress.TotalFiles p
  /\ 0 <= ScanProgress.ScannedFiles p
  /\ ScanProgress.TotalFiles p + ScanProgress.ScannedFiles p
     = Z.of_nat (List.length (ScanResult.Files result))
  /\ ScanProgress.BlockedFiles p = blockedCount (ScanResult.Files result)
  /\ ScanProgress.ScannedSize p = Int64.wrap (sizeSum (ScanResult.Files result))
  /\ ScanProgress.TotalSize p = 0.
Proof.
  apply (scan_counters filepath.Match Sample.sniff Sample.testTree 1700000000 1700000100
           (fun l => l) (Sample.testConfig true) 100 "/data"
           (Sample.resultOf Sample.treeScan) (Sample.scannerOf Sample.treeScan)).
  - intros l. apply Permutation_refl.
  - vm_compute. reflexivity.
  - vm_compute. reflexivity.
Defined.

(** ** The results and the work items of a run *)

Lemma sentResults_refl (P : ScanWorkResult.t -> Prop) (s : Scanner) : sentResults P s s.
Proof. exists []. split; [now rewrite app_nil_r | constructor]. Qed.

Lemma sentResults_trans (P : ScanWorkResult.t -> Prop) (s1 s2 s3 : Scanner) :
  sentResults P s1 s2 -> sentResults P s2 s3 -> sentResults P s1 s3.
Proof.
  intros (a & Ha & Fa) (b & Hb & Fb). exists (a ++ b)%list. split.
  - now rewrite Hb, Ha, app_assoc.
  - apply Forall_app. now split.
Qed.

Lemma sentResults_same (P : ScanWorkResult.t -> Prop) (s s' : Scanner) :
  resultChan s' = resultChan s -> sentResults P s s'.
Proof. intros H. exists []. split; [now rewrite app_nil_r | constructor]. Qed.

Lemma sentResults_one (P : ScanWorkResult.t -> Prop) (s s' : Scanner)
    (res : ScanWorkResult.t) :
  resultChan s' = (resultChan s ++ [res])%list -> P res -> sentResults P s s'.
Proof. intros H HP. exists [res]. split; [exact H | now constructor]. Qed.

Lemma plainDirectory_dirRecord (path name : string) : plainDirectory (dirRecord path name).
Proof. split; [reflexivity | now exists path, name]. Qed.

(** The traversal sends nothing but records of directories. *)
Lemma scanDirectory_results (fs : os.FS) (fuel : nat) (path root : string) :
  preserves (sentResults plainDirectory) (scanDirectory fs fuel path root).
Proof.
  apply preserves_scanDirectory.
  - apply sentResults_refl.
  - apply sentResults_trans.
  - intros p n s a s' [= _ <-].
    apply (sentResults_one _ _ _ (dirRecord p n)); [reflexivity|].
    apply plainDirectory_dirRecord.
  - intros e s a s'. unfold sendError. destruct (_ <? _); [|discriminate].
    intros [= _ <-]. now apply sentResults_same.
  - intros n s a s' [= _ <-]. now apply sentResults_same.
  - intros s fullPath a s' _ [= _ <-]. now apply sentResults_same.
Qed.

(** X2: every result the traversal of a directory sends is the record of
    a directory without error: not blocked, without block reason or
    access error, with size 0 and no extension, whatever the traversal
    met (a directory it could not read as well). *)
Theorem traversal_sends_plain_directories
    (fs : os.FS) (fuel : nat) (path root : string) (s s' : Scanner) (a : unit) :
  scanDirectory fs fuel path root s = Done a s' ->
  exists added : list ScanWorkResult.t,
    resultChan s' = (resultChan s ++ added)%list
    /\ Forall (fun res =>
                 ScanWorkResult.Error res = None
                 /\ FileInfo.IsDirectory (ScanWorkResult.FileInfo res) = true
                 /\ FileInfo.IsBlocked (ScanWorkResult.FileInfo res) = false
                 /\ FileInfo.BlockReason (ScanWorkResult.FileInfo res) = ""
                 /\ FileInfo.AccessError (ScanWorkResult.FileInfo res) = ""
                 /\ FileInfo.Size (ScanWorkResult.FileInfo res) = 0
                 /\ FileInfo.Extension (ScanWorkResult.FileInfo res) = "") added.
Proof.
  intros H. apply scanDirectory_results in H. destruct H as (added & HA & HF).
  exists added. split; [exact HA|].
  eapply Forall_impl; [|exact HF].
  intros res (HE & p & n & HI). rewrite HI. now repeat split.
Qed.

Lemma traversal_sends_plain_directories_witness :
  let s := New 1700000000 (Sample.testConfig true) in
  exists added : list ScanWorkResult.t,
    resultChan (stateAfter (scanDirectory Sample.lockedDirTree 5 "/data" "/data" s))
    = (resultChan s ++ added)%list
    /\ Forall (fun res =>
                 ScanWorkResult.Error res = None
                 /\ FileInfo.IsDirectory (ScanWorkResult.FileInfo res) = true
                 /\ FileInfo.IsBlocked (ScanWorkResult.FileInfo res) = false
                 /\ FileInfo.BlockReason (ScanWorkResult.FileInfo res) = ""
                 /\ FileInfo.AccessError (ScanWorkResult.FileInfo res) = ""
                 /\ FileInfo.Size (ScanWorkResult.FileInfo res) = 0
                 /\ FileInfo.Extension (ScanWorkResult.FileInfo res) = "") added.
Proof.
  apply (traversal_sends_plain_directories Sample.lockedDirTree 5 "/data" "/data"
           (New 1700000000 (Sample.testConfig true)) _ tt).
  vm_compute. reflexivity.
Defined.

Section StatFailures.

Variable Match : string -> string -> bool * option error.
Variable DetectContentType : string -> string.
Variable fs : os.FS.

Lemma statFailure_directory (res : ScanWorkResult.t) :
  plainDirectory res -> statFailure fs res.
Proof. intros [H _]. unfold statFailure. now rewrite H. Qed.

Lemma statFailure_worker (fuel : nat) :
  preserves (sentResults (statFailure fs)) (worker Match DetectContentType fs fuel).
Proof.
  apply preserves_worker.
  - apply sentResults_refl.
  - apply sentResults_trans.
  - intros p n s a s' [= _ <-].
    apply (sentResults_one _ _ _ (dirRecord p n)); [reflexivity|].
    apply statFailure_directory, plainDirectory_dirRecord.
  - intros e s a s'. unfold sendError. destruct (_ <? _); [|discriminate].
    intros [= _ <-]. now apply sentResults_same.
  - intros n s a s' [= _ <-]. now apply sentResults_same.
  - intros s fullPath a s' _ [= _ <-]. now apply sentResults_same.
  - intros work s a s'.
    destruct (os.Stat fs (ScanWork.Path work)) as [err|info] eqn:E.
    + rewrite (processFile_stat_error _ _ _ _ _ _ E). intros [= _ <-].
      eapply sentResults_one; [reflexivity|]. unfold statFailure. simpl. now split.
    + rewrite (processFile_run Match DetectContentType fs work info s E).
      intros [= _ <-]. eapply sentResults_one; [reflexivity|]. exact I.
  - intros s. now apply sentResults_same.
Qed.

Lemma statFailure_runScan (fuel : nat) (root : string) :
  preserves (sentResults (statFailure fs)) (runScan Match DetectContentType fs fuel root).
Proof.
  apply preserves_runScan.
  - apply sentResults_refl.
  - apply sentResults_trans.
  - intros n s a s' [= _ <-]. now apply sentResults_same.
  - intros w s a s' [= _ <-]. now apply sentResults_same.
  - apply statFailure_worker.
Qed.

End StatFailures.

Lemma errorsOf_In (arrivals : list ScanWorkResult.t) (e : string) :
  In e (errorsOf arrivals) ->
  exists res, In res arrivals /\ ScanWorkResult.Error res = Some e.
Proof.
  unfold errorsOf. rewrite in_flat_map. intros (res & Hin & He).
  exists res. split; [exact Hin|].
  destruct (ScanWorkResult.Error res) as [e'|]; simpl in He; [|contradiction].
  destruct He as [<- | []]. reflexivity.
Qed.

Lemma errorsOf_nil (arrivals : list ScanWorkResult.t) :
  errorsOf arrivals = [] <-> Forall (fun res => ScanWorkResult.Error res = None) arrivals.
Proof.
  induction arrivals as [|res rest IH]; simpl.
  - split; [constructor | reflexivity].
  - destruct (ScanWorkResult.Error res) as [e|] eqn:E; simpl.
    + split; [discriminate|]. intros H. inversion H; subst. congruence.
    + rewrite IH. split.
      * intros H. now constructor.
      * intros H. now inversion H.
Qed.

(** X3: in a scan that returns, from a new scanner and with every result
    received once, [Success] is true exactly when no result carried an
    error; every entry of the scanner's error log is the answer of a
    failed [os.Stat] on some path, and every entry of the result's log is
    such an answer or the report of a failed export. *)
Theorem error_log_holds_stat_failures
    (Match : string -> string -> bool * option error)
    (DetectContentType : string -> string) (fs : os.FS) (started now : Z)
    (order : list ScanWorkResult.t -> list ScanWorkResult.t)
    (cfg : ScanConfig.t) (fuel : nat) (root : string)
    (result : ScanResult.t) (s' : Scanner) :
  (forall l, Permutation (order l) l) ->
  Scan Match DetectContentType fs now order fuel root (New started cfg)
  = Done (inr result) s' ->
  (ScanResult.Success result = true
   <-> Forall (fun res => ScanWorkResult.Error res = None) (resultChan s'))
  /\ (forall e, In e (ScanProgress.Errors (progress s')) ->
        exists path, os.Stat fs path = inl e)
  /\ (forall e, In e (ScanProgress.Errors (ScanResult.Progress result)) ->
        (exists path, os.Stat fs path = inl e)
        \/ exists err, e = "Failed to export blocked files: " ++ err).
Proof.
  intros Hperm H.
  pose proof (Scan_log _ _ _ _ _ _ _ _ _ _ H) as [_ HL]. simpl in HL.
  apply Scan_result in H. destruct H as (s1 & files & p0 & HR & HC & -> & ->).
  cbn [progress set_progress resultChan] in *.
  apply statFailure_runScan in HR. destruct HR as (added & HA & HF). simpl in HA.
  assert (Stat : forall e, In e (ScanProgress.Errors p0) ->
                           exists path, os.Stat fs path = inl e).
  { intros e He. rewrite HL in He. apply errorsOf_In in He.
    destruct He as (res & Hin & HE).
    apply (Permutation_in _ (Hperm _)) in Hin. rewrite HA in Hin.
    rewrite Forall_forall in HF. specialize (HF res Hin).
    unfold statFailure in HF. rewrite HE in HF. destruct HF as [HS _]. eauto. }
  split; [|split].
  - destruct (finish_counters fs now (config s1) root files p0)
      as (_ & _ & _ & _ & _ & _ & -> & _).
    rewrite HL. split.
    + intros E. destruct (errorsOf (order (resultChan s1))) eqn:EE; [|discriminate].
      apply errorsOf_nil in EE.
      eapply Permutation_Forall; [apply Hperm | exact EE].
    + intros F. replace (errorsOf (order (resultChan s1))) with (@nil string);
        [reflexivity|].
      symmetry. apply errorsOf_nil.
      eapply Permutation_Forall; [apply Permutation_sym, Hperm | exact F].
  - exact Stat.
  - intros e. unfold finish. destruct (ScanConfig.ExportBlockedToJSON (config s1)).
    + destruct (ExportBlockedFiles fs now _ _) as [err|]; simpl.
      * rewrite in_app_iff. intros [He | [<- | []]]; [left; now apply Stat|].
        right. now exists err.
      * intros He. left. now apply Stat.
    + simpl. intros He. left. now apply Stat.
Qed.

Lemma error_log_holds_stat_failures_witness :
  let result := Sample.resultOf vanishedScan in
  let s' := Sample.scannerOf vanishedScan in
  (ScanResult.Success result = true
   <-> Forall (fun res => ScanWorkResult.Error res = None) (resultChan s'))
  /\ (forall e, In e (ScanProgress.Errors (progress s')) ->
        exists path, os.Stat vanishedTree path = inl e)
  /\ (forall e, In e (ScanProgress.Errors (ScanResult.Progress result)) ->
        (exists path, os.Stat vanishedTree path = inl e)
        \/ exists err, e = "Failed to export blocked files: " ++ err).
Proof.
  apply (error_log_holds_stat_failures filepath.Match Sample.sniff vanishedTree
           1700000000 1700000100 (fun l => l) (Sample.testConfig true) 100 "/data").
  - intros l. apply Permutation_refl.
  - vm_compute. reflexivity.
Defined.

Example vanished_file_is_logged :
  ScanProgress.Errors (ScanResult.Progress (Sample.resultOf vanishedScan))
  = ["stat /data/gone.txt: no such file or directory"]
  /\ ScanResult.Success (Sample.resultOf vanishedScan) = false
  /\ map FileInfo.Path (ScanResult.Files (Sample.resultOf vanishedScan)) = ["/data"].
Proof. vm_compute. repeat split. Qed.

(** ** The work queue and the export file *)

Lemma sentWork_refl (P : ScanConfig.t -> ScanWork.t -> Prop) (s : Scanner) : sentWork P s s.
Proof. split; [reflexivity|]. exists []. split; [now rewrite app_nil_r | constructor]. Qed.

Lemma sentWork_trans (P : ScanConfig.t -> ScanWork.t -> Prop) (s1 s2 s3 : Scanner) :
  sentWork P s1 s2 -> sentWork P s2 s3 -> sentWork P s1 s3.
Proof.
  intros (Ca & a & Ha & Fa) (Cb & b & Hb & Fb). split; [now rewrite Cb|].
  exists (a ++ b)%list. split.
  - now rewrite Hb, Ha, app_assoc.
  - apply Forall_app. split; [exact Fa | now rewrite <- Ca].
Qed.

Lemma sentWork_same (P : ScanConfig.t -> ScanWork.t -> Prop) (s s' : Scanner) :
  config s' = config s -> workChan s' = workChan s -> sentWork P s s'.
Proof.
  intros C H. split; [exact C|]. exists []. split; [now rewrite app_nil_r | constructor].
Qed.

Lemma notTheExport_worker (Match : string -> string -> bool * option error)
    (DetectContentType : string -> string) (fs : os.FS) (fuel : nat) :
  preserves (sentWork notTheExport) (worker Match DetectContentType fs fuel).
Proof.
  apply preserves_worker.
  - apply sentWork_refl.
  - apply sentWork_trans.
  - intros p n s a s' [= _ <-]. now apply sentWork_same.
  - intros e s a s'. unfold sendError. destruct (_ <? _); [|discriminate].
    intros [= _ <-]. now apply sentWork_same.
  - intros n s a s' [= _ <-]. now apply sentWork_same.
  - intros s fullPath a s' EX [= _ <-]. split; [reflexivity|].
    exists [ScanWork.mk fullPath false 1]. split; [reflexivity|].
    constructor; [|constructor]. intros HE. simpl. rewrite HE in EX. simpl in EX.
    now apply String.eqb_neq.
  - intros work s a s' H. apply processFile_frame in H.
    destruct H as (C & W & _). now apply sentWork_same.
  - intros s. now apply sentWork_same.
Qed.

Lemma New_config (started : Z) (cfg : ScanConfig.t) :
  ScanConfig.ExportBlockedToJSON (config (New started cfg))
  = ScanConfig.ExportBlockedToJSON cfg
  /\ ScanConfig.ScanRecursively (config (New started cfg))
     = ScanConfig.ScanRecursively cfg
  /\ 0 < ScanConfig.WorkerCount (config (New started cfg))
  /\ 0 < ScanConfig.BufferSize (config (New started cfg)).
Proof.
  unfold New. cbn [config].
  destruct (ScanConfig.WorkerCount cfg <=? 0) eqn:EW;
    cbn [ScanConfig.BufferSize]; destruct (ScanConfig.BufferSize cfg <=? 0) eqn:EB;
    cbn; repeat split;
    try apply Z.leb_gt in EW; try apply Z.leb_gt in EB; lia.
Qed.

(** X4: in a scan that returns with the export switched on, no work item
    queued after the root has the base name of the export file,
    [blocked_files.json]: the scan does not take in its own export. *)
Theorem export_file_is_not_queued
    (Match : string -> string -> bool * option error)
    (DetectContentType : string -> string) (fs : os.FS) (started now : Z)
    (order : list ScanWorkResult.t -> list ScanWorkResult.t)
    (cfg : ScanConfig.t) (fuel : nat) (root : string)
    (result : ScanResult.t) (s' : Scanner) :
  ScanConfig.ExportBlockedToJSON cfg = true ->
  Scan Match DetectContentType fs now order fuel root (New started cfg)
  = Done (inr result) s' ->
  Forall (fun w => filepath.Base (ScanWork.Path w) <> "blocked_files.json")
         (tl (workChan s')).
Proof.
  intros HE H. apply Scan_result in H. destruct H as (s1 & files & p0 & HR & _ & -> & _).
  cbn [workChan set_progress].
  unfold runScan, bind, dirWgAdd, startScan in HR.
  destruct (os.Stat fs root) as [err|info]; [discriminate|].
  unfold bind, sendWork, ret in HR.
  match type of HR with
  | match worker _ _ _ _ ?st with _ => _ end = _ => set (s0 := st) in HR
  end.
  destruct (worker Match DetectContentType fs fuel s0) as [u s2| |] eqn:EW;
    try discriminate.
  injection HR as <-.
  apply notTheExport_worker in EW. destruct EW as (_ & added & HA & HF).
  rewrite HA. simpl.
  eapply Forall_impl; [|exact HF]. intros w Hw. apply Hw.
  destruct (New_config started cfg) as [E _]. simpl. simpl in E. now rewrite E.
Qed.

Lemma export_file_is_not_queued_witness :
  Forall (fun w => filepath.Base (ScanWork.Path w) <> "blocked_files.json")
         (tl (workChan (Sample.scannerOf Sample.treeScan))).
Proof.
  apply (export_file_is_not_queued filepath.Match Sample.sniff Sample.testTree
           1700000000 1700000100 (fun l => l) (Sample.testConfig true) 100 "/data"
           (Sample.resultOf Sample.treeScan)).
  - reflexivity.
  - vm_compute. reflexivity.
Defined.

(** ** The wait group of the traversals *)

Lemma shifts_ret {A : Type} (a : A) : shifts 0 (ret a).
Proof. intros s b s' [= _ <-]. lia. Qed.

Lemma shifts_bind {A B : Type} (d1 d2 : Z) (m : M A) (k : A -> M B) :
  shifts d1 m -> (forall a, shifts d2 (k a)) -> shifts (d1 + d2) (bind m k).
Proof.
  intros Hm Hk s b s' H. apply bind_Done in H. destruct H as (a & s1 & H1 & H2).
  apply Hm in H1. apply Hk in H2. lia.
Qed.

Lemma shifts_sendResult (r : ScanWorkResult.t) : shifts 0 (sendResult r).
Proof. intros s a s' [= _ <-]. simpl. lia. Qed.

Lemma shifts_sendError (e : error) : shifts 0 (sendError e).
Proof.
  intros s a s'. unfold sendError. destruct (_ <? _); [|discriminate].
  intros [= _ <-]. simpl. lia.
Qed.

Lemma shifts_sendWork (w : ScanWork.t) : shifts 0 (sendWork w).
Proof. intros s a s' [= _ <-]. simpl. lia. Qed.

Lemma shifts_addTotalFiles (n : Z) : shifts 0 (addTotalFiles n).
Proof. intros s a s' [= _ <-]. simpl. lia. Qed.

Lemma shifts_getConfig : shifts 0 getConfig.
Proof. intros s a s' [= _ <-]. lia. Qed.

Lemma shifts_dirWgAdd (n : Z) : shifts n (dirWgAdd n).
Proof. intros s a s' [= _ <-]. reflexivity. Qed.

Lemma shifts_eq {A : Type} (d d' : Z) (m : M A) : d = d' -> shifts d m -> shifts d' m.
Proof. now intros ->. Qed.

Lemma shifts_scanEntries (spawn : string -> M unit) (path root : string)
    (entries : list os.DirEntry) :
  (forall fullPath, shifts (-1) (spawn fullPath)) ->
  shifts 0 (scanEntries spawn path root entries).
Proof.
  intros Hspawn. induction entries as [|entry rest IH]; simpl.
  - apply shifts_ret.
  - destruct (os.Info entry) as [err|info].
    + apply (shifts_bind 0 0); [apply shifts_sendError | intros _; exact IH].
    + apply (shifts_bind 0 0); [apply shifts_getConfig | intros c].
      apply (shifts_bind 0 0); [|intros _; exact IH].
      destruct (os.IsDir info).
      * destruct (ScanConfig.ScanRecursively c).
        -- apply (shifts_bind 1 (-1)); [apply shifts_dirWgAdd | intros _].
           apply (shifts_bind 0 (-1)); [apply shifts_sendResult | intros _].
           apply (shifts_bind 0 (-1)); [apply shifts_addTotalFiles | intros _].
           apply Hspawn.
        -- destruct (String.eqb path root); [|apply shifts_ret].
           apply (shifts_bind 0 0); [apply shifts_sendResult | intros _].
           apply shifts_addTotalFiles.
      * destruct (_ && _); [apply shifts_ret | apply shifts_sendWork].
Qed.

(** X5: a traversal that returns has released the wait group once more
    than it has added to it: [dirWg] is one lower than before, however
    many directories were traversed below. *)
Theorem traversal_releases_wait_group
    (fs : os.FS) (fuel : nat) (path root : string) (s s' : Scanner) (a : unit) :
  scanDirectory fs fuel path root s = Done a s' ->
  dirWg s' = dirWg s - 1.
Proof.
  revert path s s' a. induction fuel as [|fuel IH]; intros path s s' a; simpl.
  - discriminate.
  - intros H.
    assert (K : shifts (0 + (0 + -1))
                  ((if String.eqb path root
                    then sendResult (dirRecord path (filepath.Base path)) ;; addTotalFiles 1
                    else ret tt) ;;
                   match os.ReadDir fs path with
                   | inl err => sendError (Sprintf4 "error reading directory " path ": " err)
                   | inr entries =>
                       scanEntries (fun fullPath => scanDirectory fs fuel fullPath root)
                         path root entries
                   end ;;
                   dirWgAdd (-1))).
    { apply shifts_bind.
      - destruct (String.eqb path root); [|apply shifts_ret].
        apply (shifts_bind 0 0); [apply shifts_sendResult | intros _].
        apply shifts_addTotalFiles.
      - intros _. apply shifts_bind; [|intros _; apply shifts_dirWgAdd].
        destruct (os.ReadDir fs path) as [err|entries]; [apply shifts_sendError|].
        apply shifts_scanEntries. intros fullPath s1 a1 s2 H1.
        apply IH in H1. lia. }
    apply K in H. lia.
Qed.

Lemma traversal_releases_wait_group_witness :
  let s := New 1700000000 (Sample.testConfig true) in
  dirWg (stateAfter (scanDirectory Sample.testTree 5 "/data" "/data" s)) = dirWg s - 1.
Proof.
  apply (traversal_releases_wait_group Sample.testTree 5 "/data" "/data"
           (New 1700000000 (Sample.testConfig true)) _ tt).
  vm_compute. reflexivity.
Defined.

(** ** When [Scan] gives no result *)

(** X6: [Scan] returns an error in three cases and in no other.  For an
    empty path, and for a root that [os.Stat] refuses to [Scan], it
    returns that error and the scanner is as it was: nothing has been
    queued, sent or counted.  For a root that [os.Stat] answers to [Scan]
    and then refuses to [startScan], it returns "scan error: " with the
    error, and the wait group stays raised by one.  On a file system that
    answers both times the same this is [Scan], which then returns an
    error in the first two cases only. *)
Theorem scan_fails_fast
    (Match : string -> string -> bool * option error)
    (DetectContentType : string -> string) (before fs : os.FS) (now : Z)
    (order : list ScanWorkResult.t -> list ScanWorkResult.t)
    (fuel : nat) (root : string) (s : Scanner) :
  (root = "" ->
   ScanAfter Match DetectContentType before fs now order fuel root s
   = Done (inl "empty path provided") s)
  /\ (forall err, root <> "" -> os.Stat before root = inl err ->
        ScanAfter Match DetectContentType before fs now order fuel root s
        = Done (inl err) s)
  /\ (forall info err,
        root <> "" -> os.Stat before root = inr info -> os.Stat fs root = inl err ->
        ScanAfter Match DetectContentType before fs now order fuel root s
        = Done (inl ("scan error: " ++ err))
               (mkScanner (config s) (progress s) (workChan s) (workTaken s)
                          (resultChan s) (errorChan s) (dirWg s + 1)))
  /\ (forall e s',
        ScanAfter Match DetectContentType before fs now order fuel root s
        = Done (inl e) s' ->
        (root = "" /\ e = "empty path provided" /\ s' = s)
        \/ (root <> "" /\ os.Stat before root = inl e /\ s' = s)
        \/ (root <> ""
            /\ exists info err,
                 os.Stat before root = inr info
                 /\ os.Stat fs root = inl err
                 /\ e = "scan error: " ++ err
                 /\ s' = mkScanner (config s) (progress s) (workChan s) (workTaken s)
                                   (resultChan s) (errorChan s) (dirWg s + 1)))
  /\ ScanAfter Match DetectContentType fs fs now order fuel root s
     = Scan Match DetectContentType fs now order fuel root s.
Proof.
  split; [|split; [|split; [|split]]].
  - intros ->. reflexivity.
  - intros err Hne HS. unfold ScanAfter. destruct root; [congruence|]. simpl.
    now rewrite HS.
  - intros info err Hne HB HS. unfold ScanAfter. destruct root; [congruence|].
    cbn [filepath.isEmpty]. rewrite HB. unfold runScan, startScan. rewrite HS.
    reflexivity.
  - intros e s'. unfold ScanAfter. destruct root as [|c root]; cbn [filepath.isEmpty].
    + intros [= <- <-]. left. now repeat split.
    + destruct (os.Stat before (String c root)) as [err|info] eqn:HB.
      * intros [= <- <-]. right. left. split; [discriminate | now split].
      * unfold runScan, startScan.
        destruct (os.Stat fs (String c root)) as [err|info'] eqn:HS.
        -- intros [= <- <-]. right. right. split; [discriminate|].
           exists info, err. now repeat split.
        -- unfold bind, dirWgAdd, sendWork, ret, collectResults, getConfig, getProgress.
           destruct (worker Match DetectContentType fs fuel _) as [u s1| |];
             try discriminate.
           destruct (collectLoop now _ _ _). discriminate.
  - reflexivity.
Qed.

Lemma scan_fails_fast_witness :
  ScanAfter filepath.Match Sample.sniff Sample.testTree removedTree 1700000100
            (fun l => l) 100 "/data" (New 1700000000 (Sample.testConfig true))
  = Done (inl "scan error: stat /data: no such file or directory")
         (mkScanner (ScanConfig.mk 1 [] [] true true 4 1000)
                    (ScanProgress.mk 0 0 0 0 0 [] 1700000000 0 "") [] 0 [] [] 1).
Proof.
  destruct (scan_fails_fast filepath.Match Sample.sniff Sample.testTree removedTree
              1700000100 (fun l => l) 100 "/data"
              (New 1700000000 (Sample.testConfig true)))
    as (_ & _ & H & _).
  apply (H (Sample.directory "data")); [discriminate | reflexivity | reflexivity].
Defined.

(** X7: [Scan] on a path that [os.Stat] answers and that is not a
    directory never returns: the root is handled as a file, the wait
    group stays at 1, the work queue is never closed and the workers wait
    for ever. *)
Theorem scan_of_a_file_never_returns
    (Match : string -> string -> bool * option error)
    (DetectContentType : string -> string) (fs : os.FS) (started now : Z)
    (order : list ScanWorkResult.t -> list ScanWorkResult.t)
    (cfg : ScanConfig.t) (fuel : nat) (root : string) (info : os.FileInfo) :
  root <> "" ->
  os.Stat fs root = inr info ->
  os.IsDir info = false ->
  Scan Match DetectContentType fs now order (S (S fuel)) root (New started cfg) = Blocked.
Proof.
  intros Hne HS HD. unfold Scan. destruct root as [|c root]; [congruence|].
  cbn [filepath.isEmpty]. rewrite HS.
  unfold runScan, startScan. rewrite HS, HD.
  unfold bind at 1 2 3. unfold dirWgAdd, sendWork.
  unfold bind at 1. unfold ret at 1.
  unfold bind at 1.
  match goal with
  | |- match match worker _ _ _ _ ?st with _ => _ end with _ => _ end = _ =>
      set (s0 := st);
      assert (W : worker Match DetectContentType fs (S (S fuel)) s0 = Blocked)
  end.
  { cbn [worker]. change (nth_error (workChan s0) (workTaken s0))
      with (Some (ScanWork.mk (String c root) false 1)).
    unfold processWork, bind. cbn [ScanWork.IsDir].
    rewrite (processFile_run Match DetectContentType fs
               (ScanWork.mk (String c root) false 1) info _ HS).
    cbn [worker workChan workTaken dirWg nth_error]. reflexivity. }
  rewrite W. reflexivity.
Qed.

Lemma scan_of_a_file_never_returns_witness :
  Scan filepath.Match Sample.sniff Sample.testTree 1700000100 (fun l => l) 2
       "/data/small.txt" (New 1700000000 (Sample.testConfig true))
  = Blocked.
Proof.
  apply (scan_of_a_file_never_returns filepath.Match Sample.sniff Sample.testTree
           1700000000 1700000100 (fun l => l) (Sample.testConfig true) 0
           "/data/small.txt" (Sample.regular "small.txt" 100)).
  - discriminate.
  - reflexivity.
  - reflexivity.
Defined.

(** ** The order of arrival *)

(** X8: two scans that return and differ only in the order in which the
    results reach the collector have the same records up to their
    order, the same entries in the scanner's error log up to their order,
    the same success flag and the same counters. *)
Theorem arrival_order_changes_order_only
    (Match : string -> string -> bool * option error)
    (DetectContentType : string -> string) (fs : os.FS) (now : Z)
    (order1 order2 : list ScanWorkResult.t -> list ScanWorkResult.t)
    (fuel : nat) (root : string) (s s1 s2 : Scanner) (r1 r2 : ScanResult.t) :
  (forall l, Permutation (order1 l) l) ->
  (forall l, Permutation (order2 l) l) ->
  Scan Match DetectContentType fs now order1 fuel root s = Done (inr r1) s1 ->
  Scan Match DetectContentType fs now order2 fuel root s = Done (inr r2) s2 ->
  Permutation (ScanResult.Files r1) (ScanResult.Files r2)
  /\ Permutation (ScanProgress.Errors (progress s1)) (ScanProgress.Errors (progress s2))
  /\ ScanResult.Success r1 = ScanResult.Success r2
  /\ ScanProgress.TotalFiles (ScanResult.Progress r1)
     = ScanProgress.TotalFiles (ScanResult.Progress r2)
  /\ ScanProgress.ScannedFiles (ScanResult.Progress r1)
     = ScanProgress.ScannedFiles (ScanResult.Progress r2)
  /\ ScanProgress.BlockedFiles (ScanResult.Progress r1)
     = ScanProgress.BlockedFiles (ScanResult.Progress r2)
  /\ ScanProgress.ScannedSize (ScanResult.Progress r1)
     = ScanProgress.ScannedSize (ScanResult.Progress r2).
Proof.
  intros P1 P2 H1 H2.
  apply Scan_result in H1. destruct H1 as (t1 & f1 & p1 & HR1 & HC1 & -> & ->).
  apply Scan_result in H2. destruct H2 as (t2 & f2 & p2 & HR2 & HC2 & -> & ->).
  rewrite HR1 in HR2. injection HR2 as <-.
  destruct (finish_counters fs now (config t1) root f1 p1)
    as (A0 & A1 & A2 & _ & A4 & A5 & A6 & _).
  destruct (finish_counters fs now (config t1) root f2 p2)
    as (B0 & B1 & B2 & _ & B4 & B5 & B6 & _).
  rewrite A0, A1, A2, A4, A5, A6, B0, B1, B2, B4, B5, B6.
  destruct (collectLoop_counters _ _ _ _ _ _ HC1) as (C1 & C2 & _ & C4 & C5 & _).
  destruct (collectLoop_counters _ _ _ _ _ _ HC2) as (D1 & D2 & _ & D4 & D5 & _).
  rewrite C1, C2, C4, C5, D1, D2, D4, D5.
  apply collectLoop_spec in HC1. destruct HC1 as (F1 & E1 & _).
  apply collectLoop_spec in HC2. destruct HC2 as (F2 & E2 & _).
  cbn [progress set_progress]. simpl in F1, F2.
  assert (PE : Permutation (ScanProgress.Errors p1) (ScanProgress.Errors p2)).
  { rewrite E1, E2. apply Permutation_app_head.
    apply errorsOf_Permutation. rewrite (P1 _). symmetry. apply P2. }
  repeat split; try reflexivity.
  - rewrite F1, F2. apply recordsOf_Permutation. rewrite (P1 _). symmetry. apply P2.
  - exact PE.
  - now rewrite (Permutation_length PE).
Qed.

Lemma arrival_order_changes_order_only_witness :
  let s := New 1700000000 (Sample.testConfig true) in
  let o1 := Scan filepath.Match Sample.sniff Sample.testTree 1700000100
              (fun l => l) 100 "/data" s in
  let o2 := Scan filepath.Match Sample.sniff Sample.testTree 1700000100
              (@rev ScanWorkResult.t) 100 "/data" s in
  let r1 := Sample.resultOf o1 in
  let r2 := Sample.resultOf o2 in
  Permutation (ScanResult.Files r1) (ScanResult.Files r2)
  /\ Permutation (ScanProgress.Errors (progress (Sample.scannerOf o1)))
                 (ScanProgress.Errors (progress (Sample.scannerOf o2)))
  /\ ScanResult.Success r1 = ScanResult.Success r2
  /\ ScanProgress.TotalFiles (ScanResult.Progress r1)
     = ScanProgress.TotalFiles (ScanResult.Progress r2)
  /\ ScanProgress.ScannedFiles (ScanResult.Progress r1)
     = ScanProgress.ScannedFiles (ScanResult.Progress r2)
  /\ ScanProgress.BlockedFiles (ScanResult.Progress r1)
     = ScanProgress.BlockedFiles (ScanResult.Progress r2)
  /\ ScanProgress.ScannedSize (ScanResult.Progress r1)
     = ScanProgress.ScannedSize (ScanResult.Progress r2).
Proof.
  apply (arrival_order_changes_order_only filepath.Match Sample.sniff Sample.testTree
           1700000100 (fun l => l) (@rev ScanWorkResult.t) 100 "/data"
           (New 1700000000 (Sample.testConfig true))).
  - intros l. apply Permutation_refl.
  - intros l. apply Permutation_sym, Permutation_rev.
  - vm_compute. reflexivity.
  - vm_compute. reflexivity.
Defined.

(** ** More on the blocking rules *)

Lemma existsb_same_members {A : Type} (f : A -> bool) (l l' : list A) :
  (forall x, In x l -> In x l') -> existsb f l = true -> existsb f l' = true.
Proof.
  intros H E. apply existsb_exists in E. destruct E as (x & Hin & Hx).
  apply existsb_exists. exists x. split; [now apply H | exact Hx].
Qed.

Lemma existsb_members_eq {A : Type} (f : A -> bool) (l l' : list A) :
  (forall x, In x l <-> In x l') -> existsb f l = existsb f l'.
Proof.
  intros H. destruct (existsb f l) eqn:E.
  - symmetry. apply (existsb_same_members f l l'); [apply H | exact E].
  - destruct (existsb f l') eqn:E'; [|reflexivity].
    rewrite (existsb_same_members f l' l) in E; [discriminate | apply H | exact E'].
Qed.

Section MoreRules.

Variable Match : string -> string -> bool * option error.

Lemma firstMatchedPattern_first (before after : list string) (q name : string) :
  Forall (fun p => fst (Match p name) = false) before ->
  fst (Match q name) = true ->
  firstMatchedPattern Match (before ++ q :: after) name = Some q.
Proof.
  intros HB HQ. induction HB as [|p before Hp _ IH]; simpl.
  - destruct (Match q name) as [m e]. simpl in HQ. now subst m.
  - destruct (Match p name) as [m e]. simpl in Hp. subst m. exact IH.
Qed.

(** X9: a file whose name a pattern of the list matches is blocked; when
    its size is within the limit and the allow-list lets it through, the
    reason names the first pattern of the list that matches. *)
Theorem first_matching_pattern_is_reported
    (s : Scanner) (file : FileInfo.t) (before after : list string) (q : string) :
  ScanConfig.BlockedPatterns (config s) = (before ++ q :: after)%list ->
  Forall (fun p => fst (Match p (FileInfo.Name file)) = false) before ->
  Match q (FileInfo.Name file) = (true, None) ->
  shouldBlockFile Match s file = true
  /\ (FileInfo.Size file <= sizeLimit s ->
      (ScanConfig.AllowedTypes (config s) = []
       \/ exists t, In t (ScanConfig.AllowedTypes (config s))
                    /\ strings.EqualFold (FileInfo.Extension file) t = true) ->
      getBlockReason Match s file = "File matches blocked pattern: " ++ q).
Proof.
  intros HP HB HQ.
  assert (EP : existsb (patternMatches Match (FileInfo.Name file))
                       (ScanConfig.BlockedPatterns (config s)) = true).
  { apply existsb_exists. exists q. split.
    - rewrite HP. apply in_or_app. right. now left.
    - unfold patternMatches. now rewrite HQ. }
  split.
  - rewrite shouldBlockFile_cases, EP.
    destruct (FileInfo.Size file >? sizeLimit s); [reflexivity|].
    destruct (ScanConfig.AllowedTypes (config s)) as [|t ts]; [reflexivity|].
    destruct (existsb _ (t :: ts)); reflexivity.
  - intros HS HA. rewrite getBlockReason_cases. cbv zeta.
    rewrite HP, (firstMatchedPattern_first before after q); [|exact HB | now rewrite HQ].
    replace (FileInfo.Size file >? sizeLimit s) with false
      by (symmetry; rewrite Z.gtb_ltb; apply Z.ltb_ge; lia).
    destruct HA as [-> | (t & Hin & Ht)]; [reflexivity|].
    destruct (ScanConfig.AllowedTypes (config s)) as [|t0 ts] eqn:EA; [reflexivity|].
    replace (existsb (strings.EqualFold (FileInfo.Extension file)) (t0 :: ts)) with true;
      [reflexivity|].
    symmetry. apply existsb_exists. now exists t.
Qed.

(** X10: with the size within the limit and an allow-list that is not
    empty, a file whose extension equals no entry under case folding is
    blocked with the reason "File type not allowed", and a file whose
    extension equals an entry is blocked exactly when a pattern matches
    its name. *)
Theorem allow_list_rule (s : Scanner) (file : FileInfo.t) :
  FileInfo.Size file <= sizeLimit s ->
  ScanConfig.AllowedTypes (config s) <> [] ->
  ((forall t, In t (ScanConfig.AllowedTypes (config s)) ->
              strings.EqualFold (FileInfo.Extension file) t = false) ->
   shouldBlockFile Match s file = true
   /\ getBlockReason Match s file = "File type not allowed")
  /\ ((exists t, In t (ScanConfig.AllowedTypes (config s))
                 /\ strings.EqualFold (FileInfo.Extension file) t = true) ->
      shouldBlockFile Match s file
      = existsb (patternMatches Match (FileInfo.Name file))
                (ScanConfig.BlockedPatterns (config s))).
Proof.
  intros HS HA.
  rewrite shouldBlockFile_cases, getBlockReason_cases. cbv zeta.
  replace (FileInfo.Size file >? sizeLimit s) with false
    by (symmetry; rewrite Z.gtb_ltb; apply Z.ltb_ge; lia).
  destruct (ScanConfig.AllowedTypes (config s)) as [|t0 ts] eqn:EA; [congruence|].
  split.
  - intros Hnone.
    replace (existsb (strings.EqualFold (FileInfo.Extension file)) (t0 :: ts)) with false;
      [now split|].
    symmetry. apply Bool.not_true_is_false. intros E.
    apply existsb_exists in E. destruct E as (t & Hin & Ht).
    rewrite (Hnone t Hin) in Ht. discriminate.
  - intros (t & Hin & Ht).
    replace (existsb (strings.EqualFold (FileInfo.Extension file)) (t0 :: ts)) with true;
      [reflexivity|].
    symmetry. apply existsb_exists. now exists t.
Qed.

(** X11: the decision depends on the allow-list and on the pattern list
    through their members only, not their order or repetitions; and a
    blocked file stays blocked when patterns are added. *)
Theorem decision_depends_on_members
    (s : Scanner) (file : FileInfo.t) (allowed patterns : list string) :
  let s' :=
    set_config s
      (ScanConfig.mk (ScanConfig.MaxFileSizeMB (config s)) allowed patterns
         (ScanConfig.ScanRecursively (config s))
         (ScanConfig.ExportBlockedToJSON (config s))
         (ScanConfig.WorkerCount (config s)) (ScanConfig.BufferSize (config s))) in
  ((forall t, In t (ScanConfig.AllowedTypes (config s)) <-> In t allowed) ->
   (forall p, In p (ScanConfig.BlockedPatterns (config s)) <-> In p patterns) ->
   shouldBlockFile Match s' file = shouldBlockFile Match s file)
  /\ (allowed = ScanConfig.AllowedTypes (config s) ->
      (forall p, In p (ScanConfig.BlockedPatterns (config s)) -> In p patterns) ->
      shouldBlockFile Match s file = true ->
      shouldBlockFile Match s' file = true).
Proof.
  cbv zeta. split.
  - intros HA HP. rewrite !shouldBlockFile_cases. unfold sizeLimit.
    cbn [config set_config ScanConfig.AllowedTypes ScanConfig.BlockedPatterns
         ScanConfig.MaxFileSizeMB].
    destruct (FileInfo.Size file >? _); [reflexivity|].
    rewrite <- (existsb_members_eq _ _ _ HP).
    destruct (ScanConfig.AllowedTypes (config s)) as [|t ts] eqn:EA.
    + destruct allowed as [|t' ts']; [reflexivity|].
      exfalso. apply (HA t'). now left.
    + destruct allowed as [|t' ts'].
      * exfalso. apply (HA t). now left.
      * now rewrite <- (existsb_members_eq _ _ _ HA).
  - intros -> HP. rewrite !shouldBlockFile_cases. unfold sizeLimit.
    cbn [config set_config ScanConfig.AllowedTypes ScanConfig.BlockedPatterns
         ScanConfig.MaxFileSizeMB].
    destruct (FileInfo.Size file >? _); [reflexivity|].
    destruct (ScanConfig.AllowedTypes (config s)) as [|t ts].
    + apply existsb_same_members, HP.
    + destruct (existsb _ (t :: ts)); [|reflexivity].
      apply existsb_same_members, HP.
Qed.

End MoreRules.

Lemma first_matching_pattern_is_reported_witness :
  let s := New 1700000000 (ScanConfig.mk 10 [] ["*.tmp"; ".*"] true true 0 0) in
  let file :=
    statRecord (ScanWork.mk "/data/.hidden" false 1) (Sample.regular ".hidden" 4) in
  shouldBlockFile filepath.Match s file = true
  /\ getBlockReason filepath.Match s file = "File matches blocked pattern: .*".
Proof.
  cbv zeta.
  destruct (first_matching_pattern_is_reported filepath.Match
              (New 1700000000 (ScanConfig.mk 10 [] ["*.tmp"; ".*"] true true 0 0))
              (statRecord (ScanWork.mk "/data/.hidden" false 1) (Sample.regular ".hidden" 4))
              ["*.tmp"] [] ".*") as [B R].
  - reflexivity.
  - constructor; [reflexivity | constructor].
  - reflexivity.
  - split; [exact B|]. apply R.
    + vm_compute. discriminate.
    + left. reflexivity.
Defined.

Lemma allow_list_rule_witness :
  let s := New 1700000000 (ScanConfig.mk 10 [".txt"; ".pdf"] [] true false 0 0) in
  let image :=
    statRecord (ScanWork.mk "/data/image.jpg" false 1) (Sample.regular "image.jpg" 4) in
  let text :=
    statRecord (ScanWork.mk "/data/NOTES.TXT" false 1) (Sample.regular "NOTES.TXT" 13) in
  (shouldBlockFile filepath.Match s image = true
   /\ getBlockReason filepath.Match s image = "File type not allowed")
  /\ shouldBlockFile filepath.Match s text = false.
Proof.
  cbv zeta. split.
  - apply (allow_list_rule filepath.Match
             (New 1700000000 (ScanConfig.mk 10 [".txt"; ".pdf"] [] true false 0 0))
             (statRecord (ScanWork.mk "/data/image.jpg" false 1)
                         (Sample.regular "image.jpg" 4))).
    + vm_compute. discriminate.
    + discriminate.
    + intros t [<- | [<- | []]]; reflexivity.
  - reflexivity.
Defined.

Lemma decision_depends_on_members_witness :
  let s := New 1700000000 (ScanConfig.mk 10 [".txt"; ".pdf"] ["*.tmp"; ".*"] true false 0 0) in
  let s' := set_config s (ScanConfig.mk 10 [".pdf"; ".txt"; ".pdf"] [".*"; "*.tmp"]
                            true false 4 1000) in
  let file :=
    statRecord (ScanWork.mk "/data/temp.tmp" false 1) (Sample.regular "temp.tmp" 4) in
  shouldBlockFile filepath.Match s' file = shouldBlockFile filepath.Match s file.
Proof.
  cbv zeta.
  destruct (decision_depends_on_members filepath.Match
              (New 1700000000
                 (ScanConfig.mk 10 [".txt"; ".pdf"] ["*.tmp"; ".*"] true false 0 0))
              (statRecord (ScanWork.mk "/data/temp.tmp" false 1)
                          (Sample.regular "temp.tmp" 4))
              [".pdf"; ".txt"; ".pdf"] [".*"; "*.tmp"]) as [E _].
  apply E.
  - intros t. simpl. tauto.
  - intros p. simpl. tauto.
Defined.

(** ** The export *)

Lemma blockedSizeOf_sum (files : list FileInfo.t) (acc : Z) :
  Int64.in_range acc ->
  blockedSizeOf files acc = Int64.wrap (acc + sizeSum (filter FileInfo.IsBlocked files)).
Proof.
  revert acc. induction files as [|f files IH]; intros acc Hacc; simpl.
  - rewrite Z.add_0_r. symmetry. now apply wrap_of_in_range.
  - destruct (FileInfo.IsBlocked f); simpl.
    + rewrite IH by apply wrap_range. unfold Int64.add. rewrite wrap_add_l.
      f_equal. lia.
    + now apply IH.
Qed.

(** X12: the data of the export hold exactly the blocked records of the
    result, in its order; [BlockedCount] is their number and
    [BlockedSize] the sum of their sizes as an [int64]; the total of
    files, the total size and the duration are those of the result. *)
Theorem export_data_holds_the_blocked_files (now : Z) (result : ScanResult.t) :
  let data := exportDataOf now result in
  (forall f, In f (ExportData.BlockedFiles data)
             <-> In f (ScanResult.Files result) /\ FileInfo.IsBlocked f = true)
  /\ (exists dropped, Permutation (ScanResult.Files result)
                        (ExportData.BlockedFiles data ++ dropped)
                      /\ Forall (fun f => FileInfo.IsBlocked f = false) dropped)
  /\ ExportData.BlockedCount data = blockedCount (ScanResult.Files result)
  /\ ExportData.BlockedSize data = Int64.wrap (sizeSum (ExportData.BlockedFiles data))
  /\ ExportData.TotalFiles data = ScanProgress.TotalFiles (ScanResult.Progress result)
  /\ ExportData.TotalSize data = ScanProgress.TotalSize (ScanResult.Progress result)
  /\ ExportData.ScanDuration data = ScanResult.Duration result.
Proof.
  cbv zeta. unfold exportDataOf. cbn [ExportData.BlockedFiles ExportData.BlockedCount
    ExportData.BlockedSize ExportData.TotalFiles ExportData.TotalSize
    ExportData.ScanDuration].
  split; [intros f; apply filter_In|].
  split.
  - exists (filter (fun f => negb (FileInfo.IsBlocked f)) (ScanResult.Files result)).
    split.
    + induction (ScanResult.Files result) as [|f files IH]; simpl; [constructor|].
      destruct (FileInfo.IsBlocked f); simpl.
      * now constructor.
      * apply Permutation_cons_app. exact IH.
    + apply Forall_forall. intros f Hf. apply filter_In in Hf.
      destruct Hf as [_ Hf]. now apply Bool.negb_true_iff.
  - repeat split. rewrite blockedSizeOf_sum.
    + reflexivity.
    + unfold Int64.in_range, Int64.min_int, Int64.max_int.
      change (2 ^ 63) with 9223372036854775808. lia.
Qed.

(** ** [New] *)

(** X13: whatever the configuration, the scanner [New] returns has at
    least one worker and a buffer of at least one item, keeps a worker
    count and a buffer size that are positive, is the same for a
    configuration that [New] has completed, and starts with empty
    channels, counters at 0 and an empty error log. *)
Theorem New_resolves_the_configuration (started : Z) (cfg : ScanConfig.t) :
  let s := New started cfg in
  1 <= ScanConfig.WorkerCount (config s)
  /\ 1 <= ScanConfig.BufferSize (config s)
  /\ (0 < ScanConfig.WorkerCount cfg ->
      ScanConfig.WorkerCount (config s) = ScanConfig.WorkerCount cfg)
  /\ (0 < ScanConfig.BufferSize cfg ->
      ScanConfig.BufferSize (config s) = ScanConfig.BufferSize cfg)
  /\ New started (config s) = s
  /\ workChan s = [] /\ resultChan s = [] /\ errorChan s = [] /\ dirWg s = 0
  /\ progress s = ScanProgress.mk 0 0 0 0 0 [] started 0 "".
Proof.
  cbv zeta. destruct cfg as [mb allowed patterns rec export w b]. unfold New.
  cbn [ScanConfig.BufferSize ScanConfig.WorkerCount ScanConfig.MaxFileSizeMB
       ScanConfig.AllowedTypes ScanConfig.BlockedPatterns ScanConfig.ScanRecursively
       ScanConfig.ExportBlockedToJSON].
  destruct (w <=? 0) eqn:EW;
    cbn [ScanConfig.BufferSize ScanConfig.WorkerCount ScanConfig.MaxFileSizeMB
         ScanConfig.AllowedTypes ScanConfig.BlockedPatterns ScanConfig.ScanRecursively
         ScanConfig.ExportBlockedToJSON];
    destruct (b <=? 0) eqn:EB;
    cbn [ScanConfig.BufferSize ScanConfig.WorkerCount ScanConfig.MaxFileSizeMB
         ScanConfig.AllowedTypes ScanConfig.BlockedPatterns ScanConfig.ScanRecursively
         ScanConfig.ExportBlockedToJSON config workChan resultChan errorChan dirWg
         progress];
    rewrite ?EW, ?EB;
    change (4 <=? 0) with false; change (1000 <=? 0) with false;
    cbn [ScanConfig.BufferSize ScanConfig.WorkerCount ScanConfig.MaxFileSizeMB
         ScanConfig.AllowedTypes ScanConfig.BlockedPatterns ScanConfig.ScanRecursively
         ScanConfig.ExportBlockedToJSON];
    rewrite ?EW, ?EB;
    try apply Z.leb_le in EW; try apply Z.leb_gt in EW;
    try apply Z.leb_le in EB; try apply Z.leb_gt in EB;
    repeat split; try lia; reflexivity.
Qed.

(** ** The type of a file *)

(** X14: for a file that [os.Stat] answers and whose start can be read
    (some bytes, or none and no error), the record of the worker has no
    access error, the MIME type found in the bytes read, and as file
    type the extension without its dot, or, without extension, what
    stands before the slash in the MIME type. *)
Theorem file_type_label
    (Match : string -> string -> bool * option error)
    (DetectContentType : string -> string) (fs : os.FS) (s : Scanner)
    (work : ScanWork.t) (info : os.FileInfo) (f : os.File)
    (buffer : string) (err : option error) :
  os.Open fs (ScanWork.Path work) = inr f ->
  os.Read f = (buffer, err) ->
  err = None \/ buffer <> "" ->
  let file := workerRecord Match DetectContentType fs s work info in
  FileInfo.AccessError file = ""
  /\ FileInfo.MimeType file = DetectContentType buffer
  /\ (FileInfo.Extension file = "" ->
      FileInfo.FileType file = hd "" (strings.SplitByte (DetectContentType buffer) "/"%char))
  /\ (FileInfo.Extension file <> "" ->
      FileInfo.Extension file = String "."%char (FileInfo.FileType file)).
Proof.
  intros HO HR HE. cbv zeta. unfold workerRecord.
  assert (D : detectFileType DetectContentType fs (statRecord work info)
              = (FileInfo.set_type (statRecord work info) (DetectContentType buffer)
                   (if negb (filepath.isEmpty (strings.ToLower (filepath.Ext (os.Name info))))
                    then strings.TrimPrefix (strings.ToLower (filepath.Ext (os.Name info))) "."
                    else hd "" (strings.SplitByte (DetectContentType buffer) "/"%char)),
                 None)).
  { unfold detectFileType. cbn [statRecord FileInfo.Path FileInfo.set_stat FileInfo.init].
    rewrite HO, HR. destruct err as [e|]; [|reflexivity].
    destruct buffer; [|reflexivity]. destruct HE; congruence. }
  rewrite D.
  set (ext := strings.ToLower (filepath.Ext (os.Name info))).
  assert (T : (ext = "" -> (if negb (filepath.isEmpty ext)
                            then strings.TrimPrefix ext "."
                            else hd "" (strings.SplitByte (DetectContentType buffer) "/"%char))
                           = hd "" (strings.SplitByte (DetectContentType buffer) "/"%char))
              /\ (ext <> "" -> ext = String "."%char
                                      (if negb (filepath.isEmpty ext)
                                       then strings.TrimPrefix ext "."
                                       else hd "" (strings.SplitByte
                                                     (DetectContentType buffer) "/"%char)))).
  { destruct (ToLower_Ext_shape (os.Name info)) as [E | [rest E]]; fold ext in E; rewrite E.
    - split; [reflexivity | congruence].
    - split; [discriminate | intros _; destruct rest; reflexivity]. }
  destruct T as [T1 T2].
  destruct (shouldBlockFile Match s _); cbn; repeat split; assumption.
Qed.

Lemma file_type_label_witness :
  let s := New 1700000000 (Sample.testConfig true) in
  let file :=
    workerRecord filepath.Match Sample.sniff Sample.testTree s
      (ScanWork.mk "/data/small.txt" false 1) (Sample.regular "small.txt" 100) in
  FileInfo.AccessError file = ""
  /\ FileInfo.MimeType file = Sample.sniff "hello"
  /\ (FileInfo.Extension file = "" ->
      FileInfo.FileType file = hd "" (strings.SplitByte (Sample.sniff "hello") "/"%char))
  /\ (FileInfo.Extension file <> "" ->
      FileInfo.Extension file = String "."%char (FileInfo.FileType file)).
Proof.
  apply (file_type_label filepath.Match Sample.sniff Sample.testTree
           (New 1700000000 (Sample.testConfig true))
           (ScanWork.mk "/data/small.txt" false 1) (Sample.regular "small.txt" 100)
           (os.mkFile ("hello", None)) "hello" None).
  - reflexivity.
  - reflexivity.
  - now left.
Defined.

(** ** The error channel *)

Lemma withinBuffer_refl (s : Scanner) : withinBuffer s s.
Proof. now split. Qed.

Lemma withinBuffer_trans (s1 s2 s3 : Scanner) :
  withinBuffer s1 s2 -> withinBuffer s2 s3 -> withinBuffer s1 s3.
Proof. intros [C1 H1] [C2 H2]. split; [now rewrite C2 | auto]. Qed.

Lemma withinBuffer_same (s s' : Scanner) :
  config s' = config s -> errorChan s' = errorChan s -> withinBuffer s s'.
Proof. intros C E. split; [exact C|]. now rewrite C, E. Qed.

Lemma withinBuffer_sendError (e : error) : preserves withinBuffer (sendError e).
Proof.
  intros s a s'. unfold sendError.
  destruct (Z.of_nat (List.length (errorChan s)) <? ScanConfig.BufferSize (config s)) eqn:E;
    [|discriminate].
  intros [= _ <-]. split; [reflexivity|]. intros _. simpl.
  apply Z.ltb_lt in E. rewrite length_app. simpl. lia.
Qed.

Lemma withinBuffer_runScan (Match : string -> string -> bool * option error)
    (DetectContentType : string -> string) (fs : os.FS) (fuel : nat) (root : string) :
  preserves withinBuffer (runScan Match DetectContentType fs fuel root).
Proof.
  apply preserves_runScan.
  - apply withinBuffer_refl.
  - apply withinBuffer_trans.
  - intros n s a s' [= _ <-]. now apply withinBuffer_same.
  - intros w s a s' [= _ <-]. now apply withinBuffer_same.
  - intros fuel'. apply preserves_worker.
    + apply withinBuffer_refl.
    + apply withinBuffer_trans.
    + intros p n s a s' [= _ <-]. now apply withinBuffer_same.
    + apply withinBuffer_sendError.
    + intros n s a s' [= _ <-]. now apply withinBuffer_same.
    + intros s fullPath a s' _ [= _ <-]. now apply withinBuffer_same.
    + intros work s a s' H. apply processFile_frame in H.
      destruct H as (C & _ & _ & E & _). now apply withinBuffer_same.
    + intros s. now apply withinBuffer_same.
Qed.

(** X15: a scan that returns has sent at most [BufferSize] errors on the
    error channel (1000 when the size was left to [New]): with more
    directories or entries that cannot be read than the buffer holds,
    [Scan] does not return.  A traversal that finds the buffer full on a
    directory it cannot read waits for ever. *)
Theorem error_channel_is_bounded
    (Match : string -> string -> bool * option error)
    (DetectContentType : string -> string) (fs : os.FS) (started now : Z)
    (order : list ScanWorkResult.t -> list ScanWorkResult.t)
    (cfg : ScanConfig.t) (fuel : nat) (root : string) :
  (forall result s',
      Scan Match DetectContentType fs now order fuel root (New started cfg)
      = Done (inr result) s' ->
      Z.of_nat (List.length (errorChan s'))
      <= ScanConfig.BufferSize (config (New started cfg)))
  /\ (forall path err s,
        os.ReadDir fs path = inl err ->
        String.eqb path root = false ->
        ScanConfig.BufferSize (config s) <= Z.of_nat (List.length (errorChan s)) ->
        scanDirectory fs (S fuel) path root s = Blocked).
Proof.
  split.
  - intros result s' H. apply Scan_result in H.
    destruct H as (s1 & files & p0 & HR & _ & -> & _).
    apply withinBuffer_runScan in HR. destruct HR as [C HB].
    cbn [errorChan set_progress]. rewrite <- C. apply HB.
    destruct (New_config started cfg) as (_ & _ & _ & B). simpl. simpl in B. lia.
  - intros path err s HR HP HB. simpl. rewrite HP, HR.
    unfold bind, ret, sendError.
    replace (Z.of_nat (List.length (errorChan s)) <? ScanConfig.BufferSize (config s))
      with false; [reflexivity|].
    symmetry. apply Z.ltb_ge. exact HB.
Qed.

Lemma error_channel_is_bounded_witness :
  scanDirectory Sample.lockedDirTree 1 "/data/locked" "/data" fullErrorChannel = Blocked.
Proof.
  destruct (error_channel_is_bounded filepath.Match Sample.sniff Sample.lockedDirTree
              1700000000 1700000100 (fun l => l) (Sample.testConfig true) 0 "/data")
    as [_ H].
  apply (H "/data/locked" "open /data/locked: permission denied").
  - reflexivity.
  - reflexivity.
  - vm_compute. discriminate.
Defined.

(** ** A scan that is not recursive *)

Lemma bind_ext_at {A B : Type} (m : M A) (k k' : A -> M B) (s : Scanner) :
  (forall a s1, m s = Done a s1 -> k a s1 = k' a s1) ->
  bind m k s = bind m k' s.
Proof.
  intros H. unfold bind. destruct (m s) as [a s1| |]; [now apply H | reflexivity..].
Qed.

Lemma scanEntries_not_recursive (spawn spawn' : string -> M unit) (path root : string)
    (entries : list os.DirEntry) (s : Scanner) :
  ScanConfig.ScanRecursively (config s) = false ->
  scanEntries spawn path root entries s = scanEntries spawn' path root entries s.
Proof.
  revert s. induction entries as [|entry rest IH]; intros s H; simpl; [reflexivity|].
  destruct (os.Info entry) as [err|info].
  - apply bind_ext_at. intros a s1 E. apply IH.
    unfold sendError in E. destruct (_ <? _); [|discriminate].
    injection E as _ <-. exact H.
  - rewrite !bind_getConfig, H.
    apply bind_ext_at. intros a s1 E. apply IH.
    destruct (os.IsDir info).
    + destruct (String.eqb path root).
      * injection E as _ <-. exact H.
      * injection E as _ <-. exact H.
    + destruct (_ && _); injection E as _ <-; exact H.
Qed.

(** X16: a scan that is not recursive starts no traversal below the
    directory it is given: what the traversal of a directory does
    depends on the file system through the listing of that directory
    only, and not on the depth it is allowed, so no other directory is
    read, no file is opened and no [os.Stat] is made. *)
Theorem not_recursive_reads_one_directory
    (fs fs' : os.FS) (fuel fuel' : nat) (path root : string) (s : Scanner) :
  ScanConfig.ScanRecursively (config s) = false ->
  os.ReadDir fs path = os.ReadDir fs' path ->
  scanDirectory fs (S fuel) path root s = scanDirectory fs' (S fuel') path root s.
Proof.
  intros H HR. simpl. apply bind_ext_at. intros a s1 E.
  assert (C : ScanConfig.ScanRecursively (config s1) = false).
  { destruct (String.eqb path root); injection E as _ <-; exact H. }
  rewrite <- HR.
  destruct (os.ReadDir fs path) as [err|entries]; [reflexivity|].
  unfold bind.
  now rewrite (scanEntries_not_recursive _ (fun fullPath => scanDirectory fs' fuel' fullPath root)).
Qed.

Lemma not_recursive_reads_one_directory_witness :
  let s := New 1700000000 (Sample.testConfig false) in
  scanDirectory Sample.testTree 8 "/data" "/data" s
  = scanDirectory listingOnlyTree 1 "/data" "/data" s.
Proof.
  apply (not_recursive_reads_one_directory Sample.testTree listingOnlyTree 7 0
           "/data" "/data" (New 1700000000 (Sample.testConfig false)));
    reflexivity.
Defined.

(** ** The directory shown as current *)

Lemma recordsOf_cons (res : ScanWorkResult.t) (rest : list ScanWorkResult.t) :
  recordsOf (res :: rest)
  = (match ScanWorkResult.Error res with
     | Some _ => []
     | None => [ScanWorkResult.FileInfo res]
     end ++ recordsOf rest)%list.
Proof. reflexivity. Qed.

Lemma collectLoop_no_records (now : Z) (arrivals : list ScanWorkResult.t)
    (files files' : list FileInfo.t) (p p' : ScanProgress.t) :
  recordsOf arrivals = [] ->
  collectLoop now arrivals files p = (files', p') ->
  ScanProgress.CurrentDirectory p' = ScanProgress.CurrentDirectory p
  /\ ScanProgress.LastUpdated p' = ScanProgress.LastUpdated p.
Proof.
  revert files p. induction arrivals as [|res rest IH]; intros files p Hn; cbn [collectLoop].
  - intros [= _ <-]. now split.
  - rewrite recordsOf_cons in Hn.
    destruct (ScanWorkResult.Error res) as [e|]; [|discriminate].
    intros H. apply (IH _ _ Hn) in H. exact H.
Qed.

Lemma collectLoop_current (now : Z) (arrivals : list ScanWorkResult.t)
    (files files' : list FileInfo.t) (p p' : ScanProgress.t) (d : FileInfo.t) :
  collectLoop now arrivals files p = (files', p') ->
  recordsOf arrivals <> [] ->
  ScanProgress.CurrentDirectory p' = filepath.Dir (FileInfo.Path (last (recordsOf arrivals) d))
  /\ ScanProgress.LastUpdated p' = now.
Proof.
  revert files p. induction arrivals as [|res rest IH]; intros files p; cbn [collectLoop].
  - intros _ Hne. now contradiction Hne.
  - rewrite recordsOf_cons.
    destruct (ScanWorkResult.Error res) as [e|].
    + intros H Hne. now apply (IH _ _ H).
    + intros H _. cbn [app]. destruct (recordsOf rest) as [|f fs'] eqn:ER.
      * apply (collectLoop_no_records _ _ _ _ _ _ ER) in H. exact H.
      * change (last (ScanWorkResult.FileInfo res :: f :: fs') d) with (last (f :: fs') d).
        apply (IH _ _ H). discriminate.
Qed.

(** X17: after a scan that returns with records, the directory shown as
    current in the progress is the parent directory of the last record
    that reached the collector. *)
Theorem current_directory_is_of_the_last_record
    (Match : string -> string -> bool * option error)
    (DetectContentType : string -> string) (fs : os.FS) (now : Z)
    (order : list ScanWorkResult.t -> list ScanWorkResult.t)
    (fuel : nat) (root : string) (s s' : Scanner) (result : ScanResult.t)
    (d : FileInfo.t) :
  Scan Match DetectContentType fs now order fuel root s = Done (inr result) s' ->
  ScanResult.Files result <> [] ->
  ScanProgress.CurrentDirectory (ScanResult.Progress result)
  = filepath.Dir (FileInfo.Path (last (ScanResult.Files result) d)).
Proof.
  intros H Hne. apply Scan_result in H.
  destruct H as (s1 & files & p0 & _ & HC & -> & ->).
  assert (F : ScanResult.Files (finish fs now (config s1) root files p0) = files
              /\ ScanProgress.CurrentDirectory
                   (ScanResult.Progress (finish fs now (config s1) root files p0))
                 = ScanProgress.CurrentDirectory p0).
  { unfold finish. destruct (ScanConfig.ExportBlockedToJSON (config s1)); [|now split].
    destruct (ExportBlockedFiles fs now _ _); now split. }
  destruct F as [F1 F2]. rewrite F1 in *. rewrite F2.
  pose proof (collectLoop_spec _ _ _ _ _ _ HC) as (HF & _). simpl in HF.
  rewrite HF in *. now apply (collectLoop_current _ _ _ _ _ _ d HC).
Qed.

Lemma current_directory_is_of_the_last_record_witness :
  ScanProgress.CurrentDirectory (ScanResult.Progress (Sample.resultOf Sample.treeScan))
  = filepath.Dir (FileInfo.Path (last (ScanResult.Files (Sample.resultOf Sample.treeScan))
                                      (FileInfo.init "" "" false))).
Proof.
  apply (current_directory_is_of_the_last_record filepath.Match Sample.sniff
           Sample.testTree 1700000100 (fun l => l) 100 "/data"
           (New 1700000000 (Sample.testConfig true))
           (Sample.scannerOf Sample.treeScan)).
  - vm_compute. reflexivity.
  - vm_compute. discriminate.
Defined.

(** ** The registry and the status of a scan *)

(** The copy [GetProgress] hands out has the values of the progress. *)
Lemma GetProgress_copy (s : Scanner) : GetProgress s = progress s.
Proof.
  unfold GetProgress. destruct (progress s) as [tf sf ts ss bf errs st lu cd]. simpl.
  destruct errs; reflexivity.
Qed.

Lemma put_same {V : Type} (m : string -> option V) (k : string) (v : V) :
  api.put m k v k = Some v.
Proof. unfold api.put. now rewrite String.eqb_refl. Qed.

Lemma put_other {V : Type} (m : string -> option V) (k k' : string) (v : V) :
  k' <> k -> api.put m k v k' = m k'.
Proof. intros H. unfold api.put. apply String.eqb_neq in H. now rewrite H. Qed.

(** X18: once the goroutine of a scan has ended, the status of its path
    is "running" with the final progress of the scanner when the scan
    gave a result, and "error" when it gave an error, with code 200 in
    both cases; the status of every other path is as before. *)
Theorem status_after_a_scan
    (path : string) (scanned : outcome (error + ScanResult.t))
    (reg reg' : api.Registry) :
  path <> "" ->
  api.scanGoroutine path scanned reg = Some reg' ->
  (forall result s', scanned = Done (inr result) s' ->
     api.GetStatus path reg'
     = api.StatusJson 200 (api.mkStatus "running" (Some (progress s')) None))
  /\ (forall e s', scanned = Done (inl e) s' ->
        api.GetStatus path reg' = api.StatusJson 200 (api.mkStatus "error" None None))
  /\ (forall id, id <> path -> api.GetStatus id reg' = api.GetStatus id reg).
Proof.
  intros Hne H.
  assert (E : filepath.isEmpty path = false)
    by (destruct path; [now elim Hne | reflexivity]).
  destruct scanned as [[e|result] s1| |]; try discriminate; injection H as <-.
  - split; [discriminate|]. split.
    + intros e' s' _. unfold api.GetStatus. rewrite E. cbn [api.activeScans].
      now rewrite put_same.
    + intros id Hid. unfold api.GetStatus. cbn [api.activeScans api.scanResults].
      now rewrite put_other.
  - split; [|split; [discriminate|]].
    + intros result' s' [= _ <-]. unfold api.GetStatus. rewrite E.
      cbn [api.activeScans]. rewrite put_same, GetProgress_copy. reflexivity.
    + intros id Hid. unfold api.GetStatus. cbn [api.activeScans api.scanResults].
      now rewrite !put_other.
Qed.

Lemma status_after_a_scan_witness :
  api.GetStatus "/data" registryAfterScan
  = api.StatusJson 200
      (api.mkStatus "running" (Some (progress (Sample.scannerOf Sample.treeScan))) None).
Proof.
  destruct (status_after_a_scan "/data" Sample.treeScan api.empty registryAfterScan)
    as [R _].
  - discriminate.
  - vm_compute. reflexivity.
  - apply (R (Sample.resultOf Sample.treeScan)). vm_compute. reflexivity.
Defined.

(** In a registry the package can be in, a path with a result has a
    scanner or a nil pointer. *)
Lemma reachable_results_have_scanners
    (Match : string -> string -> bool * option error)
    (DetectContentType : string -> string) (reg : api.Registry) :
  api.reachable Match DetectContentType reg ->
  forall id, api.scanResults reg id <> None -> api.activeScans reg id <> None.
Proof.
  induction 1 as [|reg reg' fs started now order fuel body answer path s _ IH HS HG];
    intros id.
  - simpl. congruence.
  - destruct (Scan Match DetectContentType fs now order fuel path s) as [[e|result] s1| |];
      try discriminate; injection HG as <-; cbn [api.activeScans api.scanResults];
      unfold api.put; destruct (String.eqb id path); try discriminate; apply IH.
Qed.

(** X19: the state "completed" is never reported: in every registry that
    scans started by [StartScan] can leave, a path with a result also has
    an entry among the active scans, so [GetStatus] answers "running" or
    "error" for it. *)
Theorem completed_is_never_reported
    (Match : string -> string -> bool * option error)
    (DetectContentType : string -> string) (reg : api.Registry) (id : string) :
  api.reachable Match DetectContentType reg ->
  forall code progress result,
    api.GetStatus id reg
    <> api.StatusJson code (api.mkStatus "completed" progress result).
Proof.
  intros H code p r. unfold api.GetStatus.
  destruct (filepath.isEmpty id); [discriminate|].
  pose proof (reachable_results_have_scanners Match DetectContentType reg H id) as K.
  destruct (api.activeScans reg id) as [[sc|]|]; try discriminate.
  destruct (api.scanResults reg id) as [res|]; [|discriminate].
  exfalso. apply K; [discriminate | reflexivity].
Qed.

Lemma completed_is_never_reported_witness :
  api.GetStatus "/data" registryAfterScan
  <> api.StatusJson 200
       (api.mkStatus "completed" None (Some (Sample.resultOf Sample.treeScan))).
Proof.
  apply (completed_is_never_reported filepath.Match Sample.sniff registryAfterScan "/data").
  apply (api.reachable_scan filepath.Match Sample.sniff api.empty registryAfterScan
           Sample.testTree 1700000000 1700000100 (fun l => l) 100
           (inr ("/data", Sample.testConfig true)) (api.Started 200 "/data") "/data"
           (New 1700000000 (Sample.testConfig true))).
  - apply api.reachable_empty.
  - reflexivity.
  - vm_compute. reflexivity.
Defined.
